(** * Online code compiler: the execution engine, embedded and verified

A shallow embedding of the execution pipeline of the repository:

- [Constants]            src/backend/src/utils/constants.js
- [JsString], [JsRegExp] the JavaScript string and RegExp primitives
                         the services rely on
- [Helpers]              src/utils/helpers.js
- [JavaExecutor]         executors/java.js
- [SecurityService]      src/services/securityService.js
- [DockerService]        src/services/dockerService.js
- [CodeExecutionService] src/services/codeExecutionService.js
- [User], [Session]      models/User.js, models/Session.js (the
                         counters and lists the orchestrator updates)
- [CodeController]       src/controllers/codeController.js

JavaScript strings are sequences of UTF-16 code units.  The embedding
works with code units below 256 ([ascii]), for which [String.length]
is the JavaScript [length]; the character classes below list every
member of the JavaScript class in that range. *)

From Stdlib Require Import String Ascii List Bool Arith ZArith Lia.
From Stdlib Require QArith Qround.
Import ListNotations.
Open Scope string_scope.
Open Scope nat_scope.

(* ===================================================================== *)
(** * constants.js                                                        *)
(* ===================================================================== *)

Module Constants.

(** [SUPPORTED_LANGUAGES]: the values of the object, in declaration order. *)
Definition PYTHON := "python".
Definition JAVASCRIPT := "javascript".
Definition CPP := "cpp".
Definition JAVA := "java".
Definition SUPPORTED_LANGUAGES : list string := [PYTHON; JAVASCRIPT; CPP; JAVA].

(** [EXECUTION_STATUS]: the six keys, and the string each one stands for. *)
Inductive EXECUTION_STATUS :=
| SUCCESS
| ERROR
| TIMEOUT
| MEMORY_LIMIT_EXCEEDED
| COMPILATION_ERROR
| RUNTIME_ERROR.


Definition MAX_CODE_LENGTH : Z := 50000.
Definition MAX_INPUT_LENGTH : Z := 10000.

(** [LANGUAGE_EXTENSIONS[language]], [None] for a key the object lacks. *)
Definition LANGUAGE_EXTENSIONS (language : string) : option string :=
  if String.eqb language PYTHON then Some ".py"
  else if String.eqb language JAVASCRIPT then Some ".js"
  else if String.eqb language CPP then Some ".cpp"
  else if String.eqb language JAVA then Some ".java"
  else None.

(** [LANGUAGE_MAIN_FILES[language]] *)
Definition LANGUAGE_MAIN_FILES (language : string) : option string :=
  if String.eqb language PYTHON then Some "main.py"
  else if String.eqb language JAVASCRIPT then Some "main.js"
  else if String.eqb language CPP then Some "main.cpp"
  else if String.eqb language JAVA then Some "Main.java"
  else None.

End Constants.

(* ===================================================================== *)
(** * JavaScript strings                                                  *)
(* ===================================================================== *)

Module JsString.

Definition code (c : ascii) : nat := nat_of_ascii c.

Definition NUL : ascii := ascii_of_nat 0.
Definition LF : ascii := ascii_of_nat 10.
Definition CR : ascii := ascii_of_nat 13.

Definition str1 (c : ascii) : string := String c EmptyString.

(** [s.length] *)
Definition length (s : string) : Z := Z.of_nat (String.length s).

(** WhiteSpace and LineTerminator code units below 256: TAB, LF, VT, FF,
    CR, SP and NBSP.  This is the class of [\s] and of [trim]. *)
Definition is_space (c : ascii) : bool :=
  let n := code c in
  (9 <=? n) && (n <=? 13) || (n =? 32) || (n =? 160).

Definition is_line_terminator (c : ascii) : bool :=
  let n := code c in (n =? 10) || (n =? 13).

Definition is_upper (c : ascii) : bool :=
  let n := code c in (65 <=? n) && (n <=? 90).

Definition is_lower (c : ascii) : bool :=
  let n := code c in (97 <=? n) && (n <=? 122).

Definition is_digit (c : ascii) : bool :=
  let n := code c in (48 <=? n) && (n <=? 57).

(** The class of [\w]: letters, digits and the underscore. *)
Definition is_word (c : ascii) : bool :=
  is_upper c || is_lower c || is_digit c || (code c =? 95).

(** [toLowerCase] of one code unit: A-Z, and the Latin-1 capitals
    192-222 apart from the multiplication sign 215. *)
Definition lower (c : ascii) : ascii :=
  let n := code c in
  if is_upper c then ascii_of_nat (n + 32)
  else if (192 <=? n) && (n <=? 222) && negb (n =? 215) then ascii_of_nat (n + 32)
  else c.

Fixpoint toLowerCase (s : string) : string :=
  match s with
  | EmptyString => EmptyString
  | String c s' => String (lower c) (toLowerCase s')
  end.

(** [s.includes(t)] *)
Fixpoint includes (t s : string) : bool :=
  if String.prefix t s then true
  else match s with
       | EmptyString => false
       | String _ s' => includes t s'
       end.

(** [s.substring(0, n)] *)
Fixpoint take (n : nat) (s : string) : string :=
  match n, s with
  | S n', String c s' => String c (take n' s')
  | _, _ => EmptyString
  end.

Fixpoint rev_onto (s acc : string) : string :=
  match s with
  | EmptyString => acc
  | String c s' => rev_onto s' (String c acc)
  end.

Definition rev (s : string) : string := rev_onto s EmptyString.

Fixpoint trimStart (s : string) : string :=
  match s with
  | String c s' => if is_space c then trimStart s' else s
  | EmptyString => EmptyString
  end.

Definition trimEnd (s : string) : string := rev (trimStart (rev s)).

Definition trim (s : string) : string := trimEnd (trimStart s).

(** [s.split(sep)] for a one-unit separator; never returns the empty
    list: the last (possibly empty) piece is always there. *)
Fixpoint split_acc (sep : ascii) (s : string) (cur : string) : list string :=
  match s with
  | EmptyString => [rev cur]
  | String c s' =>
      if Ascii.eqb c sep then rev cur :: split_acc sep s' EmptyString
      else split_acc sep s' (String c cur)
  end.

Definition split (sep : ascii) (s : string) : list string :=
  split_acc sep s EmptyString.

(** [xs.join(sep)] *)
Fixpoint join (sep : string) (xs : list string) : string :=
  match xs with
  | [] => EmptyString
  | [x] => x
  | x :: rest => x ++ sep ++ join sep rest
  end.

(** Every unit of the text is an ASCII character. *)
Fixpoint all_ascii (s : string) : bool :=
  match s with
  | EmptyString => true
  | String c s' => (code c <? 128) && all_ascii s'
  end.

(** Template-literal rendering of a positive integer. *)
Fixpoint digits (p : positive) (fuel : nat) (acc : string) : string :=
  let d := ascii_of_N (48 + Z.to_N (Zpos p mod 10)) in
  match fuel, (Zpos p / 10)%Z with
  | S fuel', Zpos q => digits q fuel' (String d acc)
  | _, _ => String d acc
  end.

Definition of_Z (n : Z) : string :=
  match n with
  | Zpos p => digits p (Pos.to_nat (Pos.size p)) EmptyString
  | Z0 => "0"
  | Zneg p => "-" ++ digits p (Pos.to_nat (Pos.size p)) EmptyString
  end.

(** [trimStart] on the list of units. *)
Fixpoint drop_spaces (l : list ascii) : list ascii :=
  match l with
  | c :: l' => if is_space c then drop_spaces l' else l
  | [] => []
  end.

(** [P] holds of the text from some index on. *)
Fixpoint somewhere (P : string -> bool) (s : string) : bool :=
  P s || match s with
         | String _ s' => somewhere P s'
         | EmptyString => false
         end.

(** The letters below 128 that are their own lower case, and the other
    units below 128: what a pattern under the [i] flag is written with. *)
Definition plain (t : string) : bool :=
  forallb (fun c => Ascii.eqb (lower c) c && (code c <? 128))
          (list_ascii_of_string t).

End JsString.

(* ===================================================================== *)
(** * JavaScript regular expressions                                      *)
(* ===================================================================== *)

Module JsRegExp.
Import JsString.

(** The fragment of the pattern language that the services use.  The
    quantifiers of the sources all range over a single character class,
    so the greedy star is a star of a class. *)
Inductive re :=
| Eps
| Chr (p : ascii -> bool)
| Seq (a b : re)
| Alt (a b : re)
| Star (p : ascii -> bool)
| WordB
| Bos
| Eos
| Grp (n : nat) (a : re).

(** The state of a match in progress: the unit before the cursor (for
    [\b]), the text after it, its index, and the captures so far. *)
Record mstate := MState {
  ms_prev : option ascii;
  ms_rest : string;
  ms_pos : nat;
  ms_caps : list (nat * string)
}.

Definition advance (c : ascii) (rest : string) (st : mstate) : mstate :=
  MState (Some c) rest (S (ms_pos st)) (ms_caps st).

Definition word_before (st : mstate) : bool :=
  match ms_prev st with Some c => is_word c | None => false end.

Definition word_after (st : mstate) : bool :=
  match ms_rest st with String c _ => is_word c | EmptyString => false end.

(** Greedy [p*]: take as many units as possible, give back one at a time
    while the continuation fails. *)
Fixpoint star (p : ascii -> bool) (rest : string) (st : mstate)
         (k : mstate -> option mstate) : option mstate :=
  match rest with
  | String c rest' =>
      if p c then
        match star p rest' (advance c rest' st) k with
        | Some r => Some r
        | None => k st
        end
      else k st
  | EmptyString => k st
  end.

(** Backtracking matcher anchored at the cursor of [st]; alternatives
    are tried left to right. *)
Fixpoint run (r : re) (st : mstate) (k : mstate -> option mstate)
  : option mstate :=
  match r with
  | Eps => k st
  | Chr p =>
      match ms_rest st with
      | String c rest' => if p c then k (advance c rest' st) else None
      | EmptyString => None
      end
  | Seq a b => run a st (fun st' => run b st' k)
  | Alt a b =>
      match run a st k with
      | Some res => Some res
      | None => run b st k
      end
  | Star p => star p (ms_rest st) st k
  | WordB => if xorb (word_before st) (word_after st) then k st else None
  | Bos => if ms_pos st =? 0 then k st else None
  | Eos => match ms_rest st with EmptyString => k st | _ => None end
  | Grp n a =>
      run a st (fun st' =>
        k (MState (ms_prev st') (ms_rest st') (ms_pos st')
             ((n, take (ms_pos st' - ms_pos st) (ms_rest st)) :: ms_caps st')))
  end.

Definition match_here (r : re) (prev : option ascii) (s : string) (pos : nat)
  : option mstate :=
  run r (MState prev s pos []) Some.

(** Leftmost match at or after the cursor: its start index and the
    state at its end. *)
Fixpoint search (r : re) (prev : option ascii) (s : string) (pos : nat)
  : option (nat * mstate) :=
  match match_here r prev s pos with
  | Some st => Some (pos, st)
  | None =>
      match s with
      | String c s' => search r (Some c) s' (S pos)
      | EmptyString => None
      end
  end.

(** Move the cursor to index [n]; [None] when [n] is past the end. *)
Fixpoint seek (n : nat) (prev : option ascii) (s : string)
  : option (option ascii * string) :=
  match n with
  | O => Some (prev, s)
  | S n' =>
      match s with
      | String c s' => seek n' (Some c) s'
      | EmptyString => None
      end
  end.

(** [RegExpBuiltinExec] for a regex with the [g] flag: the search starts
    at [lastIndex]; a match moves [lastIndex] to its end, a failure
    resets it to 0. *)
Definition exec_global (r : re) (lastIndex : nat) (s : string)
  : option (nat * mstate) * nat :=
  match seek lastIndex None s with
  | None => (None, 0)
  | Some (prev, rest) =>
      match search r prev rest lastIndex with
      | Some (i, st) => (Some (i, st), ms_pos st)
      | None => (None, 0)
      end
  end.

(** [regex.test(s)] on a regex object with the [g] flag whose
    [lastIndex] is given: the verdict and the new [lastIndex]. *)
Definition test_global (r : re) (lastIndex : nat) (s : string) : bool * nat :=
  match exec_global r lastIndex s with
  | (Some _, li) => (true, li)
  | (None, li) => (false, li)
  end.

(** [test] on a regex object that was just created ([lastIndex] 0). *)
Definition test_fresh (r : re) (s : string) : bool :=
  fst (test_global r 0 s).

(** [s.match(regex)] for a regex without the [g] flag. *)
Definition match_first (r : re) (s : string) : option mstate :=
  option_map snd (search r None s 0).

Definition capture (n : nat) (st : mstate) : option string :=
  option_map snd (find (fun c => fst c =? n) (ms_caps st)).

(** [s.replace(regex, by)] for a regex with the [g] flag that cannot
    match the empty string, and a replacement without [$] patterns.
    [skip] counts the units of the current match still to be dropped. *)
Fixpoint replace_from (r : re) (by_ : string) (skip : nat)
         (prev : option ascii) (s : string) (pos : nat) : string :=
  match s with
  | EmptyString => EmptyString
  | String c s' =>
      match skip with
      | S skip' => replace_from r by_ skip' (Some c) s' (S pos)
      | O =>
          match match_here r prev s pos with
          | Some st =>
              by_ ++ replace_from r by_ (ms_pos st - pos - 1) (Some c) s' (S pos)
          | None => String c (replace_from r by_ 0 (Some c) s' (S pos))
          end
      end
  end.

Definition replace_all (r : re) (by_ : string) (s : string) : string :=
  replace_from r by_ 0 None s 0.

(** ** Pattern combinators *)

Definition only (c : ascii) : ascii -> bool := fun x => Ascii.eqb x c.

(** A literal unit under the [i] flag.  Canonicalisation only relates a
    pattern letter to the two cases of that ASCII letter. *)
Definition is_ci (c : ascii) : ascii -> bool :=
  fun x => Ascii.eqb (lower x) (lower c) && (code x <? 128).

(** [.]: any unit that is not a line terminator. *)
Definition any_char : ascii -> bool := fun x => negb (is_line_terminator x).

Definition Plus (p : ascii -> bool) : re := Seq (Chr p) (Star p).
Definition Opt (a : re) : re := Alt a Eps.

Fixpoint lit (s : string) : re :=
  match s with
  | EmptyString => Eps
  | String c s' => Seq (Chr (only c)) (lit s')
  end.

Fixpoint lit_ci (s : string) : re :=
  match s with
  | EmptyString => Eps
  | String c s' => Seq (Chr (is_ci c)) (lit_ci s')
  end.

(** A source text spliced into [new RegExp(..., 'i')] unescaped: a dot
    is the wildcard, every other unit of the tables stands for itself. *)
Fixpoint raw_ci (s : string) : re :=
  match s with
  | EmptyString => Eps
  | String c s' =>
      Seq (Chr (if Ascii.eqb c "."%char then any_char else is_ci c)) (raw_ci s')
  end.

Fixpoint seqs (rs : list re) : re :=
  match rs with
  | [] => Eps
  | [r] => r
  | r :: rest => Seq r (seqs rest)
  end.

Definition ws_star : re := Star is_space.
Definition ws_plus : re := Plus is_space.

(** The state of a match after the units of [d], with [rest] to go. *)
Fixpoint after (d rest : string) (st : mstate) : mstate :=
  match d with
  | EmptyString => st
  | String c d' => after d' rest (advance c (d' ++ rest) st)
  end.

(** No unit of the class at the head of the text. *)
Definition stops (p : ascii -> bool) (rest : string) : bool :=
  match rest with
  | String c _ => negb (p c)
  | EmptyString => true
  end.

End JsRegExp.

(* ===================================================================== *)
(** * The world outside the process                                       *)
(* ===================================================================== *)

(** Shapes of the Docker Engine API objects the service builds and reads. *)
Module Docker.

Record Ulimit := { Name : string; Soft : Z; Hard : Z }.

(** [HostConfig.NetworkMode] and [NetworkDisabled] are the keys under
    which the Engine API takes the network of a container; [None]: the
    object has no such key. *)
Record HostConfig := {
  HostConfig_NetworkMode : option string;
  Memory : Z;
  CpuQuota : Z;
  CpuPeriod : Z;
  PidsLimit : Z;
  Ulimits : list Ulimit;
  Binds : list string;
  ReadonlyRootfs : bool;
  SecurityOpt : list string;
  CapDrop : list string;
  AutoRemove : bool
}.

Record ContainerOptions := {
  Image : string;
  Cmd : list string;
  WorkingDir : string;
  AttachStdout : bool;
  AttachStderr : bool;
  AttachStdin : bool;
  OpenStdin : bool;
  StdinOnce : bool;
  Tty : bool;
  NetworkMode : string;
  NetworkDisabled : option bool;
  HostConfig_ : HostConfig
}.

(** The answer of [container.stats({stream: false})]; a field the
    daemon leaves out is [None]. *)
Record MemoryStats := { usage : option Z; limit : option Z }.

Record CpuStats := {
  total_usage : option Z;      (* [cpu_usage.total_usage]; [None]: no [cpu_usage] *)
  system_cpu_usage : Z;
  online_cpus : Z
}.

Record Stats := {
  memory_stats : option MemoryStats;
  cpu_stats : option CpuStats;
  precpu_stats : option CpuStats
}.

End Docker.

Module Effects.

Inductive LogLevel := LogInfo | LogWarn | LogError.

(** Everything the engine does to the world, in the order it does it. *)
Inductive Event :=
| Log (level : LogLevel) (message : string)
| Mkdir (dir : string)
| WriteFile (path content : string)
| Rmdir (dir : string)
| CreateContainer (options : Docker.ContainerOptions)
| ContainerStart (id : string)
| ContainerAttach (id : string)
| ContainerWait (id : string)
| ContainerKill (id : string)
| ContainerStats (id : string)
| ContainerInspect (id : string)
| ContainerStop (id : string) (grace : Z)
| ContainerRemove (id : string)
| Persist (what : string)
| Spawn (command : string) (args : list string) (stdin : option string).

Inductive Channel := Stdout | Stderr.

(** What the world may deliver while the supervisor waits for a
    container: the deadline timer, the settlement of the pending
    [attach], [wait] and [kill] requests, and chunks of output. *)
Inductive WaitEvent :=
| TimerFires
| AttachSettles (r : option string)   (* [Some m]: rejects with message m *)
| Chunk (ch : Channel) (data : string)
| WaitSettles (r : string + Z)        (* a rejection, or [StatusCode] *)
| KillSettles (r : option string).

(** How a spawned child process ends: the [close] event with what it
    wrote and its exit code ([None]: killed by a signal), or the
    [error] event with the error's [code] and [message]. *)
Inductive SpawnOutcome :=
| SpawnClose (stdout stderr : string) (exitCode : option Z)
| SpawnError (code message : string).

(** [process.memoryUsage()], already rounded to megabytes. *)
Record ProcessMemory := { rss : Z; heapTotal : Z; heapUsed : Z; external : Z }.

(** The answers of the world.  A request that can fail answers with the
    message of the error it rejects with. *)
Record World := {
  clock : nat -> Z;                                 (* n-th reading of the clock *)
  randomHex : string;                               (* [crypto.randomBytes(8)] in hex *)
  sha256Hex : string -> string;
  tmpdir : string;
  memoryUsage : ProcessMemory;
  env_MAX_MEMORY : option string;
  env_MAX_CPU : option QArith_base.Q;               (* [parseFloat]; [None]: unset or NaN *)
  env_DOCKER_TIMEOUT : option Z;                    (* [parseInt];   [None]: unset or NaN *)
  mkdir : string -> option string;
  writeFile : string -> string -> option string;
  rmdir : string -> option string;
  createContainer : Docker.ContainerOptions -> string + string;  (* error, or the id *)
  start : string -> option string;
  schedule : string -> list WaitEvent;
  stats : string -> string + Docker.Stats;
  inspect : string -> string + bool;                (* error, or [State.Running] *)
  stop : string -> option string;
  remove : string -> option string;
  persist : string -> option string;
  cwd : string;
  spawn : string -> list string -> SpawnOutcome;
  heapSamples : list Z;       (* [heapUsed] at each tick of a memory monitor *)
  typeError : string -> string  (* the message of the TypeError the engine raises
                                   when the named property of [undefined] is read *)
}.

(** The state of the process: the effects so far, the [lastIndex] of
    each shared regex of [SECURITY_CONFIG.FORBIDDEN_PATTERNS], the
    number of clock readings taken, and [activeContainers]. *)
Record State := {
  trace : list Event;
  lastIndex : list nat;
  ticks : nat;
  activeContainers : list (string * string)
}.

Definition initial : State := Build_State [] [] 0 [].

(** A computation returns, throws an error (its message), or never
    settles.  The state survives a throw. *)
Inductive Res (A : Type) :=
| Val (a : A)
| Throw (message : string)
| Pending.
Arguments Val {A} a.
Arguments Throw {A} message.
Arguments Pending {A}.

Definition M (A : Type) : Type := State -> Res A * State.

Definition ret {A} (a : A) : M A := fun st => (Val a, st).

Definition bind {A B} (c : M A) (f : A -> M B) : M B :=
  fun st =>
    match c st with
    | (Val a, st') => f a st'
    | (Throw m, st') => (Throw m, st')
    | (Pending, st') => (Pending, st')
    end.

Definition throw {A} (message : string) : M A := fun st => (Throw message, st).

Definition pending {A} : M A := fun st => (Pending, st).

(** [try { x = c } catch (error) { return h(error) }; k(x)]. *)
Definition catch {A B} (c : M A) (h : string -> M B) (k : A -> M B) : M B :=
  fun st =>
    match c st with
    | (Val a, st') => k a st'
    | (Throw m, st') => h m st'
    | (Pending, st') => (Pending, st')
    end.

Definition append_trace (st : State) (events : list Event) : State :=
  Build_State (trace st ++ events)%list (lastIndex st) (ticks st) (activeContainers st).

Definition tick (st : State) : State :=
  Build_State (trace st) (lastIndex st) (S (ticks st)) (activeContainers st).

Definition emit (e : Event) : M unit :=
  fun st => (Val tt, append_trace st [e]).

Definition log (level : LogLevel) (message : string) : M unit :=
  emit (Log level message).

(** An awaited request: the event, then the world's answer. *)
Definition request (e : Event) (answer : option string) : M unit :=
  fun st =>
    match emit e st with
    | (_, st') =>
        match answer with
        | None => (Val tt, st')
        | Some m => (Throw m, st')
        end
    end.

Definition request_for {A} (e : Event) (answer : string + A) : M A :=
  fun st =>
    match emit e st with
    | (_, st') =>
        match answer with
        | inr a => (Val a, st')
        | inl m => (Throw m, st')
        end
    end.

(** [Date.now()] *)
Definition Date_now (w : World) : M Z :=
  fun st => (Val (clock w (ticks st)), tick st).

Definition get_lastIndex : M (list nat) := fun st => (Val (lastIndex st), st).

Definition set_lastIndex (li : list nat) : M unit :=
  fun st => (Val tt, Build_State (trace st) li (ticks st) (activeContainers st)).

Definition activeContainers_set (executionId container : string) : M unit :=
  fun st => (Val tt,
             Build_State (trace st) (lastIndex st) (ticks st)
               ((executionId, container)
                  :: filter (fun e => negb (String.eqb (fst e) executionId))
                       (activeContainers st))).

Definition activeContainers_delete (executionId : string) : M unit :=
  fun st => (Val tt,
             Build_State (trace st) (lastIndex st) (ticks st)
               (filter (fun e => negb (String.eqb (fst e) executionId))
                  (activeContainers st))).

(** ** Observing a run *)

Definition value {A} (r : Res A) : option A :=
  match r with Val a => Some a | _ => None end.

(** The events a computation performs when run from [st]. *)
Definition events_of {A} (c : M A) (st : State) : list Event :=
  skipn (List.length (trace st)) (trace (snd (c st))).

(** Every event the computation performs, from any state, satisfies [P]. *)
Definition emits {A} (P : Event -> Prop) (c : M A) : Prop :=
  forall st, exists events,
    trace (snd (c st)) = (trace st ++ events)%list /\ Forall P events.

Definition is_log (e : Event) : bool :=
  match e with Log _ _ => true | _ => false end.

(** A computation that reads nothing of the state and only adds to the
    trace behaves everywhere as it does from the initial state. *)
Definition uniform {A} (c : M A) : Prop :=
  forall st, c st = (fst (c initial), append_trace st (trace (snd (c initial)))).

(** The events whose content does not depend on the submission. *)
Definition routine (e : Event) : bool :=
  match e with
  | WriteFile _ _ | CreateContainer _ => false
  | _ => true
  end.

Definition is_stats (e : Event) : bool :=
  match e with ContainerStats _ => true | _ => false end.

Declare Scope js_scope.
Delimit Scope js_scope with js.
Notation "x <- c ;; k" := (bind c (fun x => k))
  (at level 61, c at next level, right associativity) : js_scope.
Notation "c ;; k" := (bind c (fun _ => k))
  (at level 61, right associativity) : js_scope.

End Effects.

(** Assertions about runs. *)
Module Hoare.
Import Effects.

(** [wp c Q E st]: run from [st], the computation ends with a value and
    a state that satisfy [Q], or throws a message that satisfies [E]
    with the state it leaves; nothing is asked of a run that never
    settles. *)
Definition wp {A} (c : M A) (Q : A -> State -> Prop) (E : string -> State -> Prop)
           (st : State) : Prop :=
  match c st with
  | (Val a, st') => Q a st'
  | (Throw m, st') => E m st'
  | (Pending, _) => True
  end.

(** The computation never throws. *)
Definition safe {A} (c : M A) : Prop := forall st m, fst (c st) <> Throw m.

(** The computation leaves [activeContainers] as it finds it. *)
Definition keeps {A} (c : M A) : Prop :=
  forall st, activeContainers (snd (c st)) = activeContainers st.

(** [st'] is [st] after more events. *)
Definition extends (st st' : State) : Prop :=
  exists events, trace st' = (trace st ++ events)%list.

(** [st'] is [st] after more events, [e] among them. *)
Definition since (st : State) (e : Event) (st' : State) : Prop :=
  exists events, trace st' = (trace st ++ events)%list /\ In e events.

(** The table without the entries of [executionId]: what
    [activeContainers.delete] leaves. *)
Definition without (executionId : string) (table : list (string * string)) :=
  filter (fun e => negb (String.eqb (fst e) executionId)) table.

(** The footprint that allows every event. *)
Definition anything : Event -> Prop := fun _ => True.

End Hoare.

(* ===================================================================== *)
(** * helpers.js                                                          *)
(* ===================================================================== *)

Module Helpers.
Import Constants JsString JsRegExp Effects.
Local Open Scope js_scope.

Definition generateExecutionId (w : World) : M string :=
  timestamp <- Date_now w ;;
  ret ("exec_" ++ of_Z timestamp ++ "_" ++ randomHex w).

Definition validateLanguage (language : string) : bool :=
  existsb (String.eqb language) SUPPORTED_LANGUAGES.

(** [LANGUAGE_EXTENSIONS[language] || '.txt'] *)
Definition getFileExtension (language : string) : string :=
  match LANGUAGE_EXTENSIONS language with
  | Some extension => extension
  | None => ".txt"
  end.

(** [LANGUAGE_MAIN_FILES[language] || 'main.txt'] *)
Definition getMainFileName (language : string) : string :=
  match LANGUAGE_MAIN_FILES language with
  | Some name => name
  | None => "main.txt"
  end.

Definition generateFileName (language executionId : string) : string :=
  let extension := getFileExtension language in
  if String.eqb language JAVA then "Main.java" else "main" ++ extension.

(** [path.join] of a directory and a name without separators or dots
    to normalise. *)
Definition path_join (dir name : string) : string := dir ++ "/" ++ name.

Definition createTempDirectory (w : World) (executionId : string) : M string :=
  let tempDir := path_join (tmpdir w) ("code_exec_" ++ executionId) in
  request (Mkdir tempDir) (mkdir w tempDir) ;;
  ret tempDir.

Definition writeCodeToFile (w : World) (code filePath : string) : M unit :=
  request (WriteFile filePath code) (writeFile w filePath code).

Definition writeInputToFile (w : World) (input filePath : string) : M unit :=
  request (WriteFile filePath input) (writeFile w filePath input).

Definition cleanupTempDirectory (w : World) (tempDir : string) : M unit :=
  catch (request (Rmdir tempDir) (rmdir w tempDir))
        (fun message =>
           log LogWarn ("Failed to cleanup temp directory: " ++ tempDir ++ " " ++ message))
        ret.

Definition not_space (c : ascii) : bool := negb (is_space c).

(** [/\/tmp\/[^\s]+/g], [/\/home\/[^\s]+/g], [/\/var\/[^\s]+/g] *)
Definition re_tmp : re := Seq (lit "/tmp/") (Plus not_space).
Definition re_home : re := Seq (lit "/home/") (Plus not_space).
Definition re_var : re := Seq (lit "/var/") (Plus not_space).

Definition truncation_marker : string := str1 LF ++ "... (output truncated)".

(** The constant the function declares for itself, which hides the
    exported one of the same name. *)
Definition sanitizeOutput_MAX_OUTPUT_LENGTH : Z := 10000.

Definition sanitizeOutput (output : string) : string :=
  match output with
  | EmptyString => ""
  | _ =>
      let output := replace_all re_tmp "[temp_file]" output in
      let output := replace_all re_home "[user_file]" output in
      let output := replace_all re_var "[system_file]" output in
      if (length output >? sanitizeOutput_MAX_OUTPUT_LENGTH)%Z then
        take (Z.to_nat sanitizeOutput_MAX_OUTPUT_LENGTH) output ++ truncation_marker
      else output
  end.

(** The text [sanitizeOutput] measures and cuts: the output after its
    three replacements. *)
Definition redacted (output : string) : string :=
  replace_all re_var "[system_file]"
    (replace_all re_home "[user_file]" (replace_all re_tmp "[temp_file]" output)).

Definition getMemoryUsage (w : World) : ProcessMemory := memoryUsage w.

(** [/^(\d+)([kmg]?)b?$/i] *)
Definition re_memoryLimit : re :=
  seqs [Bos; Grp 1 (Plus is_digit);
        Grp 2 (Opt (Chr (fun c => is_ci "k" c || is_ci "m" c || is_ci "g" c)));
        Opt (Chr (is_ci "b")); Eos].

(** [parseInt] of a string of decimal digits: the number they write.
    The source gets it as a binary64, which is that number when it is
    below 2^53. *)
Fixpoint parseInt_acc (s : string) (acc : Z) : Z :=
  match s with
  | EmptyString => acc
  | String c s' => parseInt_acc s' (10 * acc + Z.of_nat (code c - 48))%Z
  end.

Definition parseInt (s : string) : Z := parseInt_acc s 0%Z.

(** [parseMemoryLimit] of a string limit. *)
Definition parseMemoryLimit (memoryLimit : string) : Z :=
  match match_first re_memoryLimit memoryLimit with
  | None => (128 * 1024 * 1024)%Z
  | Some m =>
      let value := parseInt (match capture 1 m with Some d => d | None => "" end) in
      let unit := toLowerCase (match capture 2 m with Some u => u | None => "" end) in
      if String.eqb unit "k" then (value * 1024)%Z
      else if String.eqb unit "m" then (value * 1024 * 1024)%Z
      else if String.eqb unit "g" then (value * 1024 * 1024 * 1024)%Z
      else value
  end.

(** A unit that is no digit, no unit letter and no [b]. *)
Definition foreign (x : ascii) : bool :=
  negb (existsb (Ascii.eqb x) (list_ascii_of_string "0123456789kKmMgGbB")).

End Helpers.

(* ===================================================================== *)
(** * securityService.js                                                  *)
(* ===================================================================== *)

Module SecurityService.
Import Constants JsString JsRegExp Effects.
Local Open Scope js_scope.

Definition quote (c : ascii) : bool :=
  Ascii.eqb c "'"%char || Ascii.eqb c (ascii_of_nat 34).

(** [require\s*\(\s*['"]NAME['"]\s*\)] *)
Definition re_require (name : string) : re :=
  seqs [lit_ci "require"; ws_star; lit "("; ws_star; Chr quote; lit_ci name;
        Chr quote; ws_star; lit ")"].

(** [#include\s*<\s*NAME\s*>] with the dots of NAME escaped *)
Definition re_include_exact (name : string) : re :=
  seqs [lit_ci "#include"; ws_star; lit "<"; ws_star; lit_ci name; ws_star; lit ">"].

(** [SECURITY_CONFIG.FORBIDDEN_PATTERNS]: the [source] of each regex and
    its pattern.  All carry the flags [gi]; the objects are created once,
    when the module is loaded, and shared by every call. *)
Definition FORBIDDEN_PATTERNS : list (string * re) :=
  [ ("import\s+os", seqs [lit_ci "import"; ws_plus; lit_ci "os"]);
    ("import\s+sys", seqs [lit_ci "import"; ws_plus; lit_ci "sys"]);
    ("import\s+subprocess", seqs [lit_ci "import"; ws_plus; lit_ci "subprocess"]);
    ("import\s+socket", seqs [lit_ci "import"; ws_plus; lit_ci "socket"]);
    ("require\s*\(\s*['" ++ str1 (ascii_of_nat 34) ++ "]fs['" ++ str1 (ascii_of_nat 34) ++ "]\s*\)",
      re_require "fs");
    ("require\s*\(\s*['" ++ str1 (ascii_of_nat 34) ++ "]child_process['"
       ++ str1 (ascii_of_nat 34) ++ "]\s*\)",
      re_require "child_process");
    ("require\s*\(\s*['" ++ str1 (ascii_of_nat 34) ++ "]net['" ++ str1 (ascii_of_nat 34) ++ "]\s*\)",
      re_require "net");
    ("#include\s*<\s*stdlib\.h\s*>", re_include_exact "stdlib.h");
    ("#include\s*<\s*unistd\.h\s*>", re_include_exact "unistd.h");
    ("system\s*\(", seqs [lit_ci "system"; ws_star; lit "("]);
    ("exec\s*\(", seqs [lit_ci "exec"; ws_star; lit "("]);
    ("eval\s*\(", seqs [lit_ci "eval"; ws_star; lit "("]);
    ("Runtime\.getRuntime\(\)\.exec", lit_ci "Runtime.getRuntime().exec");
    ("ProcessBuilder", lit_ci "ProcessBuilder");
    ("\.\.\/", lit "../");
    ("\/etc\/passwd", lit_ci "/etc/passwd");
    ("\/proc\/", lit_ci "/proc/") ].

Record Validation := { isValid : bool; errors : list string }.

Definition is_empty {A} (l : list A) : bool :=
  match l with [] => true | _ => false end.

(** The loop over the shared patterns: [pattern.test(code)] reads and
    writes the [lastIndex] of each regex object.  Returns the sources of
    the patterns that matched and the new [lastIndex] values. *)
Fixpoint test_patterns (patterns : list (string * re)) (lastIndexes : list nat)
         (code : string) : list string * list nat :=
  match patterns with
  | [] => ([], [])
  | (source, pattern) :: rest =>
      let '(found, li) := test_global pattern (hd 0 lastIndexes) code in
      let '(hits, lis) := test_patterns rest (tl lastIndexes) code in
      ((if found then source :: hits else hits), li :: lis)
  end.

Definition tests (mk : string -> re) (message : string) (code : string)
           (names : list string) : list string :=
  map (fun name => message ++ name)
      (filter (fun name => test_fresh (mk name) code) names).

(** [\bNAME\s*\(] *)
Definition re_call (name : string) : re :=
  seqs [WordB; lit_ci name; ws_star; lit "("].

(** [import\s+NAME|from\s+NAME\s+import] *)
Definition re_python_import (name : string) : re :=
  Alt (seqs [lit_ci "import"; ws_plus; lit_ci name])
      (seqs [lit_ci "from"; ws_plus; lit_ci name; ws_plus; lit_ci "import"]).

Definition validatePythonCode (code : string) (errors : list string) : list string :=
  let dangerousImports :=
    ["os"; "sys"; "subprocess"; "socket"; "urllib"; "requests";
     "shutil"; "glob"; "tempfile"; "pickle"; "marshal"] in
  let dangerousFunctions := ["exec"; "eval"; "__import__"; "compile"; "open"; "file"] in
  (errors
     ++ tests re_python_import "Dangerous import detected: " code dangerousImports
     ++ tests re_call "Dangerous function detected: " code dangerousFunctions)%list.

(** [\bNAME\b] *)
Definition re_global (name : string) : re := seqs [WordB; lit_ci name; WordB].

Definition validateJavaScriptCode (code : string) (errors : list string) : list string :=
  let dangerousModules :=
    ["fs"; "child_process"; "net"; "http"; "https"; "crypto";
     "os"; "path"; "stream"; "util"; "vm"] in
  let dangerousGlobals := ["process"; "global"; "__dirname"; "__filename"] in
  (errors
     ++ tests re_require "Dangerous module detected: " code dangerousModules
     ++ tests re_global "Dangerous global object detected: " code dangerousGlobals)%list.

(** [#include\s*<NAME]: NAME is spliced in as it is, its dots are
    wildcards. *)
Definition re_cpp_include (name : string) : re :=
  seqs [lit_ci "#include"; ws_star; lit "<"; raw_ci name].

Definition validateCppCode (code : string) (errors : list string) : list string :=
  let dangerousIncludes :=
    ["cstdlib"; "stdlib.h"; "unistd.h"; "sys/"; "windows.h";
     "process.h"; "signal.h"; "fcntl.h"] in
  let dangerousFunctions := ["system"; "exec"; "fork"; "kill"; "exit"] in
  (errors
     ++ tests re_cpp_include "Dangerous include detected: " code dangerousIncludes
     ++ tests re_call "Dangerous function detected: " code dangerousFunctions)%list.

(** A table entry after [replace(/\./g, '\\.')]: the dots are literal;
    the one pair of parentheses of the table is left as it is and so is
    an empty group. *)
Fixpoint dots_escaped_ci (s : string) : re :=
  match s with
  | EmptyString => Eps
  | String c s' =>
      match Ascii.eqb c "("%char, s' with
      | true, String d s'' =>
          if Ascii.eqb d ")"%char then Seq (Grp 1 Eps) (dots_escaped_ci s'')
          else Seq (Chr (is_ci c)) (dots_escaped_ci s')
      | _, _ => Seq (Chr (is_ci c)) (dots_escaped_ci s')
      end
  end.

(** [import\s+NAME] *)
Definition re_java_import (name : string) : re :=
  seqs [lit_ci "import"; ws_plus; dots_escaped_ci name].

Definition validateJavaCode (code : string) (errors : list string) : list string :=
  let dangerousImports :=
    ["java.io.File"; "java.net"; "java.lang.Runtime";
     "java.lang.ProcessBuilder"; "java.nio.file";
     "java.security"; "javax.script"] in
  let dangerousMethods :=
    ["Runtime.getRuntime().exec"; "ProcessBuilder"; "System.exit"; "File."; "Files."] in
  (errors
     ++ tests re_java_import "Dangerous import detected: " code dangerousImports
     ++ tests dots_escaped_ci "Dangerous method detected: " code dangerousMethods)%list.

Fixpoint log_each (level : LogLevel) (message : string) (n : nat) : M unit :=
  match n with
  | O => ret tt
  | S n' => log level message ;; log_each level message n'
  end.

Definition validateCode (code language : string) : M Validation :=
  if (String.length (trim code) =? 0) then
    ret {| isValid := false; errors := ["Code cannot be empty"] |}
  else
    let errors :=
      if (length code >? MAX_CODE_LENGTH)%Z
      then ["Code exceeds maximum length of " ++ of_Z MAX_CODE_LENGTH ++ " characters"]
      else [] in
    lastIndexes <- get_lastIndex ;;
    let '(hits, lastIndexes') := test_patterns FORBIDDEN_PATTERNS lastIndexes code in
    set_lastIndex lastIndexes' ;;
    log_each LogWarn "Forbidden pattern detected" (List.length hits) ;;
    let found := map (fun source => "Code contains forbidden pattern: " ++ source) hits in
    let errors := (errors ++ found)%list in
    let errors :=
      if String.eqb language "python" then validatePythonCode code errors
      else if String.eqb language "javascript" then validateJavaScriptCode code errors
      else if String.eqb language "cpp" then validateCppCode code errors
      else if String.eqb language "java" then validateJavaCode code errors
      else errors in
    ret {| isValid := is_empty errors; errors := errors |}.

(** The patterns of [validateInput] are regex literals of the function
    body: each call creates them anew. *)
Definition maliciousPatterns : list re :=
  [ lit (str1 NUL);
    lit "../";
    Chr (fun c => Ascii.eqb c "<"%char || Ascii.eqb c ">"%char);
    lit_ci "javascript:";
    lit_ci "data:" ].

Definition validateInput (input : string) : Validation :=
  let errors :=
    if (length input >? MAX_INPUT_LENGTH)%Z
    then ["Input exceeds maximum length of " ++ of_Z MAX_INPUT_LENGTH ++ " characters"]
    else [] in
  let errors :=
    if existsb (fun pattern => test_fresh pattern input) maliciousPatterns
    then (errors ++ ["Input contains potentially malicious content"])%list
    else errors in
  {| isValid := is_empty errors; errors := errors |}.

Definition re_nul : re := lit (str1 NUL).
Definition re_crlf : re := lit (String CR (str1 LF)).
Definition re_cr : re := lit (str1 CR).
(** [/\n{3,}/g] *)
Definition re_blank_lines : re :=
  seqs [Chr (only LF); Chr (only LF); Plus (only LF)].

Definition sanitizeCode (code : string) : string :=
  match code with
  | EmptyString => ""
  | _ =>
      let code := replace_all re_nul "" code in
      let code := replace_all re_cr (str1 LF) (replace_all re_crlf (str1 LF) code) in
      let code := replace_all re_blank_lines (String LF (str1 LF)) code in
      let lines := split LF code in
      let sanitizedLines := map trimEnd lines in
      trim (join (str1 LF) sanitizedLines)
  end.

Definition sanitizeInput (input : string) : string :=
  match input with
  | EmptyString => ""
  | _ =>
      let input := replace_all re_nul "" input in
      let input := replace_all re_cr (str1 LF) (replace_all re_crlf (str1 LF) input) in
      let input := replace_all re_blank_lines (String LF (str1 LF)) input in
      trim input
  end.

Definition calculateRiskLevel (errors : list string) : string :=
  if List.length errors =? 0 then "low"
  else if List.length errors <=? 2 then "medium"
  else "high".

Definition generateCodeHash (w : World) (code : string) : string :=
  take 16 (sha256Hex w code).

Record SecurityReport := {
  timestamp : Z;
  language : string;
  ipAddress : string;
  codeLength : Z;
  isSecure : bool;
  violations : list string;
  riskLevel : string;
  codeHash : string
}.

Definition generateSecurityReport (w : World) (code language ipAddress : string)
  : M SecurityReport :=
  validation <- validateCode code language ;;
  timestamp <- Date_now w ;;
  let report :=
    {| timestamp := timestamp;
       language := language;
       ipAddress := ipAddress;
       codeLength := length code;
       isSecure := isValid validation;
       violations := errors validation;
       riskLevel := calculateRiskLevel (errors validation);
       codeHash := generateCodeHash w code |} in
  (if isValid validation then ret tt else log LogWarn "Security violation detected") ;;
  ret report.

(** The reason [validateCode] gives for a code over the limit, if it
    is over it. *)
Definition length_error (code : string) : list string :=
  if (length code >? MAX_CODE_LENGTH)%Z
  then ["Code exceeds maximum length of " ++ of_Z MAX_CODE_LENGTH
          ++ " characters"]
  else [].

(** The reason [validateCode] gives for a shared pattern that
    matched. *)
Definition pattern_error (source : string) : string :=
  "Code contains forbidden pattern: " ++ source.

(** The reasons of a call, from the matches of the shared patterns. *)
Definition reasons (code : string) (hits extra : list string) : list string :=
  (length_error code ++ map pattern_error hits ++ extra)%list.

End SecurityService.

(* ===================================================================== *)
(** * executors/java.js                                                   *)
(* ===================================================================== *)

Module JavaExecutor.
Import Constants JsString JsRegExp Effects.
Local Open Scope js_scope.

Definition memoryLimit : Z := 128 * 1024 * 1024.

Definition group (n : nat) (m : mstate) : string :=
  match capture n m with Some text => text | None => "" end.

(** [/public\s+class\s+(\w+)/] and [/class\s+(\w+)/] *)
Definition re_public_class : re :=
  seqs [lit "public"; ws_plus; lit "class"; ws_plus; Grp 1 (Plus is_word)].
Definition re_class : re :=
  seqs [lit "class"; ws_plus; Grp 1 (Plus is_word)].

Definition extractClassName (code : string) : string :=
  match match_first re_public_class code with
  | Some publicClassMatch => group 1 publicClassMatch
  | None =>
      match match_first re_class code with
      | Some classMatch => group 1 classMatch
      | None => "Main"
      end
  end.

(** [/\w+\.java:/g] *)
Definition re_java_file : re := seqs [Plus is_word; lit ".java:"].

Definition sanitizeOutput (output : string) : string :=
  match output with
  | EmptyString => ""
  | _ =>
      let output := replace_all Helpers.re_tmp "[temp_file]" output in
      let output := replace_all re_java_file "[script]:" output in
      let maxLength := 10000%Z in
      if (length output >? maxLength)%Z then
        take (Z.to_nat maxLength) output ++ Helpers.truncation_marker
      else output
  end.

Definition getErrorStatus (message : string) : EXECUTION_STATUS :=
  let message := toLowerCase message in
  if includes "timeout" message then TIMEOUT
  else if includes "memory" message then MEMORY_LIMIT_EXCEEDED
  else if includes "compilation" message then COMPILATION_ERROR
  else ERROR.

Record ProcessResult := {
  stdout : string;
  stderr : string;
  exitCode : option Z;
  used : Z                      (* [memoryUsage.used] *)
}.

Definition compileJava (w : World) (codeFile workingDir : string) : M ProcessResult :=
  let args := ["-cp"; workingDir; codeFile] in
  emit (Spawn "javac" args None) ;;
  match spawn w "javac" args with
  | SpawnClose out err exitCode =>
      ret {| stdout := sanitizeOutput out; stderr := sanitizeOutput err;
             exitCode := exitCode; used := 0%Z |}
  | SpawnError code message =>
      if String.eqb code "ETIMEDOUT" then throw "Compilation timeout" else throw message
  end.

(** The monitor samples the heap of the host process while the child
    runs: [Some used] is the last sample when none went over the limit. *)
Fixpoint memoryMonitor (samples : list Z) (used : Z) : option Z :=
  match samples with
  | [] => Some used
  | sample :: rest =>
      if (sample >? memoryLimit)%Z then None else memoryMonitor rest sample
  end.

Definition runJava (w : World) (className workingDir : string)
           (input : option string) : M ProcessResult :=
  let args := ["-cp"; workingDir; "-Xmx128m"; "-Xms32m"; "-XX:+UseSerialGC"; className] in
  emit (Spawn "java" args input) ;;
  match memoryMonitor (heapSamples w) 0%Z with
  | None => throw "Memory limit exceeded"
  | Some used =>
      match spawn w "java" args with
      | SpawnClose out err exitCode =>
          ret {| stdout := sanitizeOutput out; stderr := sanitizeOutput err;
                 exitCode := exitCode; used := used |}
      | SpawnError code message =>
          if String.eqb code "ETIMEDOUT" then throw "Execution timeout" else throw message
      end
  end.

Record Result := {
  status : EXECUTION_STATUS;
  output : string;
  error : string;
  executionTime : Z;
  resultExitCode : option Z;
  memoryUsed : Z
}.

Definition cleanup (w : World) (tempDir : string) : M unit :=
  catch (request (Rmdir tempDir) (rmdir w tempDir))
        (fun _ => log LogWarn "Failed to cleanup Java temp directory")
        ret.

Definition is_zero (exitCode : option Z) : bool :=
  match exitCode with Some 0%Z => true | _ => false end.

Definition execute (w : World) (code input executionId : string) : M Result :=
  startTime <- Date_now w ;;
  let tempDir := Helpers.path_join (Helpers.path_join (cwd w) "temp") executionId in
  result <-
    catch
      (request (Mkdir tempDir) (mkdir w tempDir) ;;
       let className := extractClassName code in
       let codeFile := Helpers.path_join tempDir (className ++ ".java") in
       request (WriteFile codeFile code) (writeFile w codeFile code) ;;
       (match input with
        | EmptyString => ret tt
        | _ => let inputFile := Helpers.path_join tempDir "input.txt" in
               request (WriteFile inputFile input) (writeFile w inputFile input)
        end) ;;
       compileResult <- compileJava w codeFile tempDir ;;
       if negb (is_zero (exitCode compileResult)) then
         now_ <- Date_now w ;;
         ret {| status := COMPILATION_ERROR; output := ""; error := stderr compileResult;
                executionTime := (now_ - startTime)%Z;
                resultExitCode := exitCode compileResult; memoryUsed := 0%Z |}
       else
         result <- runJava w className tempDir
                     (match input with EmptyString => None | _ => Some input end) ;;
         now_ <- Date_now w ;;
         ret {| status := if is_zero (exitCode result) then SUCCESS else RUNTIME_ERROR;
                output := stdout result; error := stderr result;
                executionTime := (now_ - startTime)%Z;
                resultExitCode := exitCode result; memoryUsed := used result |})
      (fun message =>
         now_ <- Date_now w ;;
         log LogError "Java execution failed" ;;
         ret {| status := getErrorStatus message; output := ""; error := message;
                executionTime := (now_ - startTime)%Z;
                resultExitCode := Some (-1)%Z; memoryUsed := 0%Z |})
      ret ;;
  cleanup w tempDir ;;
  ret result.

End JavaExecutor.

(* ===================================================================== *)
(** * dockerService.js                                                    *)
(* ===================================================================== *)

Module DockerService.
Import Constants JsString JsRegExp Effects Docker.
Local Open Scope js_scope.

Record Config := {
  image : string;
  cmd : list string;
  workingDir : string;
  memoryLimit : string;
  cpuLimit : QArith_base.Q;
  timeout : Z
}.

(** [process.env.MAX_MEMORY || '128m'] *)
Definition env_memoryLimit (w : World) : string :=
  match env_MAX_MEMORY w with
  | Some (String c rest) => String c rest
  | _ => "128m"
  end.

(** [parseFloat(process.env.MAX_CPU) || 0.5] *)
Definition env_cpuLimit (w : World) : QArith_base.Q :=
  match env_MAX_CPU w with
  | Some q => if QArith_base.Qeq_bool q (QArith_base.inject_Z 0)
              then QArith_base.Qmake 1 2 else q
  | None => QArith_base.Qmake 1 2
  end.

(** [parseInt(process.env.DOCKER_TIMEOUT) || fallback] *)
Definition env_timeout (w : World) (fallback : Z) : Z :=
  match env_DOCKER_TIMEOUT w with
  | Some 0%Z => fallback
  | Some t => t
  | None => fallback
  end.

(** [this.containerConfigs[language]]: the four entries the constructor
    builds.  The orchestrator only passes a validated language. *)
Definition containerConfigs (w : World) (language : string) : option Config :=
  if String.eqb language "python" then
    Some {| image := "python:3.9-alpine";
            cmd := ["python"; "/app/main.py"];
            workingDir := "/app";
            memoryLimit := env_memoryLimit w;
            cpuLimit := env_cpuLimit w;
            timeout := env_timeout w 30000 |}
  else if String.eqb language "javascript" then
    Some {| image := "node:16-alpine";
            cmd := ["node"; "/app/main.js"];
            workingDir := "/app";
            memoryLimit := env_memoryLimit w;
            cpuLimit := env_cpuLimit w;
            timeout := env_timeout w 30000 |}
  else if String.eqb language "cpp" then
    Some {| image := "gcc:9-alpine";
            cmd := ["/bin/sh"; "-c"; "cd /app && g++ -o main main.cpp && ./main"];
            workingDir := "/app";
            memoryLimit := env_memoryLimit w;
            cpuLimit := env_cpuLimit w;
            timeout := env_timeout w 45000 |}
  else if String.eqb language "java" then
    Some {| image := "openjdk:11-alpine";
            cmd := ["/bin/sh"; "-c"; "cd /app && javac Main.java && java Main"];
            workingDir := "/app";
            memoryLimit := env_memoryLimit w;
            cpuLimit := env_cpuLimit w;
            timeout := env_timeout w 45000 |}
  else None.

Definition truthy (s : string) : bool :=
  match s with EmptyString => false | _ => true end.

(** The method has the text of the helper of the same name. *)
Definition parseMemoryLimit (memoryLimit : string) : Z :=
  Helpers.parseMemoryLimit memoryLimit.

(** [Math.floor(config.cpuLimit * 100000)]; the source multiplies in
    binary64, which is exact for the default 0.5. *)
Definition cpuQuota (limit : QArith_base.Q) : Z :=
  Qround.Qfloor (QArith_base.Qmult limit (QArith_base.inject_Z 100000)).

Definition buildContainerOptions (config : Config) (tempDir input : string)
  : ContainerOptions :=
  let binds := [tempDir ++ ":/app:rw"] in
  {| Image := image config;
     Cmd := cmd config;
     WorkingDir := workingDir config;
     AttachStdout := true;
     AttachStderr := true;
     AttachStdin := truthy input;
     OpenStdin := truthy input;
     StdinOnce := truthy input;
     Tty := false;
     NetworkMode := "none";
     NetworkDisabled := None;
     HostConfig_ :=
       {| HostConfig_NetworkMode := None;
          Memory := parseMemoryLimit (memoryLimit config);
          CpuQuota := cpuQuota (cpuLimit config);
          CpuPeriod := 100000;
          PidsLimit := 50;
          Ulimits := [ {| Name := "nofile"; Soft := 64; Hard := 64 |};
                       {| Name := "nproc"; Soft := 32; Hard := 32 |} ];
          Binds := binds;
          ReadonlyRootfs := false;
          SecurityOpt := ["no-new-privileges"];
          CapDrop := ["ALL"];
          AutoRemove := false |} |}.

(** Where the source asks for no network: under a key [NetworkMode] of
    the options themselves, beside [HostConfig]; the two keys of the
    Engine API are absent. *)
Definition network_beside_HostConfig (options : ContainerOptions) : Prop :=
  NetworkMode options = "none" /\
  HostConfig_NetworkMode (HostConfig_ options) = None /\
  NetworkDisabled options = None.

(** The isolation the source asks for in [HostConfig]. *)
Definition locked_down (options : ContainerOptions) : Prop :=
  CapDrop (HostConfig_ options) = ["ALL"] /\
  SecurityOpt (HostConfig_ options) = ["no-new-privileges"] /\
  PidsLimit (HostConfig_ options) = 50%Z /\
  Ulimits (HostConfig_ options)
  = [ {| Name := "nofile"; Soft := 64; Hard := 64 |};
      {| Name := "nproc"; Soft := 32; Hard := 32 |} ].

Record WaitResult := { w_output : string; w_error : string; w_exitCode : Z }.

(** The promise of [waitForContainerCompletion], driven by what the
    world delivers.  [attached]: the [attach] has settled and [wait] is
    pending; [killing]: the timer has fired and its callback awaits
    [container.kill()].  The first settlement of the promise wins, so
    the loop stops there; a world that never settles it leaves the
    caller pending.

    A chunk is a frame of the attached stream.  [demuxStream] calls
    [write] on the two sinks it is given, and the source gives it two
    functions, which have no [write]: the frame reaches neither, and
    [output] and [error] stay as they are. *)
Fixpoint wait_loop (container : string) (events : list WaitEvent)
         (attached killing : bool) (output error : string) : M WaitResult :=
  match events with
  | [] => pending
  | event :: rest =>
      match event with
      | TimerFires =>
          if killing then wait_loop container rest attached killing output error
          else
            log LogWarn "Container execution timeout" ;;
            emit (ContainerKill container) ;;
            wait_loop container rest attached true output error
      | KillSettles answer =>
          if killing then
            (match answer with
             | Some _ => log LogError "Failed to kill timed out container"
             | None => ret tt
             end) ;;
            throw "Execution timeout"
          else wait_loop container rest attached killing output error
      | AttachSettles answer =>
          if attached then wait_loop container rest attached killing output error
          else
            match answer with
            | None =>
                emit (ContainerWait container) ;;
                wait_loop container rest true killing output error
            | Some message => throw message
            end
      | Chunk _ _ => wait_loop container rest attached killing output error
      | WaitSettles answer =>
          if attached then
            match answer with
            | inr statusCode =>
                ret {| w_output := output; w_error := error; w_exitCode := statusCode |}
            | inl message => throw message
            end
          else wait_loop container rest attached killing output error
      end
  end.

(** The events that leave the promise pending: chunks of output, a
    successful attach, the timer. *)
Definition settles_nothing (event : WaitEvent) : bool :=
  match event with
  | TimerFires | AttachSettles None | Chunk _ _ => true
  | _ => false
  end.

Definition waitForContainerCompletion (w : World) (container : string)
           (timeout : Z) (executionId : string) : M WaitResult :=
  emit (ContainerAttach container) ;;
  wait_loop container (schedule w container) false false "" "".

(** [percentage] is the exact quotient, which the source rounds to
    binary64. *)
Record ContainerMemory := {
  used : Z;
  limit_ : Z;
  percentage : QArith_base.Q
}.

Definition or0 (x : option Z) : Z := match x with Some v => v | None => 0%Z end.

Definition nonzero (x : option Z) : bool := negb (or0 x =? 0)%Z.

(** [None]: the property access throws a [TypeError]. *)
Definition calculateCpuPercentage (stats : Stats) : option QArith_base.Q :=
  match cpu_stats stats, precpu_stats stats with
  | Some cpu, Some precpu =>
      match total_usage cpu, total_usage precpu with
      | Some total, Some pretotal =>
          let cpuDelta := (total - pretotal)%Z in
          let systemDelta := (system_cpu_usage cpu - system_cpu_usage precpu)%Z in
          if ((systemDelta >? 0) && (cpuDelta >? 0))%Z then
            Some (QArith_base.Qmult
                    (QArith_base.Qmult
                       (QArith_base.Qdiv (QArith_base.inject_Z cpuDelta)
                                         (QArith_base.inject_Z systemDelta))
                       (QArith_base.inject_Z (online_cpus cpu)))
                    (QArith_base.inject_Z 100))
          else Some (QArith_base.inject_Z 0)
      | _, _ => None
      end
  | _, _ => Some (QArith_base.inject_Z 0)
  end.

Definition no_stats : ContainerMemory :=
  {| used := 0; limit_ := 0; percentage := QArith_base.inject_Z 0 |}.

(** The [memoryUsage] part of the answer; the [cpuUsage] part only
    matters through the error it can raise. *)
Definition getContainerStats (w : World) (container : string) : M ContainerMemory :=
  catch
    (stats <- request_for (ContainerStats container) (stats w container) ;;
     match memory_stats stats, calculateCpuPercentage stats with
     | Some memory, Some _ =>
         ret {| used := or0 (usage memory);
                limit_ := or0 (limit memory);
                percentage :=
                  if nonzero (usage memory) && nonzero (limit memory)
                  then QArith_base.Qmult
                         (QArith_base.Qdiv (QArith_base.inject_Z (or0 (usage memory)))
                                           (QArith_base.inject_Z (or0 (limit memory))))
                         (QArith_base.inject_Z 100)
                  else QArith_base.inject_Z 0 |}
     | _, _ => throw "TypeError"
     end)
    (fun _ => log LogWarn "Failed to get container stats" ;; ret no_stats)
    ret.

Definition cleanupContainer (w : World) (container executionId : string) : M unit :=
  catch
    (activeContainers_delete executionId ;;
     running <- request_for (ContainerInspect container) (inspect w container) ;;
     (if running : bool
      then request (ContainerStop container 5) (stop w container)
      else ret tt) ;;
     request (ContainerRemove container) (remove w container) ;;
     log LogInfo "Container cleaned up successfully")
    (fun _ => log LogError "Failed to cleanup container")
    ret.

Definition getErrorStatus (message : string) : EXECUTION_STATUS :=
  let message := toLowerCase message in
  if includes "timeout" message then TIMEOUT
  else if includes "memory" message then MEMORY_LIMIT_EXCEEDED
  else if includes "compilation" message || includes "compile" message
  then COMPILATION_ERROR
  else ERROR.

Definition formatError (message : string) : string :=
  if includes "timeout" message then
    "Code execution timed out. Please optimize your code or reduce complexity."
  else if includes "memory" message then
    "Memory limit exceeded. Please optimize your code to use less memory."
  else "Execution error: " ++ message.

(** [memoryUsage] of a result: container statistics on the normal path,
    the memory of the host process on the error path. *)
Inductive MemoryUsage :=
| OfContainer (m : ContainerMemory)
| OfProcess (m : ProcessMemory).

(** The bytes of container memory a result reports, if it reports any. *)
Definition memory_used (m : MemoryUsage) : option Z :=
  match m with
  | OfContainer c => Some (used c)
  | OfProcess _ => None
  end.

Record ContainerInfo := {
  containerId : string;
  imageName : string;
  info_memoryLimit : string;
  info_cpuLimit : QArith_base.Q
}.

Record ExecutionResult := {
  status : EXECUTION_STATUS;
  output : string;
  error : string;
  executionTime : Z;
  exitCode : Z;
  memoryUsage : MemoryUsage;
  containerInfo : option ContainerInfo
}.

(** The [catch] block of [executeCode], with the values [container] and
    [tempDir] have when the error is thrown. *)
Definition onError (w : World) (executionId : string) (startTime : Z)
           (container tempDir : option string) (message : string)
  : M ExecutionResult :=
  log LogError "Docker execution failed" ;;
  (match container with
   | Some c => cleanupContainer w c executionId
   | None => ret tt
   end) ;;
  (match tempDir with
   | Some dir => Helpers.cleanupTempDirectory w dir
   | None => ret tt
   end) ;;
  endTime <- Date_now w ;;
  ret {| status := getErrorStatus message;
         output := "";
         error := formatError message;
         executionTime := (endTime - startTime)%Z;
         exitCode := (-1)%Z;
         memoryUsage := OfProcess (Helpers.getMemoryUsage w);
         containerInfo := None |}.

Definition executeCode (w : World) (language code input executionId : string)
  : M ExecutionResult :=
  startTime <- Date_now w ;;
  match containerConfigs w language with
  | None => onError w executionId startTime None None ("Unsupported language: " ++ language)
  | Some config =>
      catch (Helpers.createTempDirectory w executionId)
            (onError w executionId startTime None None)
      (fun tempDir =>
      catch
        (let fileName := Helpers.generateFileName language executionId in
         let codePath := Helpers.path_join tempDir fileName in
         let inputPath := Helpers.path_join tempDir "input.txt" in
         Helpers.writeCodeToFile w code codePath ;;
         (if truthy input then Helpers.writeInputToFile w input inputPath else ret tt) ;;
         let containerOptions := buildContainerOptions config tempDir input in
         log LogInfo "Creating container for code execution" ;;
         request_for (CreateContainer containerOptions)
                     (createContainer w containerOptions))
        (onError w executionId startTime None (Some tempDir))
      (fun container =>
      catch
        (activeContainers_set executionId container ;;
         request (ContainerStart container) (start w container) ;;
         result <- waitForContainerCompletion w container (timeout config) executionId ;;
         endTime <- Date_now w ;;
         let executionTime := (endTime - startTime)%Z in
         stats <- getContainerStats w container ;;
         cleanupContainer w container executionId ;;
         Helpers.cleanupTempDirectory w tempDir ;;
         ret {| status := if (w_exitCode result =? 0)%Z then SUCCESS else RUNTIME_ERROR;
                output := Helpers.sanitizeOutput (w_output result);
                error := Helpers.sanitizeOutput (w_error result);
                executionTime := executionTime;
                exitCode := w_exitCode result;
                memoryUsage := OfContainer stats;
                containerInfo :=
                  Some {| containerId := container;
                          imageName := image config;
                          info_memoryLimit := memoryLimit config;
                          info_cpuLimit := cpuLimit config |} |})
        (onError w executionId startTime (Some container) (Some tempDir))
        ret))
  end.

(** [this.activeContainers.get(executionId)] *)
Definition activeContainers_get (executionId : string) (st : State) : option string :=
  option_map snd (find (fun e => String.eqb (fst e) executionId) (activeContainers st)).

Definition getActiveContainerCount : M Z :=
  fun st => (Val (Z.of_nat (List.length (activeContainers st))), st).

(** [kill] is the answer of the daemon to [container.kill()]. *)
Definition killContainer (w : World) (kill : string -> option string)
           (executionId : string) : M bool :=
  fun st =>
    match activeContainers_get executionId st with
    | Some container =>
        catch
          (request (ContainerKill container) (kill container) ;;
           cleanupContainer w container executionId ;;
           ret true)
          (fun _ => log LogError "Failed to kill container" ;; ret false)
          ret st
    | None => ret false st
    end.


End DockerService.

(* ===================================================================== *)
(** * codeExecutionService.js                                             *)
(* ===================================================================== *)

Module CodeExecutionService.
Import Constants JsString Effects.
Local Open Scope js_scope.

Record RequestData := { language : string; code : string; input : string }.

Record SessionInfo := { ipAddress : string; userAgent : string; sessionId : string }.

Record UserInfo := { _id : string; role : string; dailyExecutionCount : Z }.

(** [userSchema.methods.hasExceededDailyLimit] *)
Definition hasExceededDailyLimit (user : UserInfo) : bool :=
  let dailyLimit := if String.eqb (role user) "admin" then 1000%Z else 100%Z in
  (dailyExecutionCount user >=? dailyLimit)%Z.

(** What [executeCode] returns; the error response has neither
    [language] nor [securityReport]. *)
Record Response := {
  success : bool;
  executionId : string;
  r_language : option string;
  status : EXECUTION_STATUS;
  output : string;
  error : string;
  executionTime : Z;
  memoryUsage : DockerService.MemoryUsage;
  exitCode : Z;
  timestamp : Z;
  securityReport : option SecurityService.SecurityReport
}.

Definition createErrorResponse (w : World) (executionId : string)
           (status : EXECUTION_STATUS) (errorMessage : string) (startTime : Z)
  : M Response :=
  endTime <- Date_now w ;;
  let executionTime := (endTime - startTime)%Z in
  timestamp <- Date_now w ;;
  ret {| success := false;
         executionId := executionId;
         r_language := None;
         status := status;
         output := "";
         error := errorMessage;
         executionTime := executionTime;
         memoryUsage := DockerService.OfProcess (Helpers.getMemoryUsage w);
         exitCode := (-1)%Z;
         timestamp := timestamp;
         securityReport := None |}.

Definition createExecutionRecord (w : World) : M unit :=
  catch (request (Persist "CodeExecution.save") (persist w "CodeExecution.save"))
        (fun message => log LogError "Failed to create execution record" ;; throw message)
        ret.

Definition updateStatistics (w : World) (userInfo : option UserInfo) : M unit :=
  catch
    ((match userInfo with
      | Some _ => request (Persist "User.updateExecutionCount")
                          (persist w "User.updateExecutionCount")
      | None => ret tt
      end) ;;
     request (Persist "Session.incrementExecutionCount")
             (persist w "Session.incrementExecutionCount") ;;
     request (Persist "Session.addRecentExecution")
             (persist w "Session.addRecentExecution"))
    (fun _ => log LogError "Failed to update statistics")
    ret.

Definition exceeded (userInfo : option UserInfo) : bool :=
  match userInfo with
  | Some user => hasExceededDailyLimit user
  | None => false
  end.

(** [sessionInfo.property].  The controller hands over [req.session],
    which is undefined when [manageSession] has failed: reading a
    property of it throws a TypeError. *)
Definition read_session (w : World) (sessionInfo : option SessionInfo) (property : string)
  : M SessionInfo :=
  match sessionInfo with
  | Some session => ret session
  | None => throw (typeError w property)
  end.

(** [sessionInfo] is [None] for [undefined].  The object handed to the
    logger is built before the logger is called, so a read of
    [sessionInfo] that throws comes before the log entry. *)
Definition executeCode (w : World) (requestData : RequestData)
           (sessionInfo : option SessionInfo) (userInfo : option UserInfo) : M Response :=
  executionId <- Helpers.generateExecutionId w ;;
  startTime <- Date_now w ;;
  catch
    (let language := language requestData in
     let code := code requestData in
     let input := input requestData in
     if negb (Helpers.validateLanguage language) then
       throw ("Unsupported language: " ++ language)
     else
       codeValidation <- SecurityService.validateCode code language ;;
       if negb (SecurityService.isValid codeValidation) then
         read_session w sessionInfo "ipAddress" ;;
         log LogWarn "Code security validation failed" ;;
         createErrorResponse w executionId ERROR
           ("Code validation failed: " ++ join ", " (SecurityService.errors codeValidation))
           startTime
       else
         let inputValidation := SecurityService.validateInput input in
         if negb (SecurityService.isValid inputValidation) then
           createErrorResponse w executionId ERROR
             ("Input validation failed: "
                ++ join ", " (SecurityService.errors inputValidation))
             startTime
         else if exceeded userInfo then
           createErrorResponse w executionId ERROR "Daily execution limit exceeded" startTime
         else
           let sanitizedCode := SecurityService.sanitizeCode code in
           let sanitizedInput := SecurityService.sanitizeInput input in
           session <- read_session w sessionInfo "sessionId" ;;
           log LogInfo "Starting code execution" ;;
           executionResult <-
             DockerService.executeCode w language sanitizedCode sanitizedInput executionId ;;
           endTime <- Date_now w ;;
           createExecutionRecord w ;;
           updateStatistics w userInfo ;;
           securityReport <-
             SecurityService.generateSecurityReport w sanitizedCode language
               (ipAddress session) ;;
           log LogInfo "Code execution completed" ;;
           timestamp <- Date_now w ;;
           ret {| success := true;
                  executionId := executionId;
                  r_language := Some language;
                  status := DockerService.status executionResult;
                  output := DockerService.output executionResult;
                  error := DockerService.error executionResult;
                  executionTime := DockerService.executionTime executionResult;
                  memoryUsage := DockerService.memoryUsage executionResult;
                  exitCode := DockerService.exitCode executionResult;
                  timestamp := timestamp;
                  securityReport :=
                    if SecurityService.isSecure securityReport then None
                    else Some securityReport |})
    (fun message =>
       log LogError "Code execution service error" ;;
       createErrorResponse w executionId ERROR message startTime)
    ret.

Record KillResult := { k_success : bool; k_message : string }.

(** [findOne] is the answer of [CodeExecution.findOne({executionId,
    userId})]: an error, or whether a document was found; [kill] the
    answer of the daemon to [container.kill()]; [userId] is [None] for
    [null] and [undefined]. *)
Definition killExecution (w : World) (kill : string -> option string)
           (findOne : string + bool) (executionId : string) (userId : option string)
  : M KillResult :=
  catch
    ((if match userId with Some id => DockerService.truthy id | None => false end then
        execution <- request_for (Persist "CodeExecution.findOne") findOne ;;
        if execution : bool then ret tt
        else throw "Execution not found or unauthorized"
      else ret tt) ;;
     killed <- DockerService.killContainer w kill executionId ;;
     if killed : bool then
       log LogInfo "Execution killed" ;;
       ret {| k_success := true; k_message := "Execution terminated" |}
     else
       ret {| k_success := false;
              k_message := "Execution not found or already completed" |})
    (fun message => log LogError "Failed to kill execution" ;; throw message)
    ret.

(** What every response of [createErrorResponse] looks like. *)
Definition is_error_response (response : Response) : Prop :=
  success response = false /\
  status response = Constants.ERROR /\
  output response = "" /\
  exitCode response = (-1)%Z.

End CodeExecutionService.

(* ===================================================================== *)
(** * models/User.js, models/Session.js                                   *)
(* ===================================================================== *)

Module User.
Import CodeExecutionService.

(** The counters of a user document; [lastExecutionDate] in
    milliseconds. *)
Record Document := {
  info : UserInfo;
  executionCount : Z;
  lastExecutionDate : Z
}.

(** [userSchema.methods.updateExecutionCount], the update of the
    document; [toDateString] renders a time as its calendar day in the
    time zone of the server, [today] is [new Date()]. *)
Definition updateExecutionCount (toDateString : Z -> string) (today : Z)
           (user : Document) : Document :=
  let lastExecution := lastExecutionDate user in
  let daily :=
    if negb (String.eqb (toDateString today) (toDateString lastExecution))
    then 0%Z else dailyExecutionCount (info user) in
  {| info := {| _id := _id (info user);
                role := role (info user);
                dailyExecutionCount := (daily + 1)%Z |};
     executionCount := (executionCount user + 1)%Z;
     lastExecutionDate := today |}.

End User.

Module Session.

Record RecentExecution := { executionId : string; language : string; timestamp : Z }.

(** [sessionSchema.methods.addRecentExecution], the update of
    [sessionData.recentExecutions]. *)
Definition addRecentExecution (now : Z) (executionId language : string)
           (recentExecutions : list RecentExecution) : list RecentExecution :=
  let recentExecutions :=
    {| executionId := executionId; language := language; timestamp := now |}
      :: recentExecutions in
  if 10 <? List.length recentExecutions then firstn 10 recentExecutions
  else recentExecutions.

Record SavedCode := { s_language : string; s_code : string; savedAt : Z }.

(** [sessionSchema.methods.saveCode], the update of
    [sessionData.savedCode]. *)
Definition saveCode (now : Z) (language code : string) (savedCode : list SavedCode)
  : list SavedCode :=
  let savedCode :=
    filter (fun item => negb (String.eqb (s_language item) language)) savedCode in
  let savedCode :=
    (savedCode ++ [{| s_language := language; s_code := code; savedAt := now |}])%list in
  if 5 <? List.length savedCode then firstn 5 savedCode else savedCode.

End Session.

(* ===================================================================== *)
(** * controllers/codeController.js                                       *)
(* ===================================================================== *)

Module CodeController.
Import Effects.
Local Open Scope js_scope.

(** What [executeCode] sends: the status code and, unless it answers
    500, the result of the service. *)
Record HttpResponse := {
  statusCode : Z;
  result : option CodeExecutionService.Response;
  totalProcessingTime : Z
}.

(** [executeCode(req, res)] for a request whose body holds a [code]
    string; [sessionInfo] is [req.session], [None] when it is
    undefined. *)
Definition executeCode (w : World) (body : CodeExecutionService.RequestData)
           (sessionInfo : option CodeExecutionService.SessionInfo)
           (userInfo : option CodeExecutionService.UserInfo) : M HttpResponse :=
  startTime <- Date_now w ;;
  catch
    (log LogInfo "Code execution request received" ;;
     result <- CodeExecutionService.executeCode w body sessionInfo userInfo ;;
     endTime <- Date_now w ;;
     let totalTime := (endTime - startTime)%Z in
     log LogInfo "Code execution completed" ;;
     let statusCode := if CodeExecutionService.success result then 200%Z else 400%Z in
     ret {| statusCode := statusCode; result := Some result;
            totalProcessingTime := totalTime |})
    (fun _ =>
       endTime <- Date_now w ;;
       let totalTime := (endTime - startTime)%Z in
       log LogError "Code execution controller error" ;;
       ret {| statusCode := 500; result := None; totalProcessingTime := totalTime |})
    ret.

(** The [templates] object of [getCodeTemplates]: a line feed and a
    double quote of the source texts are written [LF_] and [DQ]. *)
Definition LF_ : string := JsString.str1 JsString.LF.
Definition DQ : string := JsString.str1 (ascii_of_nat 34).

Definition python_hello_world : string :=
  "print(" ++ DQ ++ "Hello, World!" ++ DQ ++ ")".

Definition python_input_output : string :=
  "name = input(" ++ DQ ++ "Enter your name: " ++ DQ ++ ")" ++ LF_ ++ "print(f" ++
    DQ ++ "Hello, {name}!" ++ DQ ++ ")".

Definition python_fibonacci : string :=
  "def fibonacci(n):" ++ LF_ ++ "    if n <= 1:" ++ LF_ ++ "        return n" ++ LF_ ++
    "    return fibonacci(n-1) + fibonacci(n-2)" ++ LF_ ++ LF_ ++ "print(fibonacci(10))".

Definition javascript_hello_world : string :=
  "console.log(" ++ DQ ++ "Hello, World!" ++ DQ ++ ");".

Definition javascript_input_output : string :=
  "const readline = require(" ++ DQ ++ "readline" ++ DQ ++ ");" ++ LF_ ++
    "const rl = readline.createInterface({" ++ LF_ ++ "    input: process.stdin," ++
    LF_ ++ "    output: process.stdout" ++ LF_ ++ "});" ++ LF_ ++ LF_ ++
    "rl.question(" ++ DQ ++ "Enter your name: " ++ DQ ++ ", (name) => {" ++ LF_ ++
    "    console.log(`Hello, ${name}!`);" ++ LF_ ++ "    rl.close();" ++ LF_ ++ "});".

Definition javascript_fibonacci : string :=
  "function fibonacci(n) {" ++ LF_ ++ "    if (n <= 1) return n;" ++ LF_ ++
    "    return fibonacci(n-1) + fibonacci(n-2);" ++ LF_ ++ "}" ++ LF_ ++ LF_ ++
    "console.log(fibonacci(10));".

Definition cpp_hello_world : string :=
  "#include <iostream>" ++ LF_ ++ "using namespace std;" ++ LF_ ++ LF_ ++
    "int main() {" ++ LF_ ++ "    cout << " ++ DQ ++ "Hello, World!" ++ DQ ++
    " << endl;" ++ LF_ ++ "    return 0;" ++ LF_ ++ "}".

Definition cpp_input_output : string :=
  "#include <iostream>" ++ LF_ ++ "#include <string>" ++ LF_ ++
    "using namespace std;" ++ LF_ ++ LF_ ++ "int main() {" ++ LF_ ++
    "    string name;" ++ LF_ ++ "    cout << " ++ DQ ++ "Enter your name: " ++ DQ ++
    ";" ++ LF_ ++ "    getline(cin, name);" ++ LF_ ++ "    cout << " ++ DQ ++
    "Hello, " ++ DQ ++ " << name << " ++ DQ ++ "!" ++ DQ ++ " << endl;" ++ LF_ ++
    "    return 0;" ++ LF_ ++ "}".

Definition cpp_fibonacci : string :=
  "#include <iostream>" ++ LF_ ++ "using namespace std;" ++ LF_ ++ LF_ ++
    "int fibonacci(int n) {" ++ LF_ ++ "    if (n <= 1) return n;" ++ LF_ ++
    "    return fibonacci(n-1) + fibonacci(n-2);" ++ LF_ ++ "}" ++ LF_ ++ LF_ ++
    "int main() {" ++ LF_ ++ "    cout << fibonacci(10) << endl;" ++ LF_ ++
    "    return 0;" ++ LF_ ++ "}".

Definition java_hello_world : string :=
  "public class Main {" ++ LF_ ++ "    public static void main(String[] args) {" ++
    LF_ ++ "        System.out.println(" ++ DQ ++ "Hello, World!" ++ DQ ++ ");" ++
    LF_ ++ "    }" ++ LF_ ++ "}".

Definition java_input_output : string :=
  "import java.util.Scanner;" ++ LF_ ++ LF_ ++ "public class Main {" ++ LF_ ++
    "    public static void main(String[] args) {" ++ LF_ ++
    "        Scanner scanner = new Scanner(System.in);" ++ LF_ ++
    "        System.out.print(" ++ DQ ++ "Enter your name: " ++ DQ ++ ");" ++ LF_ ++
    "        String name = scanner.nextLine();" ++ LF_ ++
    "        System.out.println(" ++ DQ ++ "Hello, " ++ DQ ++ " + name + " ++ DQ ++
    "!" ++ DQ ++ ");" ++ LF_ ++ "        scanner.close();" ++ LF_ ++ "    }" ++ LF_ ++
    "}".

Definition java_fibonacci : string :=
  "public class Main {" ++ LF_ ++ "    public static int fibonacci(int n) {" ++ LF_ ++
    "        if (n <= 1) return n;" ++ LF_ ++
    "        return fibonacci(n-1) + fibonacci(n-2);" ++ LF_ ++ "    }" ++ LF_ ++
    "    " ++ LF_ ++ "    public static void main(String[] args) {" ++ LF_ ++
    "        System.out.println(fibonacci(10));" ++ LF_ ++ "    }" ++ LF_ ++ "}".

(** [templates[language] || {}], as the entries of the object in the
    order of the source; [getCodeTemplates] answers 400 before the
    lookup for a language outside [SUPPORTED_LANGUAGES]. *)
Definition templates (language : string) : list (string * string) :=
  if String.eqb language "python" then
    [("hello_world", python_hello_world); ("input_output", python_input_output); ("fibonacci", python_fibonacci)]
  else if String.eqb language "javascript" then
    [("hello_world", javascript_hello_world); ("input_output", javascript_input_output); ("fibonacci", javascript_fibonacci)]
  else if String.eqb language "cpp" then
    [("hello_world", cpp_hello_world); ("input_output", cpp_input_output); ("fibonacci", cpp_fibonacci)]
  else if String.eqb language "java" then
    [("hello_world", java_hello_world); ("input_output", java_input_output); ("fibonacci", java_fibonacci)]
  else [].

End CodeController.

(* ===================================================================== *)
(** * Sample worlds and requests                                          *)
(* ===================================================================== *)

Module Scenarios.
Import Effects Docker.

Definition MB128 : Z := 134217728.

Definition stats_of (used : Z) : Stats :=
  {| memory_stats := Some {| usage := Some used; limit := Some MB128 |};
     cpu_stats := None;
     precpu_stats := None |}.

(** A world where every request succeeds, the container is [c1], the
    supervisor sees the given events while it waits, and the stats
    query reports [used] bytes. *)
Definition world (events : list WaitEvent) (used : Z) : World :=
  {| clock := fun n => (1700000000000 + Z.of_nat n)%Z;
     randomHex := "00112233aabbccdd";
     sha256Hex := fun _ => "9f86d081884c7d659a2feaa0c55ad015";
     tmpdir := "/tmp";
     memoryUsage := {| rss := 50; heapTotal := 20; heapUsed := 10; external := 1 |};
     env_MAX_MEMORY := None;
     env_MAX_CPU := None;
     env_DOCKER_TIMEOUT := None;
     mkdir := fun _ => None;
     writeFile := fun _ _ => None;
     rmdir := fun _ => None;
     createContainer := fun _ => inr "c1";
     start := fun _ => None;
     schedule := fun _ => events;
     stats := fun _ => inr (stats_of used);
     inspect := fun _ => inr false;
     stop := fun _ => None;
     remove := fun _ => None;
     persist := fun _ => None;
     cwd := "/srv";
     spawn := fun _ _ => SpawnClose "" "" (Some 0%Z);
     heapSamples := [];
     typeError := fun property =>
                    "Cannot read properties of undefined (reading '" ++ property ++ "')" |}.

(** The configuration of python when the environment sets nothing. *)
Definition python_config : DockerService.Config :=
  {| DockerService.image := "python:3.9-alpine";
     DockerService.cmd := ["python"; "/app/main.py"];
     DockerService.workingDir := "/app";
     DockerService.memoryLimit := "128m";
     DockerService.cpuLimit := QArith_base.Qmake 1 2;
     DockerService.timeout := 30000 |}.

(** [req.session] of a request for which [manageSession] succeeded. *)
Definition session : option CodeExecutionService.SessionInfo :=
  Some {| CodeExecutionService.ipAddress := "203.0.113.7";
          CodeExecutionService.userAgent := "curl";
          CodeExecutionService.sessionId := "s1" |}.

Definition request (language code input : string) : CodeExecutionService.RequestData :=
  {| CodeExecutionService.language := language;
     CodeExecutionService.code := code;
     CodeExecutionService.input := input |}.

(** The container writes [stderr] to its error stream and exits by
    itself with the given code. *)
Definition exits (stderr : string) (statusCode : Z) : list WaitEvent :=
  [AttachSettles None; Chunk Stderr stderr; WaitSettles (inr statusCode)].

(** The deadline passes while the container runs; the killed container
    makes the pending [wait] settle before the [kill] request does. *)
Definition deadline_wait_first : list WaitEvent :=
  [AttachSettles None; TimerFires; WaitSettles (inr 137%Z); KillSettles None].

(** The same, with the [kill] request settling first. *)
Definition deadline_kill_first : list WaitEvent :=
  [AttachSettles None; TimerFires; KillSettles None; WaitSettles (inr 137%Z)].


Definition java_Solution : string :=
  "public class Solution { public static void main(String[] a) { System.out.println(1); } }".

(** The world [w] with a store that refuses every request. *)
Definition failing_store (w : World) : World :=
  {| clock := clock w;
     randomHex := randomHex w;
     sha256Hex := sha256Hex w;
     tmpdir := tmpdir w;
     memoryUsage := memoryUsage w;
     env_MAX_MEMORY := env_MAX_MEMORY w;
     env_MAX_CPU := env_MAX_CPU w;
     env_DOCKER_TIMEOUT := env_DOCKER_TIMEOUT w;
     mkdir := mkdir w;
     writeFile := writeFile w;
     rmdir := rmdir w;
     createContainer := createContainer w;
     start := start w;
     schedule := schedule w;
     stats := stats w;
     inspect := inspect w;
     stop := stop w;
     remove := remove w;
     persist := fun _ => Some "MongoNetworkError";
     cwd := cwd w;
     spawn := spawn w;
     heapSamples := heapSamples w;
     typeError := typeError w |}.

(** A user who has used the 100 executions of the day. *)
Definition regular : CodeExecutionService.UserInfo :=
  {| CodeExecutionService._id := "u1";
     CodeExecutionService.role := "user";
     CodeExecutionService.dailyExecutionCount := 100 |}.

(** After a rejection the pattern [eval\s*\(] is at index 5. *)
Definition after_a_rejection : State :=
  snd (SecurityService.validateCode "eval(1)" "java" initial).

(** The world [w] with a [javac] that rejects the source. *)
Definition javac_rejects (w : World) : World :=
  {| clock := clock w;
     randomHex := randomHex w;
     sha256Hex := sha256Hex w;
     tmpdir := tmpdir w;
     memoryUsage := memoryUsage w;
     env_MAX_MEMORY := env_MAX_MEMORY w;
     env_MAX_CPU := env_MAX_CPU w;
     env_DOCKER_TIMEOUT := env_DOCKER_TIMEOUT w;
     mkdir := mkdir w;
     writeFile := writeFile w;
     rmdir := rmdir w;
     createContainer := createContainer w;
     start := start w;
     schedule := schedule w;
     stats := stats w;
     inspect := inspect w;
     stop := stop w;
     remove := remove w;
     persist := persist w;
     cwd := cwd w;
     spawn :=
       fun _ _ =>
         SpawnClose "" "Solution.java:1: error: reached end of file while parsing"
                            (Some 1%Z);
     heapSamples := heapSamples w;
     typeError := typeError w |}.

End Scenarios.

(* ===================================================================== *)
(** * Runs and their traces                                               *)
(* ===================================================================== *)

Section TraceLemmas.
Import Effects.

Lemma append_trace_nil st : append_trace st [] = st.
Proof. destruct st; unfold append_trace; simpl; now rewrite app_nil_r. Qed.

Lemma append_trace_app st xs ys :
  append_trace (append_trace st xs) ys = append_trace st (xs ++ ys).
Proof. unfold append_trace; simpl; now rewrite app_assoc. Qed.

Lemma events_of_exact {A} (c : M A) st events :
  trace (snd (c st)) = (trace st ++ events)%list -> events_of c st = events.
Proof.
  intros H. unfold events_of. rewrite H.
  rewrite skipn_app, skipn_all, Nat.sub_diag. reflexivity.
Qed.

Lemma emits_events_of {A} (P : Event -> Prop) (c : M A) st e :
  emits P c -> In e (events_of c st) -> P e.
Proof.
  intros H Hin. destruct (H st) as (events & Ht & Hall).
  rewrite (events_of_exact _ _ _ Ht) in Hin.
  rewrite Forall_forall in Hall. auto.
Qed.

Lemma emits_weaken {A} (P Q : Event -> Prop) (c : M A) :
  (forall e, P e -> Q e) -> emits P c -> emits Q c.
Proof.
  intros HPQ H st. destruct (H st) as (events & Ht & Hall).
  exists events. split; [assumption|]. eapply Forall_impl; eauto.
Qed.

Lemma emits_silent {A} (P : Event -> Prop) (c : M A) :
  (forall st, trace (snd (c st)) = trace st) -> emits P c.
Proof.
  intros H st. exists []. rewrite app_nil_r. split; [apply H | constructor].
Qed.

Lemma emits_ret {A} P (a : A) : emits P (ret a).
Proof. now apply emits_silent. Qed.

Lemma emits_throw {A} P m : emits P (@throw A m).
Proof. now apply emits_silent. Qed.

Lemma emits_pending {A} P : emits P (@pending A).
Proof. now apply emits_silent. Qed.

Lemma emits_Date_now P w : emits P (Date_now w).
Proof. now apply emits_silent. Qed.

Lemma emits_get_lastIndex P : emits P get_lastIndex.
Proof. now apply emits_silent. Qed.

Lemma emits_set_lastIndex P li : emits P (set_lastIndex li).
Proof. now apply emits_silent. Qed.

Lemma emits_activeContainers_set P i c : emits P (activeContainers_set i c).
Proof. now apply emits_silent. Qed.

Lemma emits_activeContainers_delete P i : emits P (activeContainers_delete i).
Proof. now apply emits_silent. Qed.

Lemma emits_emit (P : Event -> Prop) e : P e -> emits P (emit e).
Proof. intros H st. exists [e]. split; [reflexivity | auto]. Qed.

Lemma emits_log (P : Event -> Prop) l m : P (Log l m) -> emits P (log l m).
Proof. apply emits_emit. Qed.

Lemma emits_request (P : Event -> Prop) e answer : P e -> emits P (request e answer).
Proof.
  intros H st. exists [e]. unfold request. simpl.
  destruct answer; simpl; auto.
Qed.

Lemma emits_request_for {A} (P : Event -> Prop) e (answer : string + A) :
  P e -> emits P (request_for e answer).
Proof.
  intros H st. exists [e]. unfold request_for. simpl.
  destruct answer; simpl; auto.
Qed.

Lemma emits_bind {A B} (P : Event -> Prop) (c : M A) (f : A -> M B) :
  emits P c -> (forall a, emits P (f a)) -> emits P (bind c f).
Proof.
  intros Hc Hf st. unfold bind.
  destruct (Hc st) as (ev1 & Ht1 & Hall1).
  destruct (c st) as [[a | m |] st1]; simpl in *.
  - destruct (Hf a st1) as (ev2 & Ht2 & Hall2).
    exists (ev1 ++ ev2)%list. rewrite Ht2, Ht1, app_assoc.
    split; [reflexivity | now apply Forall_app].
  - exists ev1. auto.
  - exists ev1. auto.
Qed.

Lemma emits_catch {A B} (P : Event -> Prop) (c : M A) (h : string -> M B)
      (k : A -> M B) :
  emits P c -> (forall m, emits P (h m)) -> (forall a, emits P (k a)) ->
  emits P (catch c h k).
Proof.
  intros Hc Hh Hk st. unfold catch.
  destruct (Hc st) as (ev1 & Ht1 & Hall1).
  destruct (c st) as [[a | m |] st1]; simpl in *.
  - destruct (Hk a st1) as (ev2 & Ht2 & Hall2).
    exists (ev1 ++ ev2)%list. rewrite Ht2, Ht1, app_assoc.
    split; [reflexivity | now apply Forall_app].
  - destruct (Hh m st1) as (ev2 & Ht2 & Hall2).
    exists (ev1 ++ ev2)%list. rewrite Ht2, Ht1, app_assoc.
    split; [reflexivity | now apply Forall_app].
  - exists ev1. auto.
Qed.

End TraceLemmas.

(** One step of a footprint proof: peel the outermost construct. *)
Ltac footprint_step :=
  first
    [ apply emits_ret | apply emits_throw | apply emits_pending
    | apply emits_Date_now | apply emits_get_lastIndex | apply emits_set_lastIndex
    | apply emits_activeContainers_set | apply emits_activeContainers_delete
    | apply emits_bind; [ | intros ? ]
    | apply emits_catch; [ | intros ? | intros ? ]
    | apply emits_log | apply emits_emit | apply emits_request | apply emits_request_for
    | match goal with
      | |- Effects.emits _ (if ?b then _ else _) => destruct b
      | |- Effects.emits _ (match ?x with _ => _ end) => destruct x
      | |- Effects.emits _ (let '(_, _) := ?x in _) => destruct x
      end ].

Ltac footprint := repeat footprint_step.

(* ===================================================================== *)
(** * What each service does to the world                                 *)
(* ===================================================================== *)

Section Footprint.
Import Effects.

Variable P : Event -> Prop.
Hypothesis P_routine : forall e, routine e = true -> P e.

Ltac routine := footprint; try (apply P_routine; reflexivity).

Lemma createTempDirectory_footprint w executionId :
  emits P (Helpers.createTempDirectory w executionId).
Proof. unfold Helpers.createTempDirectory. routine. Qed.

Lemma cleanupTempDirectory_footprint w tempDir :
  emits P (Helpers.cleanupTempDirectory w tempDir).
Proof. unfold Helpers.cleanupTempDirectory. routine. Qed.

Lemma wait_loop_footprint container events attached killing output error :
  emits P (DockerService.wait_loop container events attached killing output error).
Proof.
  revert attached killing output error.
  induction events as [|event rest IH]; intros; simpl; [routine|].
  destruct event; routine; apply IH.
Qed.

Lemma waitForContainerCompletion_footprint w container timeout executionId :
  emits P (DockerService.waitForContainerCompletion w container timeout executionId).
Proof.
  unfold DockerService.waitForContainerCompletion. routine.
  apply wait_loop_footprint.
Qed.

Lemma getContainerStats_footprint w container :
  emits P (DockerService.getContainerStats w container).
Proof. unfold DockerService.getContainerStats. routine. Qed.

Lemma cleanupContainer_footprint w container executionId :
  emits P (DockerService.cleanupContainer w container executionId).
Proof. unfold DockerService.cleanupContainer. routine. Qed.

Lemma onError_footprint w executionId startTime container tempDir message :
  emits P (DockerService.onError w executionId startTime container tempDir message).
Proof.
  unfold DockerService.onError.
  routine; first [apply cleanupContainer_footprint | apply cleanupTempDirectory_footprint].
Qed.

Lemma docker_executeCode_footprint w language code input executionId :
  (forall dir, P (WriteFile (Helpers.path_join dir
                               (Helpers.generateFileName language executionId)) code)) ->
  (forall dir, P (WriteFile (Helpers.path_join dir "input.txt") input)) ->
  (forall config dir,
      P (CreateContainer (DockerService.buildContainerOptions config dir input))) ->
  emits P (DockerService.executeCode w language code input executionId).
Proof.
  intros Hcode Hinput Hcreate.
  unfold DockerService.executeCode, Helpers.writeCodeToFile, Helpers.writeInputToFile.
  routine;
    try apply onError_footprint;
    try apply createTempDirectory_footprint;
    try apply waitForContainerCompletion_footprint;
    try apply getContainerStats_footprint;
    try apply cleanupContainer_footprint;
    try apply cleanupTempDirectory_footprint;
    try apply wait_loop_footprint;
    auto.
Qed.

Lemma log_each_footprint level message n :
  emits P (SecurityService.log_each level message n).
Proof. induction n; simpl; routine. apply IHn. Qed.

Lemma validateCode_footprint code language :
  emits P (SecurityService.validateCode code language).
Proof.
  unfold SecurityService.validateCode. routine; apply log_each_footprint.
Qed.

Lemma generateSecurityReport_footprint w code language ip :
  emits P (SecurityService.generateSecurityReport w code language ip).
Proof.
  unfold SecurityService.generateSecurityReport. routine.
  apply validateCode_footprint.
Qed.

Lemma createErrorResponse_footprint w executionId status message startTime :
  emits P (CodeExecutionService.createErrorResponse w executionId status message startTime).
Proof. unfold CodeExecutionService.createErrorResponse. routine. Qed.

Lemma service_executeCode_footprint w requestData sessionInfo userInfo :
  (forall dir executionId,
      P (WriteFile (Helpers.path_join dir
                      (Helpers.generateFileName
                         (CodeExecutionService.language requestData) executionId))
           (SecurityService.sanitizeCode (CodeExecutionService.code requestData)))) ->
  (forall dir,
      P (WriteFile (Helpers.path_join dir "input.txt")
           (SecurityService.sanitizeInput (CodeExecutionService.input requestData)))) ->
  (forall config dir,
      P (CreateContainer
           (DockerService.buildContainerOptions config dir
              (SecurityService.sanitizeInput (CodeExecutionService.input requestData))))) ->
  emits P (CodeExecutionService.executeCode w requestData sessionInfo userInfo).
Proof.
  intros Hcode Hinput Hcreate.
  unfold CodeExecutionService.executeCode, Helpers.generateExecutionId,
    CodeExecutionService.createExecutionRecord, CodeExecutionService.updateStatistics,
    CodeExecutionService.read_session.
  routine;
    try apply createErrorResponse_footprint;
    try apply validateCode_footprint;
    try apply generateSecurityReport_footprint;
    try (apply docker_executeCode_footprint; auto);
    try apply wait_loop_footprint;
    auto.
Qed.

End Footprint.

Section Uniform.
Import Effects.

Lemma uniform_ret {A} (a : A) : uniform (ret a).
Proof. intros st. unfold ret. simpl. now rewrite append_trace_nil. Qed.

Lemma uniform_throw {A} m : uniform (@throw A m).
Proof. intros st. unfold throw. simpl. now rewrite append_trace_nil. Qed.

Lemma uniform_pending {A} : uniform (@pending A).
Proof. intros st. unfold pending. simpl. now rewrite append_trace_nil. Qed.

Lemma uniform_emit e : uniform (emit e).
Proof. intros st. reflexivity. Qed.

Lemma uniform_request e answer : uniform (request e answer).
Proof. intros st. unfold request. simpl. destruct answer; reflexivity. Qed.

Lemma uniform_request_for {A} e (answer : string + A) : uniform (request_for e answer).
Proof. intros st. unfold request_for. simpl. destruct answer; reflexivity. Qed.

Lemma uniform_bind {A B} (c : M A) (f : A -> M B) :
  uniform c -> (forall a, uniform (f a)) -> uniform (bind c f).
Proof.
  intros Hc Hf st. unfold bind. rewrite (Hc st).
  destruct (c initial) as [[a | m |] st1] eqn:E; simpl; try reflexivity.
  rewrite (Hf a (append_trace st (trace st1))), (Hf a st1).
  simpl. rewrite append_trace_app.
  unfold append_trace at 2. simpl. reflexivity.
Qed.

Lemma uniform_catch {A B} (c : M A) (h : string -> M B) (k : A -> M B) :
  uniform c -> (forall m, uniform (h m)) -> (forall a, uniform (k a)) ->
  uniform (catch c h k).
Proof.
  intros Hc Hh Hk st. unfold catch. rewrite (Hc st).
  destruct (c initial) as [[a | m |] st1] eqn:E; simpl; try reflexivity.
  - rewrite (Hk a (append_trace st (trace st1))), (Hk a st1).
    simpl. rewrite append_trace_app. reflexivity.
  - rewrite (Hh m (append_trace st (trace st1))), (Hh m st1).
    simpl. rewrite append_trace_app. reflexivity.
Qed.

End Uniform.

Ltac uniform_step :=
  first
    [ apply uniform_ret | apply uniform_throw | apply uniform_pending
    | apply uniform_bind; [ | intros ? ]
    | apply uniform_catch; [ | intros ? | intros ? ]
    | apply uniform_emit | apply uniform_request | apply uniform_request_for
    | match goal with
      | |- Effects.uniform (if ?b then _ else _) => destruct b
      | |- Effects.uniform (match ?x with _ => _ end) => destruct x
      end ].

Section Supervisor.
Import Constants Effects DockerService.

Lemma wait_loop_uniform container events attached killing output error :
  uniform (wait_loop container events attached killing output error).
Proof.
  revert attached killing output error.
  induction events as [|event rest IH]; intros; simpl; [apply uniform_pending|].
  destruct event; repeat uniform_step; apply IH.
Qed.

Lemma waitForContainerCompletion_uniform w container timeout executionId :
  uniform (waitForContainerCompletion w container timeout executionId).
Proof.
  unfold waitForContainerCompletion.
  apply uniform_bind; [apply uniform_emit | intros _; apply wait_loop_uniform].
Qed.

Lemma getContainerStats_uniform w container :
  uniform (getContainerStats w container).
Proof. unfold getContainerStats. repeat uniform_step. Qed.

Lemma cleanupTempDirectory_uniform w tempDir :
  uniform (Helpers.cleanupTempDirectory w tempDir).
Proof. unfold Helpers.cleanupTempDirectory. repeat uniform_step. Qed.

Lemma getContainerStats_returns w container :
  exists memory logs,
    getContainerStats w container initial
    = (Val memory, append_trace initial (ContainerStats container :: logs)) /\
    forallb is_log logs = true /\
    (forall s m cpu, stats w container = inr s -> Docker.memory_stats s = Some m ->
                     calculateCpuPercentage s = Some cpu ->
                     used memory = or0 (Docker.usage m) /\
                     limit_ memory = or0 (Docker.limit m)).
Proof.
  unfold getContainerStats, catch, bind, request_for, emit, log, ret, throw.
  destruct (stats w container) as [message | s] eqn:Es; simpl.
  - exists no_stats, [Log LogWarn "Failed to get container stats"].
    repeat split; discriminate.
  - destruct (Docker.memory_stats s) as [m|] eqn:Em,
             (calculateCpuPercentage s) as [cpu|] eqn:Ec; simpl;
      try (exists no_stats, [Log LogWarn "Failed to get container stats"];
           split; [reflexivity|]; split; [reflexivity|];
           intros s' m' cpu' Hs Hm Hc; congruence).
    eexists _, []. split; [reflexivity|]. split; [reflexivity|].
    intros s' m' cpu' Hs Hm _.
    assert (s' = s) by congruence. subst s'.
    assert (m' = m) by congruence. subst m'. split; reflexivity.
Qed.

Lemma cleanupContainer_returns w container executionId st :
  fst (cleanupContainer w container executionId st) = Val tt.
Proof.
  unfold cleanupContainer, catch, bind, request_for, request, activeContainers_delete,
    emit, log, ret.
  simpl.
  destruct (inspect w container) as [message | [|]]; simpl; try reflexivity;
    destruct (stop w container); simpl; try reflexivity;
    destruct (remove w container); reflexivity.
Qed.

Lemma cleanupTempDirectory_returns w tempDir st :
  fst (Helpers.cleanupTempDirectory w tempDir st) = Val tt.
Proof.
  unfold Helpers.cleanupTempDirectory, catch, request, emit, log, ret. simpl.
  destruct (rmdir w tempDir); reflexivity.
Qed.

End Supervisor.

Lemma run_uniform {A} (c : Effects.M A) st :
  Effects.uniform c ->
  c st = (fst (c Effects.initial),
          Effects.append_trace st (Effects.trace (snd (c Effects.initial)))).
Proof. intros H. apply H. Qed.

(** The run of [executeCode] up to the settlement of the wait, when every
    request before it succeeds. *)
Ltac run_to_the_wait tempDir inputFile Hconfig Hmkdir Hwrite Hinput Hcreate Hstart Hwait :=
  unfold DockerService.executeCode, Helpers.createTempDirectory, Helpers.writeCodeToFile,
    Helpers.writeInputToFile, Effects.bind, Effects.catch;
  cbn [Effects.Date_now fst snd]; rewrite Hconfig; fold tempDir;
  unfold Effects.request at 1; rewrite Hmkdir; cbn [Effects.emit Effects.ret fst snd];
  unfold Effects.request at 1; rewrite Hwrite; cbn [Effects.emit Effects.ret fst snd];
  match goal with
  | |- context [(if DockerService.truthy ?input then ?a else ?b) ?s] =>
      set (inputFile := if DockerService.truthy input
                        then [Effects.WriteFile (Helpers.path_join tempDir "input.txt") input]
                        else []);
      let Ein := fresh "Ein" in
      assert (Ein : (if DockerService.truthy input then a else b) s
                    = (Effects.Val tt, Effects.append_trace s inputFile))
        by (subst inputFile; destruct (DockerService.truthy input);
            [ unfold Effects.request; rewrite (Hinput eq_refl); reflexivity
            | unfold Effects.ret; now rewrite append_trace_nil ]);
      rewrite Ein; clear Ein
  end;
  cbn [Effects.log Effects.emit]; unfold Effects.request_for; rewrite Hcreate;
  cbn [Effects.emit fst snd];
  unfold Effects.activeContainers_set at 1; unfold Effects.request at 1; rewrite Hstart;
  cbn [Effects.emit fst snd];
  rewrite (run_uniform _ _ (waitForContainerCompletion_uniform _ _ _ _)), Hwait.

Section AfterExit.
Import Constants Effects DockerService.

Lemma no_stats_Forall events :
  Forall (fun e => is_stats e = false) events -> existsb is_stats events = false.
Proof. induction 1 as [|e events He _ IH]; simpl; [reflexivity | now rewrite He]. Qed.

Lemma no_stats_logs events :
  forallb is_log events = true -> existsb is_stats events = false.
Proof.
  induction events as [|e events IH]; simpl; [reflexivity|].
  intros H. apply andb_prop in H as [He Hrest].
  destruct e; try discriminate. simpl. auto.
Qed.

Lemma wait_loop_no_stats container events attached killing output error :
  emits (fun e => is_stats e = false)
        (wait_loop container events attached killing output error).
Proof.
  revert attached killing output error.
  induction events as [|event rest IH]; intros; simpl; [footprint|].
  destruct event; footprint; try reflexivity; apply IH.
Qed.

Lemma cleanupContainer_no_stats w container executionId :
  emits (fun e => is_stats e = false) (cleanupContainer w container executionId).
Proof. unfold cleanupContainer. footprint; reflexivity. Qed.

Lemma cleanupTempDirectory_no_stats w tempDir :
  emits (fun e => is_stats e = false) (Helpers.cleanupTempDirectory w tempDir).
Proof. unfold Helpers.cleanupTempDirectory. footprint; reflexivity. Qed.

Lemma executeCode_after_exit w language code input executionId st config container result :
  let tempDir := Helpers.path_join (tmpdir w) ("code_exec_" ++ executionId) in
  containerConfigs w language = Some config ->
  mkdir w tempDir = None ->
  writeFile w (Helpers.path_join tempDir (Helpers.generateFileName language executionId))
            code = None ->
  (truthy input = true ->
   writeFile w (Helpers.path_join tempDir "input.txt") input = None) ->
  createContainer w (buildContainerOptions config tempDir input) = inr container ->
  start w container = None ->
  fst (waitForContainerCompletion w container (timeout config) executionId initial)
  = Val result ->
  exists memory setup after st',
    executeCode w language code input executionId st
    = (Val {| status := if (w_exitCode result =? 0)%Z then SUCCESS else RUNTIME_ERROR;
              output := Helpers.sanitizeOutput (w_output result);
              error := Helpers.sanitizeOutput (w_error result);
              executionTime := (clock w (S (ticks st)) - clock w (ticks st))%Z;
              exitCode := w_exitCode result;
              memoryUsage := OfContainer memory;
              containerInfo :=
                Some {| containerId := container;
                        imageName := image config;
                        info_memoryLimit := memoryLimit config;
                        info_cpuLimit := cpuLimit config |} |}, st') /\
    fst (getContainerStats w container initial) = Val memory /\
    trace st'
    = (trace st ++ setup
         ++ trace (snd (waitForContainerCompletion w container (timeout config)
                          executionId initial))
         ++ ContainerStats container :: after)%list /\
    existsb is_stats setup = false /\
    existsb is_stats after = false.
Proof.
  intros tempDir Hconfig Hmkdir Hwrite Hinput Hcreate Hstart Hwait.
  destruct (getContainerStats_returns w container) as (memory & logs & Hstats & Hlogs & _).
  run_to_the_wait tempDir inputFile Hconfig Hmkdir Hwrite Hinput Hcreate Hstart Hwait.
  rewrite (run_uniform _ _ (getContainerStats_uniform w container)), Hstats.
  cbn [fst snd trace append_trace initial tick ticks lastIndex activeContainers app].
  match goal with
  | |- context [cleanupContainer w container executionId ?s] =>
      pose proof (cleanupContainer_returns w container executionId s) as Hr;
      destruct (cleanupContainer_no_stats w container executionId s)
        as (cleanup & Htrace & Hcleanup);
      destruct (cleanupContainer w container executionId s) as [r st5]
  end.
  cbn [fst snd trace] in Hr, Htrace. subst r.
  rewrite (run_uniform _ st5 (cleanupTempDirectory_uniform w tempDir)).
  pose proof (cleanupTempDirectory_returns w tempDir initial) as Hr.
  destruct (cleanupTempDirectory_no_stats w tempDir initial)
    as (removal & Hremoval & Hquiet).
  destruct (Helpers.cleanupTempDirectory w tempDir initial) as [r st6].
  cbn [fst snd trace initial app] in Hr, Hremoval. subst r.
  cbn [fst snd ret trace append_trace].
  exists memory,
    ([Mkdir tempDir;
      WriteFile (Helpers.path_join tempDir
                   (Helpers.generateFileName language executionId)) code]
       ++ inputFile
       ++ [Log LogInfo "Creating container for code execution";
           CreateContainer (buildContainerOptions config tempDir input);
           ContainerStart container])%list,
    (logs ++ cleanup ++ removal)%list.
  eexists. split; [reflexivity|]. split; [reflexivity|].
  unfold append_trace at 1. cbn [trace fst snd]. rewrite Htrace, Hremoval.
  unfold append_trace, tick. cbn [trace lastIndex ticks activeContainers].
  split; [|split].
  - repeat rewrite <- app_assoc. reflexivity.
  - subst inputFile. destruct (truthy input); reflexivity.
  - rewrite !existsb_app, (no_stats_logs _ Hlogs),
      (no_stats_Forall _ Hcleanup), (no_stats_Forall _ Hquiet).
    reflexivity.
Qed.

End AfterExit.

Section Rejection.
Import Constants Effects DockerService.

(** When the promise of the wait rejects, the [catch] block classifies
    the message, and no statistics are read. *)
Lemma executeCode_after_rejection
      w language code input executionId st config container message :
  let tempDir := Helpers.path_join (tmpdir w) ("code_exec_" ++ executionId) in
  containerConfigs w language = Some config ->
  mkdir w tempDir = None ->
  writeFile w (Helpers.path_join tempDir (Helpers.generateFileName language executionId))
            code = None ->
  (truthy input = true ->
   writeFile w (Helpers.path_join tempDir "input.txt") input = None) ->
  createContainer w (buildContainerOptions config tempDir input) = inr container ->
  start w container = None ->
  fst (waitForContainerCompletion w container (timeout config) executionId initial)
  = Throw message ->
  exists response,
    fst (executeCode w language code input executionId st) = Val response /\
    status response = getErrorStatus message /\
    error response = formatError message /\
    exitCode response = (-1)%Z /\
    existsb is_stats (events_of (executeCode w language code input executionId) st) = false.
Proof.
  intros tempDir Hconfig Hmkdir Hwrite Hinput Hcreate Hstart Hwait.
  assert (Hrun : exists st' events,
             executeCode w language code input executionId st
             = (Val {| status := getErrorStatus message;
                       output := "";
                       error := formatError message;
                       executionTime := (clock w (ticks st') - clock w (ticks st))%Z;
                       exitCode := (-1)%Z;
                       memoryUsage := OfProcess (Helpers.getMemoryUsage w);
                       containerInfo := None |}, tick st') /\
             trace st' = (trace st ++ events)%list /\
             existsb is_stats events = false).
  { run_to_the_wait tempDir inputFile Hconfig Hmkdir Hwrite Hinput Hcreate Hstart Hwait.
    unfold onError, bind. cbn [log emit fst snd].
    destruct (wait_loop_no_stats container (schedule w container) false false "" ""
                (append_trace initial [ContainerAttach container]))
      as (waiting & Hwaiting & Hquiet).
    match goal with
    | |- context [cleanupContainer w container executionId ?s] =>
        pose proof (cleanupContainer_returns w container executionId s) as Hr;
        destruct (cleanupContainer_no_stats w container executionId s)
          as (cleanup & Htrace & Hcleanup);
        destruct (cleanupContainer w container executionId s) as [r st5]
    end.
    cbn [fst snd trace] in Hr, Htrace. subst r.
    rewrite (run_uniform _ st5 (cleanupTempDirectory_uniform w tempDir)).
    pose proof (cleanupTempDirectory_returns w tempDir initial) as Hr.
    destruct (cleanupTempDirectory_no_stats w tempDir initial)
      as (removal & Hremoval & Hremoved).
    destruct (Helpers.cleanupTempDirectory w tempDir initial) as [r st6].
    cbn [fst snd trace initial app] in Hr, Hremoval. subst r.
    cbn [fst snd ret Date_now].
    eexists (append_trace st5 removal), _.
    rewrite Hremoval. split; [reflexivity|].
    unfold append_trace at 1. cbn [trace]. rewrite Htrace.
    unfold waitForContainerCompletion, bind, emit. cbn [fst snd].
    rewrite Hwaiting.
    unfold append_trace, tick. cbn [trace lastIndex ticks activeContainers initial app].
    split; [repeat rewrite <- app_assoc; reflexivity|].
    subst inputFile.
    rewrite !existsb_app. cbn [existsb is_stats orb].
    rewrite (no_stats_Forall _ Hquiet), (no_stats_Forall _ Hcleanup),
      (no_stats_Forall _ Hremoved).
    destruct (truthy input); reflexivity. }
  destruct Hrun as (st' & events & Hrun & Htrace & Hquiet).
  eexists. rewrite Hrun. split; [reflexivity|].
  cbn [status error exitCode]. repeat split.
  rewrite (events_of_exact _ _ events); [exact Hquiet|].
  rewrite Hrun. exact Htrace.
Qed.

End Rejection.

(* ===================================================================== *)
(** * The Screener and the patterns                                       *)
(* ===================================================================== *)

Section Screener.
Import Effects SecurityService.

Lemma log_each_run level message n st :
  log_each level message n st = (Val tt, append_trace st (repeat (Log level message) n)).
Proof.
  revert st. induction n as [|n IH]; intros st; simpl.
  - now rewrite append_trace_nil.
  - unfold bind, log, emit. rewrite IH, append_trace_app. reflexivity.
Qed.

Lemma repeat_log_is_log level message n :
  forallb is_log (repeat (Log level message) n) = true.
Proof. induction n; simpl; auto. Qed.

Lemma is_empty_app_l {A} (xs ys : list A) : is_empty (xs ++ ys) = true -> xs = [].
Proof. destruct xs; [reflexivity | discriminate]. Qed.

(** The language-specific checks only add reasons. *)
Lemma language_checks_keep code language errors :
  is_empty
    (if String.eqb language "python" then validatePythonCode code errors
     else if String.eqb language "javascript" then validateJavaScriptCode code errors
     else if String.eqb language "cpp" then validateCppCode code errors
     else if String.eqb language "java" then validateJavaCode code errors
     else errors) = true ->
  errors = [].
Proof.
  unfold validatePythonCode, validateJavaScriptCode, validateCppCode, validateJavaCode.
  repeat match goal with |- context [if ?b then _ else _] => destruct b end;
    intros H; try (apply is_empty_app_l in H; exact H).
  destruct errors; [reflexivity | discriminate].
Qed.

(** The verdict of the Screener depends on the state only through the
    [lastIndex] of the shared patterns; all it does is write them back
    and log, and it logs nothing when it accepts. *)
Lemma validateCode_frame code language st st2 :
  lastIndex st2 = lastIndex st ->
  exists verdict indexes logs,
    validateCode code language st
    = (Val verdict,
       Build_State (trace st ++ logs) indexes (ticks st) (activeContainers st)) /\
    validateCode code language st2
    = (Val verdict,
       Build_State (trace st2 ++ logs) indexes (ticks st2) (activeContainers st2)) /\
    forallb is_log logs = true /\
    (isValid verdict = true -> logs = []).
Proof.
  intros Hli. unfold validateCode.
  destruct (String.length (JsString.trim code) =? 0).
  - exists {| isValid := false; errors := ["Code cannot be empty"] |}, (lastIndex st), [].
    unfold ret. rewrite !app_nil_r. destruct st, st2; simpl in *; subst.
    repeat split; auto.
  - unfold bind, get_lastIndex, set_lastIndex. rewrite Hli.
    destruct (test_patterns FORBIDDEN_PATTERNS (lastIndex st) code) as [hits indexes].
    simpl. rewrite !log_each_run. unfold ret, append_trace; simpl.
    eexists _, indexes, _. split; [reflexivity|]. split; [reflexivity|].
    split; [apply repeat_log_is_log|].
    cbn [isValid]. intros Hvalid.
    apply language_checks_keep, app_eq_nil in Hvalid.
    destruct Hvalid as [_ Hfound].
    destruct hits; [reflexivity | discriminate].
Qed.

End Screener.

Section Matching.
Import JsString JsRegExp.

Lemma only_refl c : only c c = true.
Proof. apply Ascii.eqb_refl. Qed.

Lemma is_ci_refl c : (code c <? 128) = true -> is_ci c c = true.
Proof. intros H. unfold is_ci. now rewrite Ascii.eqb_refl, H. Qed.

(** A literal matches wherever the text continues with it. *)
Lemma run_lit t : forall st k,
  (forall st', k st' <> None) ->
  prefix t (ms_rest st) = true ->
  run (lit t) st k <> None.
Proof.
  induction t as [|c t IH]; intros st k Hk Hprefix; simpl.
  - apply Hk.
  - destruct st as [prev rest pos caps].
    destruct rest as [|c' rest]; simpl in *; [discriminate|].
    destruct (ascii_dec c c') as [<-|]; [|discriminate].
    rewrite only_refl. apply IH; auto.
Qed.

Lemma run_lit_ci t : forall st k,
  all_ascii t = true ->
  (forall st', k st' <> None) ->
  prefix t (ms_rest st) = true ->
  run (lit_ci t) st k <> None.
Proof.
  induction t as [|c t IH]; intros st k Hascii Hk Hprefix; simpl.
  - apply Hk.
  - destruct st as [prev rest pos caps].
    apply andb_prop in Hascii as [Hc Ht].
    destruct rest as [|c' rest]; simpl in *; [discriminate|].
    destruct (ascii_dec c c') as [<-|]; [|discriminate].
    rewrite (is_ci_refl _ Hc). apply IH; auto.
Qed.

(** The search finds a match if the text includes a piece where the
    pattern matches. *)
Lemma search_includes r t : 
  (forall prev rest pos, prefix t rest = true -> match_here r prev rest pos <> None) ->
  forall s prev pos, includes t s = true -> search r prev s pos <> None.
Proof.
  intros Hr. induction s as [|c s IH]; intros prev pos Hin;
    cbn [includes search] in *.
  - destruct (prefix t "") eqn:E; [|discriminate].
    specialize (Hr prev "" pos E).
    destruct (match_here r prev "" pos); [discriminate | contradiction].
  - destruct (prefix t (String c s)) eqn:E.
    + specialize (Hr prev (String c s) pos E).
      destruct (match_here r prev (String c s) pos); [discriminate | contradiction].
    + destruct (match_here r prev (String c s) pos); [discriminate|].
      apply IH, Hin.
Qed.

Lemma test_fresh_search r s : search r None s 0 <> None -> test_fresh r s = true.
Proof.
  unfold test_fresh, test_global, exec_global. simpl.
  destruct (search r None s 0) as [[i st]|]; [reflexivity | contradiction].
Qed.

Lemma test_fresh_lit t s : includes t s = true -> test_fresh (lit t) s = true.
Proof.
  intros H. apply test_fresh_search, (search_includes _ t); [|exact H].
  intros prev rest pos Hp. apply run_lit; [discriminate | exact Hp].
Qed.

Lemma test_fresh_lit_ci t s :
  all_ascii t = true -> includes t s = true -> test_fresh (lit_ci t) s = true.
Proof.
  intros Ha H. apply test_fresh_search, (search_includes _ t); [|exact H].
  intros prev rest pos Hp. apply run_lit_ci; [exact Ha | discriminate | exact Hp].
Qed.

Lemma test_fresh_chr (p : ascii -> bool) c s :
  p c = true -> includes (str1 c) s = true -> test_fresh (Chr p) s = true.
Proof.
  intros Hp H. apply test_fresh_search, (search_includes _ (str1 c)); [|exact H].
  intros prev rest pos Hpre. unfold match_here. simpl.
  destruct rest as [|c' rest]; [discriminate|]. simpl in Hpre.
  destruct (ascii_dec c c') as [<-|]; [|discriminate].
  rewrite Hp. discriminate.
Qed.

End Matching.

(* ===================================================================== *)
(** * The orchestrator                                                    *)
(* ===================================================================== *)

Section Orchestrator.
Import Constants Effects SecurityService CodeExecutionService.

(** A submission the Screener turns away: the whole run, as an equation. *)
Lemma rejected_run w requestData sessionInfo userInfo st verdict st1 :
  Helpers.validateLanguage (language requestData) = true ->
  validateCode (code requestData) (language requestData) st = (Val verdict, st1) ->
  isValid verdict = false ->
  exists st' logs,
    executeCode w requestData sessionInfo userInfo st
    = (Val {| success := false;
              executionId :=
                "exec_" ++ JsString.of_Z (clock w (ticks st)) ++ "_" ++ randomHex w;
              r_language := None;
              status := ERROR;
              output := "";
              error := match sessionInfo with
                       | Some _ => "Code validation failed: "
                                     ++ JsString.join ", " (errors verdict)
                       | None => typeError w "ipAddress"
                       end;
              executionTime := (clock w (S (S (ticks st))) - clock w (S (ticks st)))%Z;
              memoryUsage := DockerService.OfProcess (Helpers.getMemoryUsage w);
              exitCode := (-1)%Z;
              timestamp := clock w (S (S (S (ticks st))));
              securityReport := None |}, st') /\
    trace st' = (trace st ++ logs)%list /\
    forallb is_log logs = true.
Proof.
  intros Hlanguage Hverdict Hinvalid.
  destruct (validateCode_frame (code requestData) (language requestData) st (tick (tick st)))
    as (verdict' & indexes & logs & Hst & Hst2 & Hlogs & _); [reflexivity|].
  rewrite Hverdict in Hst. injection Hst as <- _.
  unfold executeCode, Helpers.generateExecutionId, bind, catch, Date_now, ret.
  rewrite Hlanguage. cbn [negb]. rewrite Hst2, Hinvalid. cbn [negb].
  destruct sessionInfo as [session|]; unfold read_session, throw, ret; cbn [fst snd];
    unfold createErrorResponse, log, emit, bind, Date_now, ret, append_trace;
    cbn [fst snd trace tick ticks lastIndex activeContainers].
  - eexists _, (logs ++ [Log LogWarn "Code security validation failed"])%list.
    split; [reflexivity|]. cbn [trace]. split.
    + now rewrite app_assoc.
    + rewrite forallb_app, Hlogs. reflexivity.
  - eexists _, (logs ++ [Log LogError "Code execution service error"])%list.
    split; [reflexivity|]. cbn [trace]. split.
    + now rewrite app_assoc.
    + rewrite forallb_app, Hlogs. reflexivity.
Qed.

Lemma unsupported_language_run w requestData sessionInfo userInfo st :
  Helpers.validateLanguage (language requestData) = false ->
  forallb is_log (events_of (executeCode w requestData sessionInfo userInfo) st) = true.
Proof.
  intros Hlanguage. unfold events_of.
  unfold executeCode, Helpers.generateExecutionId, bind, catch, Date_now, ret.
  rewrite Hlanguage. cbn [negb throw].
  unfold createErrorResponse, log, emit, bind, Date_now, ret, append_trace.
  cbn [fst snd trace tick ticks lastIndex activeContainers].
  rewrite skipn_app, skipn_all, Nat.sub_diag. reflexivity.
Qed.


End Orchestrator.

Section InputValidation.
Import Constants JsString JsRegExp Effects SecurityService CodeExecutionService.

Lemma maliciousPatterns_detect input :
  includes "<" input = true \/ includes ">" input = true \/
  includes "../" input = true \/ includes "javascript:" input = true \/
  includes "data:" input = true \/ includes (str1 NUL) input = true ->
  existsb (fun pattern => test_fresh pattern input) maliciousPatterns = true.
Proof.
  intros H. unfold maliciousPatterns. cbn [existsb].
  destruct H as [H | [H | [H | [H | [H | H]]]]].
  - rewrite (test_fresh_chr _ "<"%char input eq_refl H). now rewrite !orb_true_r.
  - rewrite (test_fresh_chr _ ">"%char input eq_refl H). now rewrite !orb_true_r.
  - rewrite (test_fresh_lit "../" input H). now rewrite !orb_true_r.
  - rewrite (test_fresh_lit_ci "javascript:" input eq_refl H). now rewrite !orb_true_r.
  - rewrite (test_fresh_lit_ci "data:" input eq_refl H). now rewrite !orb_true_r.
  - rewrite (test_fresh_lit (str1 NUL) input H). reflexivity.
Qed.

Lemma validateInput_malicious input :
  (JsString.length input <= MAX_INPUT_LENGTH)%Z ->
  existsb (fun pattern => test_fresh pattern input) maliciousPatterns = true ->
  validateInput input
  = {| isValid := false; errors := ["Input contains potentially malicious content"] |}.
Proof.
  intros Hlen Hex. unfold validateInput. rewrite Hex.
  destruct (JsString.length input >? MAX_INPUT_LENGTH)%Z eqn:E; [|reflexivity].
  apply Z.gtb_lt in E. lia.
Qed.
(** C10 (amended).  When the language is supported, the Screener accepts
    the source and the stdin holds at most 10,000 units, a stdin with
    [<], [>], [../], [javascript:], [data:] or a NUL makes [executeCode]
    return the error response "Input validation failed: Input contains
    potentially malicious content" without performing any effect. *)

Theorem malicious_stdin_is_rejected
        w requestData sessionInfo userInfo st verdict st1 :
  Helpers.validateLanguage (language requestData) = true ->
  validateCode (code requestData) (language requestData) st = (Val verdict, st1) ->
  isValid verdict = true ->
  (JsString.length (input requestData) <= MAX_INPUT_LENGTH)%Z ->
  includes "<" (input requestData) = true \/ includes ">" (input requestData) = true \/
  includes "../" (input requestData) = true \/
  includes "javascript:" (input requestData) = true \/
  includes "data:" (input requestData) = true \/
  includes (str1 NUL) (input requestData) = true ->
  exists response,
    fst (executeCode w requestData sessionInfo userInfo st) = Val response /\
    status response = ERROR /\
    success response = false /\
    error response = "Input validation failed: Input contains potentially malicious content" /\
    events_of (executeCode w requestData sessionInfo userInfo) st = [].
Proof.
  intros Hlanguage Hverdict Hvalid Hlength Hmarker.
  destruct (validateCode_frame (code requestData) (language requestData) st (tick (tick st)))
    as (verdict' & indexes & logs & Hst & Hst2 & _ & Hquiet); [reflexivity|].
  rewrite Hverdict in Hst. injection Hst as <- _.
  rewrite (Hquiet Hvalid) in Hst2.
  unfold events_of.
  unfold executeCode, Helpers.generateExecutionId, bind, catch, Date_now, ret.
  rewrite Hlanguage. cbn [negb]. rewrite Hst2, Hvalid. cbn [negb].
  rewrite (validateInput_malicious _ Hlength (maliciousPatterns_detect _ Hmarker)).
  cbn [isValid errors negb join].
  unfold createErrorResponse, bind, Date_now, ret.
  cbn [fst snd trace tick ticks lastIndex activeContainers].
  eexists. split; [reflexivity|]. cbn [status success error].
  repeat split.
  rewrite app_nil_r, skipn_all. reflexivity.
Qed.

End InputValidation.

Section Hardening.
Import Constants Effects Docker DockerService.

Lemma buildContainerOptions_locked_down config tempDir input :
  locked_down (buildContainerOptions config tempDir input) /\
  network_beside_HostConfig (buildContainerOptions config tempDir input).
Proof. repeat split. Qed.

(** Every container [executeCode] creates, for any language, code, stdin
    and world, drops all capabilities, sets no-new-privileges, a PID
    limit of 50, and the rlimits nofile 64/64 and nproc 32/32, all in
    [HostConfig]; the network mode "none" is a key of the options
    themselves, and neither [HostConfig.NetworkMode] nor
    [NetworkDisabled] is set. *)
Lemma every_container_is_locked_down w language code input executionId st options :
In (CreateContainer options)
   (events_of (DockerService.executeCode w language code input executionId) st) ->
locked_down options /\ network_beside_HostConfig options.
Proof.
intros Hin.
set (P := fun e => match e with
                   | CreateContainer o => locked_down o /\ network_beside_HostConfig o
                   | _ => True
                   end).
assert (Hfootprint : emits P (DockerService.executeCode w language code input executionId)).
{ apply docker_executeCode_footprint.
  - intros e H. destruct e; first [exact I | discriminate H].
  - intros dir. exact I.
  - intros dir. exact I.
  - intros config dir. apply buildContainerOptions_locked_down. }
exact (emits_events_of P _ st _ Hfootprint Hin).
Qed.

Lemma every_container_of_the_service_is_locked_down
    w requestData sessionInfo userInfo st options :
In (CreateContainer options)
   (events_of (CodeExecutionService.executeCode w requestData sessionInfo userInfo) st) ->
locked_down options /\ network_beside_HostConfig options.
Proof.
intros Hin.
set (P := fun e => match e with
                   | CreateContainer o => locked_down o /\ network_beside_HostConfig o
                   | _ => True
                   end).
assert (Hfootprint :
          emits P (CodeExecutionService.executeCode w requestData sessionInfo userInfo)).
{ apply service_executeCode_footprint.
  - intros e H. destruct e; first [exact I | discriminate H].
  - intros dir executionId. exact I.
  - intros dir. exact I.
  - intros config dir. apply buildContainerOptions_locked_down. }
exact (emits_events_of P _ st _ Hfootprint Hin).
Qed.

End Hardening.

Section Canonicalisation.
Import Constants Effects SecurityService CodeExecutionService.

Lemma no_file_among_logs events path content :
  forallb is_log events = true -> ~ In (WriteFile path content) events.
Proof.
  intros Hlogs Hin. rewrite forallb_forall in Hlogs.
  specialize (Hlogs _ Hin). discriminate.
Qed.
(** The order of the steps.  Whenever [executeCode] writes a file, the
    Screener has accepted the source as submitted, and the file is either the
    source file holding [sanitizeCode] of that source, or [input.txt]
    holding [sanitizeInput] of the stdin. *)

Theorem workspace_source_is_sanitized_after_screening
        w requestData sessionInfo userInfo st path content :
  In (WriteFile path content)
     (events_of (executeCode w requestData sessionInfo userInfo) st) ->
  (exists verdict st1,
      validateCode (code requestData) (language requestData) st = (Val verdict, st1) /\
      isValid verdict = true) /\
  ((exists dir executionId,
       path = Helpers.path_join dir
                (Helpers.generateFileName (language requestData) executionId) /\
       content = sanitizeCode (code requestData)) \/
   (exists dir,
       path = Helpers.path_join dir "input.txt" /\
       content = sanitizeInput (input requestData))).
Proof.
  intros Hin. split.
  - destruct (validateCode_frame (code requestData) (language requestData) st st eq_refl)
      as (verdict & indexes & logs & Hst & _).
    exists verdict. eexists. split; [exact Hst|].
    destruct (isValid verdict) eqn:Hvalid; [reflexivity|]. exfalso.
    destruct (Helpers.validateLanguage (language requestData)) eqn:Hlanguage.
    + destruct (rejected_run w requestData sessionInfo userInfo st verdict _
                  Hlanguage Hst Hvalid) as (st' & rejection & Hrun & Htrace & Hlogs).
      rewrite (events_of_exact _ st rejection) in Hin;
        [exact (no_file_among_logs _ _ _ Hlogs Hin) | rewrite Hrun; exact Htrace].
    + exact (no_file_among_logs _ _ _
               (unsupported_language_run w requestData sessionInfo userInfo st Hlanguage)
               Hin).
  - set (P := fun e =>
                match e with
                | WriteFile p c =>
                    (exists dir executionId,
                        p = Helpers.path_join dir
                              (Helpers.generateFileName (language requestData) executionId) /\
                        c = sanitizeCode (code requestData)) \/
                    (exists dir,
                        p = Helpers.path_join dir "input.txt" /\
                        c = sanitizeInput (input requestData))
                | _ => True
                end).
    assert (Hfootprint : emits P (executeCode w requestData sessionInfo userInfo)).
    { apply service_executeCode_footprint.
      - intros e H. destruct e; first [exact I | discriminate H].
      - intros dir executionId. left. exists dir, executionId. split; reflexivity.
      - intros dir. right. exists dir. split; reflexivity.
      - intros config dir. exact I. }
    exact (emits_events_of P _ st _ Hfootprint Hin).
Qed.

End Canonicalisation.

(* ===================================================================== *)
(** * The supervisor                                                      *)
(* ===================================================================== *)

Section SupervisorClaims.
Import Constants Effects DockerService.
(** The normal path.  When the container is created and started and the
    wait settles with an exit code, [executeCode] returns a result; it
    queries the container statistics exactly once, after every event of
    the wait; the result records the usage that query reported; and its
    status follows the exit code alone, never [MEMORY_LIMIT_EXCEEDED]. *)

Theorem stats_once_and_status_by_exit_code
        w language code input executionId st config container result :
  let tempDir := Helpers.path_join (tmpdir w) ("code_exec_" ++ executionId) in
  containerConfigs w language = Some config ->
  mkdir w tempDir = None ->
  writeFile w (Helpers.path_join tempDir (Helpers.generateFileName language executionId))
            code = None ->
  (truthy input = true ->
   writeFile w (Helpers.path_join tempDir "input.txt") input = None) ->
  createContainer w (buildContainerOptions config tempDir input) = inr container ->
  start w container = None ->
  fst (waitForContainerCompletion w container (timeout config) executionId initial)
  = Val result ->
  exists response memory before after,
    fst (executeCode w language code input executionId st) = Val response /\
    events_of (executeCode w language code input executionId) st
    = (before ++ ContainerStats container :: after)%list /\
    existsb is_stats before = false /\
    existsb is_stats after = false /\
    (exists setup,
        before = (setup ++ trace (snd (waitForContainerCompletion
                                         w container (timeout config) executionId
                                         initial)))%list) /\
    memoryUsage response = OfContainer memory /\
    (forall s m cpu,
        stats w container = inr s -> Docker.memory_stats s = Some m ->
        calculateCpuPercentage s = Some cpu ->
        used memory = or0 (Docker.usage m)) /\
    exitCode response = w_exitCode result /\
    status response = (if (w_exitCode result =? 0)%Z then SUCCESS else RUNTIME_ERROR) /\
    status response <> MEMORY_LIMIT_EXCEEDED.
Proof.
  intros tempDir Hconfig Hmkdir Hwrite Hinput Hcreate Hstart Hwait.
  destruct (executeCode_after_exit w language code input executionId st config container
              result Hconfig Hmkdir Hwrite Hinput Hcreate Hstart Hwait)
    as (memory & setup & after & st' & Hrun & Hmemory & Htrace & Hsetup & Hafter).
  destruct (wait_loop_no_stats container (schedule w container) false false "" ""
              (append_trace initial [ContainerAttach container]))
    as (waiting & Hwaiting & Hquiet).
  eexists _, memory,
    (setup ++ trace (snd (waitForContainerCompletion w container (timeout config)
                            executionId initial)))%list,
    after.
  rewrite Hrun. split; [reflexivity|].
  split.
  { apply events_of_exact. rewrite Hrun. cbn [snd]. rewrite Htrace.
    now rewrite <- !app_assoc. }
  split.
  { rewrite existsb_app, Hsetup. cbn [orb].
    unfold waitForContainerCompletion, bind, emit. cbn [fst snd].
    rewrite Hwaiting. cbn [trace append_trace initial app existsb is_stats orb].
    apply no_stats_Forall, Hquiet. }
  split; [exact Hafter|].
  split; [eexists; reflexivity|].
  cbn [memoryUsage exitCode status].
  split; [reflexivity|].
  split.
  { intros s m cpu Hs Hm Hcpu.
    destruct (getContainerStats_returns w container) as (memory' & logs & Hstats & _ & Hused).
    rewrite Hstats in Hmemory. cbn [fst] in Hmemory. injection Hmemory as <-.
    apply (Hused s m cpu Hs Hm Hcpu). }
  split; [reflexivity|].
  split; [reflexivity|].
  destruct (w_exitCode result =? 0)%Z; discriminate.
Qed.

End SupervisorClaims.

Section Support.
Import Constants JsString Effects.

Lemma take_length n s : String.length (take n s) <= n.
Proof.
  revert s. induction n as [|n IH]; intros [|c s]; simpl; try lia.
  specialize (IH s). lia.
Qed.

Lemma append_length s t : String.length (s ++ t) = String.length s + String.length t.
Proof. induction s as [|c s IH]; simpl; [reflexivity | now rewrite IH]. Qed.

(** X1.  Whatever the process wrote, a sanitized stream holds at most
    10,000 units and the marker: 10,023 units in all. *)
Lemma sanitizeOutput_bounded output :
  (JsString.length (Helpers.sanitizeOutput output) <= 10023)%Z.
Proof.
  unfold Helpers.sanitizeOutput.
  destruct output as [|c output]; [vm_compute; discriminate|].
  set (redacted := JsRegExp.replace_all _ _ _).
  destruct (JsString.length redacted >? Helpers.sanitizeOutput_MAX_OUTPUT_LENGTH)%Z eqn:E.
  - unfold JsString.length. rewrite append_length.
    pose proof (take_length (Z.to_nat Helpers.sanitizeOutput_MAX_OUTPUT_LENGTH) redacted) as H.
    change (String.length Helpers.truncation_marker) with 23.
    unfold Helpers.sanitizeOutput_MAX_OUTPUT_LENGTH in *.
    lia.
  - rewrite Z.gtb_ltb in E. apply Z.ltb_ge in E.
    unfold Helpers.sanitizeOutput_MAX_OUTPUT_LENGTH in E. lia.
Qed.

Section Classification.
Import DockerService.

(** The classification of a container that exited looks at the exit code
    and at nothing else: not at the error stream, not at the memory. *)
Lemma nonzero_exit_is_runtime_error
      w language code input executionId st config container result :
  let tempDir := Helpers.path_join (tmpdir w) ("code_exec_" ++ executionId) in
  containerConfigs w language = Some config ->
  mkdir w tempDir = None ->
  writeFile w (Helpers.path_join tempDir (Helpers.generateFileName language executionId))
            code = None ->
  (truthy input = true ->
   writeFile w (Helpers.path_join tempDir "input.txt") input = None) ->
  createContainer w (buildContainerOptions config tempDir input) = inr container ->
  start w container = None ->
  fst (waitForContainerCompletion w container (timeout config) executionId initial)
  = Val result ->
  w_exitCode result <> 0%Z ->
  option_map status (value (fst (executeCode w language code input executionId st)))
  = Some RUNTIME_ERROR.
Proof.
  intros tempDir Hconfig Hmkdir Hwrite Hinput Hcreate Hstart Hwait Hexit.
  destruct (executeCode_after_exit w language code input executionId st config container
              result Hconfig Hmkdir Hwrite Hinput Hcreate Hstart Hwait)
    as (memory & setup & after & st' & Hrun & _).
  rewrite Hrun. cbn [fst value option_map status].
  destruct (w_exitCode result =? 0)%Z eqn:E; [|reflexivity].
  apply Z.eqb_eq in E. contradiction.
Qed.

(** When the timer's callback gets to reject first, the result is a
    timeout. *)
Lemma timeout_rejection_is_TIMEOUT
      w language code input executionId st config container :
  let tempDir := Helpers.path_join (tmpdir w) ("code_exec_" ++ executionId) in
  containerConfigs w language = Some config ->
  mkdir w tempDir = None ->
  writeFile w (Helpers.path_join tempDir (Helpers.generateFileName language executionId))
            code = None ->
  (truthy input = true ->
   writeFile w (Helpers.path_join tempDir "input.txt") input = None) ->
  createContainer w (buildContainerOptions config tempDir input) = inr container ->
  start w container = None ->
  fst (waitForContainerCompletion w container (timeout config) executionId initial)
  = Throw "Execution timeout" ->
  option_map status (value (fst (executeCode w language code input executionId st)))
  = Some TIMEOUT.
Proof.
  intros tempDir Hconfig Hmkdir Hwrite Hinput Hcreate Hstart Hwait.
  destruct (executeCode_after_rejection w language code input executionId st config
              container _ Hconfig Hmkdir Hwrite Hinput Hcreate Hstart Hwait)
    as (response & Hrun & Hstatus & _).
  rewrite Hrun. cbn [value option_map]. rewrite Hstatus. reflexivity.
Qed.

End Classification.

Section Deadline.
Import Constants Effects DockerService.

(** Once the timer's callback awaits the kill, the promise is rejected
    with the timeout as soon as the kill settles, provided nothing else
    settles before. *)
Lemma wait_loop_kill_settles container mid answer rest :
  forallb settles_nothing mid = true ->
  forall attached output error st,
    fst (wait_loop container (mid ++ KillSettles answer :: rest)%list
           attached true output error st)
    = Throw "Execution timeout".
Proof.
  induction mid as [|event mid IH]; intros Hmid attached output error st.
  - simpl. unfold bind, throw. destruct answer; reflexivity.
  - simpl in Hmid. apply andb_prop in Hmid as [Hevent Hmid].
    destruct event as [| [message|] | channel data | |]; try discriminate; simpl.
    + apply IH, Hmid.
    + destruct attached; [apply IH, Hmid|].
      unfold bind, emit. cbn [fst snd]. apply IH, Hmid.
    + destruct attached; [destruct channel|]; apply IH, Hmid.
Qed.

Lemma wait_loop_deadline_kill_first container pre mid answer rest :
  forallb settles_nothing pre = true ->
  forallb settles_nothing mid = true ->
  forall attached killing output error st,
    fst (wait_loop container
           (pre ++ TimerFires :: mid ++ KillSettles answer :: rest)%list
           attached killing output error st)
    = Throw "Execution timeout".
Proof.
  intros Hpre Hmid.
  induction pre as [|event pre IH]; intros attached killing output error st.
  - simpl. destruct killing.
    + apply wait_loop_kill_settles, Hmid.
    + unfold bind, log, emit. cbn [fst snd]. apply wait_loop_kill_settles, Hmid.
  - simpl in Hpre. apply andb_prop in Hpre as [Hevent Hpre].
    specialize (IH Hpre).
    destruct event as [| [message|] | channel data | |]; try discriminate; simpl.
    + destruct killing; [apply IH|].
      unfold bind, log, emit. cbn [fst snd]. apply IH.
    + destruct attached; [apply IH|].
      unfold bind, emit. cbn [fst snd]. apply IH.
    + destruct attached; [destruct channel|]; apply IH.
Qed.

(** X2.  The deadline as it is meant to work: when the workspace, the
    container and its start succeed, the timer fires before anything
    settles and the kill settles before the wait, the result of
    [executeCode] is a timeout. *)
Lemma deadline_kill_first_is_TIMEOUT
      w language code input executionId st config container pre mid answer rest :
  let tempDir := Helpers.path_join (tmpdir w) ("code_exec_" ++ executionId) in
  containerConfigs w language = Some config ->
  mkdir w tempDir = None ->
  writeFile w (Helpers.path_join tempDir (Helpers.generateFileName language executionId))
            code = None ->
  (truthy input = true ->
   writeFile w (Helpers.path_join tempDir "input.txt") input = None) ->
  createContainer w (buildContainerOptions config tempDir input) = inr container ->
  start w container = None ->
  schedule w container = (pre ++ TimerFires :: mid ++ KillSettles answer :: rest)%list ->
  forallb settles_nothing pre = true ->
  forallb settles_nothing mid = true ->
  option_map status (value (fst (executeCode w language code input executionId st)))
  = Some TIMEOUT.
Proof.
  intros tempDir Hconfig Hmkdir Hwrite Hinput Hcreate Hstart Hschedule Hpre Hmid.
  apply (timeout_rejection_is_TIMEOUT w language code input executionId st config container
           Hconfig Hmkdir Hwrite Hinput Hcreate Hstart).
  unfold waitForContainerCompletion, bind, emit. cbn [fst snd].
  rewrite Hschedule. apply wait_loop_deadline_kill_first; assumption.
Qed.

(** Whatever a Java submission declares, its source goes to [Main.java]. *)
Lemma java_file_name_ignores_the_source w code input executionId st path content :
  In (WriteFile path content)
     (events_of (executeCode w "java" code input executionId) st) ->
  (exists dir, path = Helpers.path_join dir "Main.java" /\ content = code) \/
  (exists dir, path = Helpers.path_join dir "input.txt" /\ content = input).
Proof.
  intros Hin.
  set (P := fun e =>
              match e with
              | WriteFile p c =>
                  (exists dir, p = Helpers.path_join dir "Main.java" /\ c = code) \/
                  (exists dir, p = Helpers.path_join dir "input.txt" /\ c = input)
              | _ => True
              end).
  assert (Hfootprint : emits P (executeCode w "java" code input executionId)).
  { apply docker_executeCode_footprint.
    - intros e H. destruct e; first [exact I | discriminate H].
    - intros dir. left. exists dir. split; reflexivity.
    - intros dir. right. exists dir. split; reflexivity.
    - intros config dir. exact I. }
  exact (emits_events_of P _ st _ Hfootprint Hin).
Qed.

End Deadline.

Example kill_first_is_timeout :
  option_map DockerService.status
    (value (fst (DockerService.executeCode
                   (Scenarios.world Scenarios.deadline_kill_first 1000000)
                   "python" "while True: pass" "" "exec_1" initial)))
  = Some TIMEOUT.
Proof. vm_compute. reflexivity. Qed.

(** The same submission twice: turned away, then run. *)
Example second_identical_submission_runs :
  let w := Scenarios.world (Scenarios.exits "" 0) 1000000 in
  let submission := Scenarios.request "java" "eval(1)" "" in
  let first := CodeExecutionService.executeCode w submission Scenarios.session None initial in
  let second := CodeExecutionService.executeCode w submission Scenarios.session None
                  (snd first) in
  option_map CodeExecutionService.success (value (fst first)) = Some false /\
  existsb is_log (events_of (CodeExecutionService.executeCode w submission
                               Scenarios.session None) initial) = true /\
  forallb is_log (events_of (CodeExecutionService.executeCode w submission
                               Scenarios.session None) initial) = true /\
  option_map CodeExecutionService.success (value (fst second)) = Some true /\
  In (ContainerStart "c1") (trace (snd second)).
Proof. vm_compute. repeat split. auto 30. Qed.

Section Sibling.
Import JavaExecutor.

(** X3.  The stand-alone Java executor, on a code without input, writes
    the code to the file named after its class, and when [javac] exits
    with a code other than 0 the status of the result is
    [COMPILATION_ERROR]. *)
Lemma JavaExecutor_compile_failure w code executionId st out err compileExit :
  let tempDir := Helpers.path_join (Helpers.path_join (cwd w) "temp") executionId in
  let codeFile := Helpers.path_join tempDir (extractClassName code ++ ".java") in
  mkdir w tempDir = None ->
  writeFile w codeFile code = None ->
  spawn w "javac" ["-cp"; tempDir; codeFile] = SpawnClose out err compileExit ->
  is_zero compileExit = false ->
  In (WriteFile codeFile code) (events_of (execute w code "" executionId) st) /\
  option_map status (value (fst (execute w code "" executionId st)))
  = Some COMPILATION_ERROR.
Proof.
  intros tempDir codeFile Hmkdir Hwrite Hspawn Hexit.
  unfold events_of, execute, compileJava, cleanup, bind, catch.
  cbn [Date_now fst snd]. fold tempDir. unfold request at 1 3. rewrite Hmkdir.
  cbn [emit fst snd]. fold codeFile. unfold request at 1 2. rewrite Hwrite.
  cbn [emit ret fst snd]. rewrite Hspawn. cbn [ret fst snd JavaExecutor.exitCode].
  rewrite Hexit. cbn [negb Date_now ret fst snd].
  unfold request. cbn [emit fst snd].
  destruct (rmdir w tempDir); cbn [log emit ret fst snd value option_map status trace
                                   append_trace tick];
    (split; [|reflexivity]);
    rewrite <- !app_assoc, skipn_app, skipn_all, Nat.sub_diag; cbn [skipn app];
    right; left; reflexivity.
Qed.

End Sibling.

End Support.

(* ===================================================================== *)
(** * The claims at concrete submissions                                  *)
(* ===================================================================== *)

Section Instances.
Import Constants JsString Effects.
(** C1, as stated, fails.  A source the Screener rejects and a source it
    accepts (sent with a stdin that is refused) come back with one and
    the same status, the string "error": a rejection by the Screener has
    no status of its own. *)

(** C1 (amended), at a Python submission that imports [os], with a
    session and without. *)

(** C2 fails on the code.  The container exits with code 137 and the
    one stats query reports a usage equal to the 128 MB the container
    was created with; the result records that usage, and its status is
    [RUNTIME_ERROR], not [MEMORY_LIMIT_EXCEEDED]. *)

Theorem memory_cap_reached_is_runtime_error :
  let w := Scenarios.world (Scenarios.exits "Killed" 137) Scenarios.MB128 in
  let run := DockerService.executeCode w "python" "x = bytearray(10**9)" "" "exec_1" initial in
  option_map DockerService.status (value (fst run)) = Some RUNTIME_ERROR /\
  option_map DockerService.exitCode (value (fst run)) = Some 137%Z /\
  filter is_stats (trace (snd run)) = [ContainerStats "c1"] /\
  option_map (fun r => DockerService.memory_used (DockerService.memoryUsage r))
    (value (fst run)) = Some (Some Scenarios.MB128) /\
  Helpers.parseMemoryLimit "128m" = Scenarios.MB128 /\
  In (CreateContainer
        (DockerService.buildContainerOptions Scenarios.python_config
           "/tmp/code_exec_exec_1" ""))
     (trace (snd run)) /\
  Docker.Memory (Docker.HostConfig_
                   (DockerService.buildContainerOptions Scenarios.python_config
                      "/tmp/code_exec_exec_1" "")) = Scenarios.MB128.
Proof. vm_compute. repeat split. auto 10. Qed.
(** C6 fails on the code.  Two consecutive calls of [validateCode] with
    the same arguments: the first rejects, the second accepts, because
    the shared pattern kept the [lastIndex] of its match. *)

Theorem validateCode_remembers_the_previous_call :
  let first := SecurityService.validateCode "eval(1)" "java" initial in
  let second := SecurityService.validateCode "eval(1)" "java" (snd first) in
  fst first
  = Val {| SecurityService.isValid := false;
           SecurityService.errors := ["Code contains forbidden pattern: eval\s*\("] |} /\
  fst second
  = Val {| SecurityService.isValid := true; SecurityService.errors := [] |}.
Proof. vm_compute. split; reflexivity. Qed.
(** C8 fails on the code.  The deadline passes while the container runs
    and the supervisor kills it; the pending [wait] settles (code 137)
    before the awaited [kill] does, so the promise is resolved, not
    rejected, and the result is [RUNTIME_ERROR]. *)

Theorem deadline_kill_can_surface_as_runtime_error :
  let w := Scenarios.world Scenarios.deadline_wait_first 1000000 in
  let run := DockerService.executeCode w "python" "while True: pass" "" "exec_1" initial in
  In (ContainerKill "c1") (trace (snd run)) /\
  option_map DockerService.status (value (fst run)) = Some RUNTIME_ERROR /\
  option_map DockerService.exitCode (value (fst run)) = Some 137%Z.
Proof. vm_compute. repeat split. auto 20. Qed.
(** The normal path, at a container that exits with 137 at the memory
    cap. *)

Lemma stats_once_at_the_memory_cap :
  let w := Scenarios.world (Scenarios.exits "Killed" 137) Scenarios.MB128 in
  exists response before after,
    fst (DockerService.executeCode w "python" "x = bytearray(10**9)" "" "exec_1" initial)
    = Val response /\
    events_of (DockerService.executeCode w "python" "x = bytearray(10**9)" "" "exec_1")
      initial
    = (before ++ ContainerStats "c1" :: after)%list /\
    existsb is_stats before = false /\
    existsb is_stats after = false /\
    DockerService.status response = RUNTIME_ERROR.
Proof.
  intros w.
  destruct (stats_once_and_status_by_exit_code
              w "python" "x = bytearray(10**9)" "" "exec_1" initial
              Scenarios.python_config "c1"
              {| DockerService.w_output := "";
                 DockerService.w_error := "";
                 DockerService.w_exitCode := 137 |}
              eq_refl eq_refl eq_refl (fun _ => eq_refl) eq_refl eq_refl eq_refl)
    as (response & memory & before & after & Hrun & Hevents & Hbefore & Hafter
        & _ & _ & _ & _ & Hstatus & _).
  exists response, before, after. repeat split; assumption.
Defined.
(** C4 fails on the code.  A source that declares [public class Solution]
    is written to [Main.java] and compiled as [Main.java], although
    [extractClassName] of the stand-alone executor finds [Solution]. *)

Theorem java_source_is_always_written_to_Main_java :
  let w := Scenarios.world (Scenarios.exits "" 1) 1000000 in
  let run := DockerService.executeCode w "java" Scenarios.java_Solution "" "exec_1" initial in
  JavaExecutor.extractClassName Scenarios.java_Solution = "Solution" /\
  Helpers.generateFileName "java" "exec_1" = "Main.java" /\
  In (WriteFile "/tmp/code_exec_exec_1/Main.java" Scenarios.java_Solution) (trace (snd run)) /\
  ~ In (WriteFile "/tmp/code_exec_exec_1/Solution.java" Scenarios.java_Solution)
       (trace (snd run)) /\
  option_map DockerService.cmd (DockerService.containerConfigs w "java")
  = Some ["/bin/sh"; "-c"; "cd /app && javac Main.java && java Main"].
Proof.
  cbv zeta. split; [vm_compute; reflexivity|]. split; [reflexivity|].
  split; [vm_compute; auto 10|]. split; [|reflexivity].
  vm_compute. intuition discriminate.
Qed.
(** C5 fails on the code.  A C++ submission whose compilation fails (exit
    code 1, a compiler diagnostic on the error stream) is reported as
    [RUNTIME_ERROR]; the diagnostic itself does not reach the result,
    whose [error] is empty. *)

Theorem compile_failure_is_reported_as_runtime_error :
  let diagnostics := "main.cpp:1:18: error: expected primary-expression at end of input" in
  let w := Scenarios.world (Scenarios.exits diagnostics 1) 1000000 in
  let run := DockerService.executeCode w "cpp" "int main(){return" "" "exec_1" initial in
  option_map DockerService.status (value (fst run)) = Some RUNTIME_ERROR /\
  In (Chunk Stderr diagnostics) (schedule w "c1") /\
  option_map DockerService.error (value (fst run)) = Some "" /\
  option_map DockerService.exitCode (value (fst run)) = Some 1%Z.
Proof. vm_compute. repeat split. auto. Qed.
(** C7 fails on the code.  The Screener accepts a source in which a NUL
    splits [eval]; the text then written to the workspace is [eval(1)],
    which the Screener rejects: the patterns were matched before the NUL
    was removed.  The run succeeds, and the security report the service
    then makes of the text it ran names the pattern. *)

(** The order of the steps, at a Python source with trailing blanks and
    a CRLF. *)

Lemma workspace_source_of_a_python_submission :
  let requestData := Scenarios.request "python" ("print(1)  " ++ String CR (str1 LF)) "" in
  (exists verdict st1,
      SecurityService.validateCode (CodeExecutionService.code requestData)
        (CodeExecutionService.language requestData) initial = (Val verdict, st1) /\
      SecurityService.isValid verdict = true) /\
  ((exists dir executionId,
       "/tmp/code_exec_exec_1700000000000_00112233aabbccdd/main.py"
       = Helpers.path_join dir
           (Helpers.generateFileName (CodeExecutionService.language requestData)
              executionId) /\
       "print(1)" = SecurityService.sanitizeCode (CodeExecutionService.code requestData)) \/
   (exists dir,
       "/tmp/code_exec_exec_1700000000000_00112233aabbccdd/main.py"
       = Helpers.path_join dir "input.txt" /\
       "print(1)" = SecurityService.sanitizeInput (CodeExecutionService.input requestData))).
Proof.
  intros requestData.
  apply (workspace_source_is_sanitized_after_screening
           (Scenarios.world (Scenarios.exits "" 0) 1000000)
           requestData Scenarios.session None initial).
  vm_compute. auto 10.
Defined.
(** C9 fails on the code.  The container of a Python submission is
    created with the capabilities, privileges, PID limit and rlimits of
    the claim, all in [HostConfig]; but its network mode "none" is a key
    of the options themselves, where the Engine API has no such key:
    [HostConfig.NetworkMode] and [NetworkDisabled] are not set. *)

Theorem sandbox_network_is_not_disabled :
  let w := Scenarios.world (Scenarios.exits "" 0) 1000000 in
  let options :=
    DockerService.buildContainerOptions Scenarios.python_config "/tmp/code_exec_exec_1" "" in
  In (CreateContainer options)
     (events_of (DockerService.executeCode w "python" "print(1)" "" "exec_1") initial) /\
  Docker.NetworkMode options = "none" /\
  Docker.HostConfig_NetworkMode (Docker.HostConfig_ options) = None /\
  Docker.NetworkDisabled options = None /\
  DockerService.locked_down options.
Proof. cbv zeta. split; [vm_compute; auto 10|]. repeat split. Qed.
(** C10, as stated, fails.  The stdin holds [<], but the source is
    rejected first and the message is that of the code validation. *)

Lemma screener_rejection_masks_malicious_stdin :
  let w := Scenarios.world [] 0 in
  let requestData := Scenarios.request "python" "import os" "a<b" in
  includes "<" (CodeExecutionService.input requestData) = true /\
  (JsString.length (CodeExecutionService.input requestData) <=? MAX_INPUT_LENGTH)%Z = true /\
  option_map CodeExecutionService.error
    (value (fst (CodeExecutionService.executeCode w requestData Scenarios.session None
                   initial)))
  = Some ("Code validation failed: Code contains forbidden pattern: import\s+os, "
            ++ "Dangerous import detected: os") /\
  option_map CodeExecutionService.error
    (value (fst (CodeExecutionService.executeCode w requestData Scenarios.session None
                   initial)))
  <> Some "Input validation failed: Input contains potentially malicious content".
Proof. vm_compute. repeat split. discriminate. Qed.
(** C10 (amended), at a stdin that holds [<]. *)

Lemma malicious_stdin_witness :
  let w := Scenarios.world [] 0 in
  let requestData := Scenarios.request "python" "print(1)" "a<b" in
  exists response,
    fst (CodeExecutionService.executeCode w requestData Scenarios.session None initial)
    = Val response /\
    CodeExecutionService.status response = ERROR /\
    CodeExecutionService.success response = false /\
    CodeExecutionService.error response
    = "Input validation failed: Input contains potentially malicious content" /\
    events_of (CodeExecutionService.executeCode w requestData Scenarios.session None) initial
    = [].
Proof.
  intros w requestData.
  apply (malicious_stdin_is_rejected w requestData Scenarios.session None initial
           {| SecurityService.isValid := true; SecurityService.errors := [] |}
           (snd (SecurityService.validateCode "print(1)" "python" initial))).
  - reflexivity.
  - vm_compute. reflexivity.
  - reflexivity.
  - vm_compute. discriminate.
  - left. reflexivity.
Defined.

End Instances.

(* ===================================================================== *)
(** * Assertions about runs                                               *)
(* ===================================================================== *)

Section HoareRules.
Import Effects Hoare.

Lemma wp_ret {A} (a : A) (Q : A -> State -> Prop) E st : Q a st -> wp (ret a) Q E st.
Proof. intros H. exact H. Qed.

Lemma wp_throw {A} m (Q : A -> State -> Prop) (E : string -> State -> Prop) st :
  E m st -> wp (throw m) Q E st.
Proof. intros H. exact H. Qed.

Lemma wp_bind {A B} (c : M A) (f : A -> M B) Q E st :
  wp c (fun a st' => wp (f a) Q E st') E st -> wp (bind c f) Q E st.
Proof.
  unfold wp, bind. destruct (c st) as [[a | m |] st']; auto.
Qed.

Lemma wp_catch {A B} (c : M A) (h : string -> M B) (k : A -> M B) Q E st :
  wp c (fun a st' => wp (k a) Q E st') (fun m st' => wp (h m) Q E st') st ->
  wp (catch c h k) Q E st.
Proof.
  unfold wp, catch. destruct (c st) as [[a | m |] st']; auto.
Qed.

Lemma wp_mono {A} (c : M A) (Q Q' : A -> State -> Prop)
      (E E' : string -> State -> Prop) st :
  wp c Q E st ->
  (forall a st', Q a st' -> Q' a st') ->
  (forall m st', E m st' -> E' m st') ->
  wp c Q' E' st.
Proof.
  unfold wp. destruct (c st) as [[a | m |] st']; auto.
Qed.

(** What holds of every state that extends the present one holds after
    a computation, which only adds events. *)
Lemma wp_extends {A} (c : M A) (Q : A -> State -> Prop)
      (E : string -> State -> Prop) st :
  emits (fun _ => True) c ->
  (forall a st', extends st st' -> Q a st') ->
  (forall m st', extends st st' -> E m st') ->
  wp c Q E st.
Proof.
  intros Hc HQ HE. unfold wp.
  destruct (Hc st) as (events & Htrace & _).
  destruct (c st) as [[a | m |] st']; cbn [snd] in Htrace;
    [apply HQ | apply HE | exact I]; exists events; exact Htrace.
Qed.

Lemma extends_refl st : extends st st.
Proof. exists []. now rewrite app_nil_r. Qed.

Lemma extends_trans st1 st2 st3 : extends st1 st2 -> extends st2 st3 -> extends st1 st3.
Proof.
  intros (e1 & H1) (e2 & H2). exists (e1 ++ e2)%list.
  now rewrite H2, H1, app_assoc.
Qed.

Lemma since_extends st1 st2 st3 e : since st1 e st2 -> extends st2 st3 -> since st1 e st3.
Proof.
  intros (e1 & H1 & Hin) (e2 & H2). exists (e1 ++ e2)%list.
  rewrite H2, H1, app_assoc. split; [reflexivity|]. apply in_or_app. now left.
Qed.

Lemma extends_since st1 st2 st3 e : extends st1 st2 -> since st2 e st3 -> since st1 e st3.
Proof.
  intros (e1 & H1) (e2 & H2 & Hin). exists (e1 ++ e2)%list.
  rewrite H2, H1, app_assoc. split; [reflexivity|]. apply in_or_app. now right.
Qed.

Lemma since_events_of {A} (c : M A) st e :
  since st e (snd (c st)) -> In e (events_of c st).
Proof.
  intros (events & Htrace & Hin). now rewrite (events_of_exact _ _ _ Htrace).
Qed.

(** ** Computations that never throw *)

Lemma safe_ret {A} (a : A) : safe (ret a).
Proof. intros st m. discriminate. Qed.

Lemma safe_pending {A} : safe (@pending A).
Proof. intros st m. discriminate. Qed.

Lemma safe_emit e : safe (emit e).
Proof. intros st m. discriminate. Qed.

Lemma safe_log level message : safe (log level message).
Proof. apply safe_emit. Qed.

Lemma safe_Date_now w : safe (Date_now w).
Proof. intros st m. discriminate. Qed.

Lemma safe_get_lastIndex : safe get_lastIndex.
Proof. intros st m. discriminate. Qed.

Lemma safe_set_lastIndex li : safe (set_lastIndex li).
Proof. intros st m. discriminate. Qed.

Lemma safe_activeContainers_delete i : safe (activeContainers_delete i).
Proof. intros st m. discriminate. Qed.

Lemma safe_bind {A B} (c : M A) (f : A -> M B) :
  safe c -> (forall a, safe (f a)) -> safe (bind c f).
Proof.
  intros Hc Hf st m. unfold bind. specialize (Hc st).
  destruct (c st) as [[a | m' |] st']; cbn [fst] in *.
  - apply Hf.
  - now destruct (Hc m').
  - discriminate.
Qed.

(** A [try] whose handler and continuation never throw never throws,
    whatever its body does. *)
Lemma safe_catch {A B} (c : M A) (h : string -> M B) (k : A -> M B) :
  (forall m, safe (h m)) -> (forall a, safe (k a)) -> safe (catch c h k).
Proof.
  intros Hh Hk st m. unfold catch.
  destruct (c st) as [[a | m' |] st']; [apply Hk | apply Hh | discriminate].
Qed.

Lemma safe_wp {A} (c : M A) (Q : A -> State -> Prop) (E : string -> State -> Prop) st :
  safe c -> (forall a st', Q a st') -> wp c Q E st.
Proof.
  intros Hc HQ. unfold wp. specialize (Hc st).
  destruct (c st) as [[a | m |] st']; cbn [fst] in Hc; auto.
  now destruct (Hc m).
Qed.

Lemma wp_safe {A} (c : M A) (Q : A -> State -> Prop) (E E' : string -> State -> Prop) st :
  safe c -> wp c Q E st -> wp c Q E' st.
Proof.
  intros Hc. unfold wp. specialize (Hc st).
  destruct (c st) as [[a | m |] st']; cbn [fst] in Hc; auto.
  now destruct (Hc m).
Qed.

End HoareRules.

Ltac safe_step :=
  lazymatch goal with
  | |- Hoare.safe (Effects.ret _) => apply safe_ret
  | |- Hoare.safe Effects.pending => apply safe_pending
  | |- Hoare.safe (Effects.Date_now _) => apply safe_Date_now
  | |- Hoare.safe Effects.get_lastIndex => apply safe_get_lastIndex
  | |- Hoare.safe (Effects.set_lastIndex _) => apply safe_set_lastIndex
  | |- Hoare.safe (Effects.activeContainers_delete _) => apply safe_activeContainers_delete
  | |- Hoare.safe (Effects.log _ _) => apply safe_log
  | |- Hoare.safe (Effects.emit _) => apply safe_emit
  | |- Hoare.safe (Effects.catch _ _ _) => apply safe_catch; [ intros ? | intros ? ]
  | |- Hoare.safe (Effects.bind _ _) => apply safe_bind; [ | intros ? ]
  | |- Hoare.safe (if ?b then _ else _) => destruct b
  | |- Hoare.safe (match ?x with _ => _ end) => destruct x
  end.

Section NeverThrows.
Import Effects Hoare.

Lemma cleanupContainer_safe w container executionId :
  safe (DockerService.cleanupContainer w container executionId).
Proof. unfold DockerService.cleanupContainer. repeat safe_step. Qed.

Lemma cleanupTempDirectory_safe w tempDir :
  safe (Helpers.cleanupTempDirectory w tempDir).
Proof. unfold Helpers.cleanupTempDirectory. repeat safe_step. Qed.

Lemma getContainerStats_safe w container :
  safe (DockerService.getContainerStats w container).
Proof. unfold DockerService.getContainerStats. repeat safe_step. Qed.

Lemma onError_safe w executionId startTime container tempDir message :
  safe (DockerService.onError w executionId startTime container tempDir message).
Proof.
  unfold DockerService.onError.
  repeat safe_step;
    first [apply cleanupContainer_safe | apply cleanupTempDirectory_safe].
Qed.

Lemma docker_executeCode_safe w language code input executionId :
  safe (DockerService.executeCode w language code input executionId).
Proof.
  unfold DockerService.executeCode.
  repeat safe_step; apply onError_safe.
Qed.

Lemma log_each_safe level message n : safe (SecurityService.log_each level message n).
Proof. induction n; simpl; repeat safe_step. exact IHn. Qed.

Lemma validateCode_safe code language : safe (SecurityService.validateCode code language).
Proof. unfold SecurityService.validateCode. repeat safe_step. apply log_each_safe. Qed.

Lemma createErrorResponse_safe w executionId status message startTime :
  safe (CodeExecutionService.createErrorResponse w executionId status message startTime).
Proof. unfold CodeExecutionService.createErrorResponse. repeat safe_step. Qed.

Lemma service_executeCode_safe w requestData sessionInfo userInfo :
  safe (CodeExecutionService.executeCode w requestData sessionInfo userInfo).
Proof.
  unfold CodeExecutionService.executeCode, Helpers.generateExecutionId.
  repeat safe_step. apply createErrorResponse_safe.
Qed.

End NeverThrows.

(* ===================================================================== *)
(** * Strings                                                             *)
(* ===================================================================== *)

Section Strings.
Import JsString.

Lemma list_ascii_append s t : list_ascii_of_string (s ++ t) = (list_ascii_of_string s ++ list_ascii_of_string t)%list.
Proof. induction s as [|c s IH]; simpl; [reflexivity | now rewrite IH]. Qed.

Lemma rev_onto_chars s : forall acc,
  list_ascii_of_string (rev_onto s acc) = (List.rev (list_ascii_of_string s) ++ list_ascii_of_string acc)%list.
Proof.
  induction s as [|c s IH]; intros acc; simpl; [reflexivity|].
  rewrite IH. simpl. now rewrite <- app_assoc.
Qed.

Lemma rev_chars s : list_ascii_of_string (rev s) = List.rev (list_ascii_of_string s).
Proof. unfold rev. rewrite rev_onto_chars. simpl. now rewrite app_nil_r. Qed.

Lemma chars_inj s t : list_ascii_of_string s = list_ascii_of_string t -> s = t.
Proof.
  intros H. rewrite <- (string_of_list_ascii_of_string s),
              <- (string_of_list_ascii_of_string t). now rewrite H.
Qed.

Lemma rev_involutive s : rev (rev s) = s.
Proof. apply chars_inj. now rewrite !rev_chars, List.rev_involutive. Qed.

Lemma trimStart_chars s : list_ascii_of_string (trimStart s) = drop_spaces (list_ascii_of_string s).
Proof.
  induction s as [|c s IH]; simpl; [reflexivity|].
  destruct (is_space c); [exact IH | reflexivity].
Qed.

Lemma drop_spaces_all l : forallb is_space l = true -> drop_spaces l = [].
Proof.
  induction l as [|c l IH]; simpl; [reflexivity|].
  intros H. apply andb_prop in H as [Hc Hl]. rewrite Hc. auto.
Qed.

Lemma drop_spaces_incl l : incl (drop_spaces l) l.
Proof.
  induction l as [|c l IH]; simpl; [apply incl_refl|].
  destruct (is_space c); [apply incl_tl, IH | apply incl_refl].
Qed.

Lemma drop_spaces_idempotent l : drop_spaces (drop_spaces l) = drop_spaces l.
Proof.
  induction l as [|c l IH]; simpl; [reflexivity|].
  destruct (is_space c) eqn:E; [exact IH | simpl; now rewrite E].
Qed.

(** Leading spaces go, the rest stays: a text that ends with a unit that
    is not a space keeps ending with it. *)
Lemma drop_spaces_last l c :
  is_space c = false -> exists l', drop_spaces (l ++ [c]) = (l' ++ [c])%list.
Proof.
  intros Hc. induction l as [|d l IH]; simpl.
  - rewrite Hc. now exists [].
  - destruct (is_space d); [exact IH | now exists (d :: l)].
Qed.

Lemma trimEnd_chars s : list_ascii_of_string (trimEnd s) = List.rev (drop_spaces (List.rev (list_ascii_of_string s))).
Proof. unfold trimEnd. now rewrite rev_chars, trimStart_chars, rev_chars. Qed.

Lemma trim_chars s :
  list_ascii_of_string (trim s) = List.rev (drop_spaces (List.rev (drop_spaces (list_ascii_of_string s)))).
Proof. unfold trim. now rewrite trimEnd_chars, trimStart_chars. Qed.

Lemma trim_blank s : forallb is_space (list_ascii_of_string s) = true -> trim s = "".
Proof.
  intros H. apply chars_inj. rewrite trim_chars, (drop_spaces_all _ H). reflexivity.
Qed.

Lemma trimEnd_incl s : incl (list_ascii_of_string (trimEnd s)) (list_ascii_of_string s).
Proof.
  rewrite trimEnd_chars. intros c Hc. apply in_rev in Hc.
  apply drop_spaces_incl in Hc. now apply in_rev in Hc.
Qed.

Lemma trimStart_incl s : incl (list_ascii_of_string (trimStart s)) (list_ascii_of_string s).
Proof. rewrite trimStart_chars. apply drop_spaces_incl. Qed.

Lemma trim_incl s : incl (list_ascii_of_string (trim s)) (list_ascii_of_string s).
Proof.
  unfold trim. intros c Hc. now apply trimStart_incl, trimEnd_incl.
Qed.

(** A trimmed text has nothing left to trim. *)
Lemma trim_idempotent s : trim (trim s) = trim s.
Proof.
  apply chars_inj. rewrite (trim_chars (trim s)), trim_chars.
  set (body := drop_spaces (list_ascii_of_string s)).
  assert (Hbody : drop_spaces body = body) by apply drop_spaces_idempotent.
  destruct body as [|c body'] eqn:Eb; [reflexivity|].
  assert (Hc : is_space c = false).
  { simpl in Hbody. destruct (is_space c) eqn:E; [|reflexivity].
    exfalso.
    assert (Hlen : List.length (drop_spaces body') <= List.length body').
    { clear. induction body' as [|d l IH]; simpl; [lia|].
      destruct (is_space d); simpl; lia. }
    rewrite Hbody in Hlen. simpl in Hlen. lia. }
  cbn [List.rev].
  set (X := (List.rev body' ++ [c])%list).
  destruct (drop_spaces_last (List.rev body') c Hc) as (l' & Hl'). fold X in Hl'.
  rewrite Hl', rev_app_distr. cbn [List.rev app drop_spaces]. rewrite Hc.
  cbn [List.rev]. rewrite List.rev_involutive, <- Hl', drop_spaces_idempotent, Hl'.
  rewrite rev_app_distr. reflexivity.
Qed.

End Strings.

(* ===================================================================== *)
(** * What a pattern finds                                                *)
(* ===================================================================== *)

Section Literals.
Import JsString JsRegExp.

Lemma includes_somewhere t s : includes t s = somewhere (prefix t) s.
Proof.
  induction s as [|c s IH]; cbn [includes somewhere].
  - destruct (prefix t ""); reflexivity.
  - rewrite IH. destruct (prefix t (String c s)); reflexivity.
Qed.

Lemma includes_toLowerCase_somewhere t s :
  includes t (toLowerCase s) = somewhere (fun rest => prefix t (toLowerCase rest)) s.
Proof.
  induction s as [|c s IH]; cbn [includes somewhere toLowerCase].
  - destruct (prefix t ""); reflexivity.
  - rewrite IH. destruct (prefix t (String (lower c) (toLowerCase s))); reflexivity.
Qed.

(** The search succeeds exactly where the pattern matches at some index. *)
Lemma search_somewhere r (P : string -> bool) :
  (forall prev rest pos, match_here r prev rest pos <> None <-> P rest = true) ->
  forall s prev pos, search r prev s pos <> None <-> somewhere P s = true.
Proof.
  intros Hr. induction s as [|c s IH]; intros prev pos; cbn [search somewhere].
  - specialize (Hr prev "" pos).
    destruct (match_here r prev "" pos); destruct (P ""); cbn [orb];
      intuition (try discriminate; try congruence).
  - specialize (Hr prev (String c s) pos). specialize (IH (Some c) (S pos)).
    destruct (match_here r prev (String c s) pos); destruct (P (String c s)); cbn [orb];
      intuition (try discriminate; try congruence).
Qed.

Lemma test_fresh_somewhere r (P : string -> bool) s :
  (forall prev rest pos, match_here r prev rest pos <> None <-> P rest = true) ->
  test_fresh r s = somewhere P s.
Proof.
  intros Hr. pose proof (search_somewhere r P Hr s None 0) as H.
  unfold test_fresh, test_global, exec_global. cbn [seek].
  destruct (search r None s 0) as [[i st]|]; cbn [fst];
    destruct (somewhere P s); intuition (try discriminate; try congruence).
Qed.

Lemma run_lit_inv t : forall st k,
  run (lit t) st k <> None -> prefix t (ms_rest st) = true.
Proof.
  induction t as [|c t IH]; intros st k H; cbn [lit run] in *.
  - now destruct (ms_rest st).
  - destruct st as [prev rest pos caps]. cbn [ms_rest] in *.
    destruct rest as [|x rest]; [contradiction|]. cbn [prefix].
    unfold only in H. destruct (Ascii.eqb_spec x c) as [->|]; [|contradiction].
    destruct (ascii_dec c c); [|contradiction].
    apply (IH _ _ H).
Qed.

Lemma match_here_lit t prev rest pos :
  match_here (lit t) prev rest pos <> None <-> prefix t rest = true.
Proof.
  split.
  - intros H. apply (run_lit_inv t _ _ H).
  - intros H. apply run_lit; [discriminate | exact H].
Qed.

Lemma test_fresh_lit_includes t s : test_fresh (lit t) s = includes t s.
Proof.
  rewrite includes_somewhere. apply test_fresh_somewhere, match_here_lit.
Qed.

(** Below 256 nothing but the letters A-Z has a lower case below 128. *)
Lemma lower_below_128 x : (code (lower x) <? 128) = true -> (code x <? 128) = true.
Proof.
  destruct x as [[] [] [] [] [] [] [] []]; vm_compute; intros H; first [reflexivity | discriminate].
Qed.

Lemma is_ci_plain c x :
  Ascii.eqb (lower c) c && (code c <? 128) = true ->
  is_ci c x = Ascii.eqb (lower x) c.
Proof.
  intros H. apply andb_prop in H as [Hc H128]. apply Ascii.eqb_eq in Hc.
  unfold is_ci. rewrite Hc.
  destruct (Ascii.eqb_spec (lower x) c) as [E|]; [|reflexivity].
  cbn [andb]. apply lower_below_128. now rewrite E.
Qed.

Lemma run_lit_ci_inv t : forall st k,
  plain t = true ->
  run (lit_ci t) st k <> None -> prefix t (toLowerCase (ms_rest st)) = true.
Proof.
  unfold plain.
  induction t as [|c t IH]; intros st k Hplain H; cbn [lit_ci run] in *.
  - now destruct (toLowerCase (ms_rest st)).
  - destruct st as [prev rest pos caps]. cbn [ms_rest] in *.
    cbn [list_ascii_of_string forallb] in Hplain.
    apply andb_prop in Hplain as [Hc Ht].
    destruct rest as [|x rest]; [contradiction|]. cbn [toLowerCase prefix].
    rewrite (is_ci_plain c x Hc) in H.
    destruct (Ascii.eqb_spec (lower x) c) as [E|]; [|contradiction].
    rewrite E. destruct (ascii_dec c c); [|contradiction].
    apply (IH _ _ Ht H).
Qed.

Lemma run_lit_ci_plain t : forall st k,
  plain t = true ->
  (forall st', k st' <> None) ->
  prefix t (toLowerCase (ms_rest st)) = true ->
  run (lit_ci t) st k <> None.
Proof.
  unfold plain.
  induction t as [|c t IH]; intros st k Hplain Hk Hprefix; cbn [lit_ci run].
  - apply Hk.
  - destruct st as [prev rest pos caps]. cbn [ms_rest] in *.
    cbn [list_ascii_of_string forallb] in Hplain.
    apply andb_prop in Hplain as [Hc Ht].
    destruct rest as [|x rest]; cbn [toLowerCase prefix] in Hprefix; [discriminate|].
    rewrite (is_ci_plain c x Hc).
    destruct (ascii_dec c (lower x)) as [->|]; [|discriminate].
    rewrite Ascii.eqb_refl. apply IH; auto.
Qed.

Lemma match_here_lit_ci t prev rest pos :
  plain t = true ->
  match_here (lit_ci t) prev rest pos <> None <-> prefix t (toLowerCase rest) = true.
Proof.
  intros Hplain. split.
  - intros H. apply (run_lit_ci_inv t _ _ Hplain H).
  - intros H. apply run_lit_ci_plain; [exact Hplain | discriminate | exact H].
Qed.

(** Under the [i] flag a literal is found where the lower-cased text
    includes it. *)
Lemma test_fresh_lit_ci_includes t s :
  plain t = true -> test_fresh (lit_ci t) s = includes t (toLowerCase s).
Proof.
  intros Hplain. rewrite includes_toLowerCase_somewhere.
  apply test_fresh_somewhere. intros prev rest pos. now apply match_here_lit_ci.
Qed.

Lemma test_fresh_chr_exists (p : ascii -> bool) s :
  test_fresh (Chr p) s = existsb p (list_ascii_of_string s).
Proof.
  rewrite (test_fresh_somewhere _
             (fun rest => match rest with String c _ => p c | EmptyString => false end)).
  - induction s as [|c s IH]; cbn [somewhere list_ascii_of_string existsb];
      [reflexivity | now rewrite IH].
  - intros prev rest pos. unfold match_here. cbn [run ms_rest].
    destruct rest as [|c rest]; [intuition congruence|].
    destruct (p c); intuition (try discriminate; try congruence).
Qed.

Lemma includes_unit c s :
  includes (str1 c) s = existsb (Ascii.eqb c) (list_ascii_of_string s).
Proof.
  induction s as [|x s IH]; cbn [includes list_ascii_of_string existsb]; [reflexivity|].
  rewrite IH. unfold str1. cbn [prefix].
  destruct (ascii_dec c x) as [->|Hne].
  - rewrite Ascii.eqb_refl. now destruct s.
  - apply Ascii.eqb_neq in Hne. now rewrite Hne.
Qed.

End Literals.

(* ===================================================================== *)
(** * The shared patterns of the Screener                                 *)
(* ===================================================================== *)

Section SharedPatterns.
Import Constants JsString JsRegExp Effects SecurityService.

(** A search that starts further on finds nothing that a search from
    the start would not find. *)
Lemma search_seek r : forall n s prev pos prev' rest,
  seek n prev s = Some (prev', rest) ->
  search r prev' rest (pos + n) <> None ->
  search r prev s pos <> None.
Proof.
  induction n as [|n IH]; intros s prev pos prev' rest Hseek Hsearch.
  - cbn in Hseek. injection Hseek as <- <-. now rewrite Nat.add_0_r in Hsearch.
  - destruct s as [|c s]; [discriminate|]. cbn [seek] in Hseek.
    cbn [search]. destruct (match_here r prev (String c s) pos); [discriminate|].
    apply (IH s (Some c) (S pos) prev' rest Hseek).
    now replace (pos + S n) with (S pos + n) in Hsearch by lia.
Qed.

(** A shared pattern that reports a match, whatever its [lastIndex],
    matches the text. *)
Lemma test_global_sound r lastIndex s :
  fst (test_global r lastIndex s) = true -> test_fresh r s = true.
Proof.
  unfold test_global, exec_global. intros H.
  apply test_fresh_search.
  destruct (seek lastIndex None s) as [[prev rest]|] eqn:Hseek; [|discriminate].
  apply (search_seek r lastIndex s None 0 prev rest Hseek). cbn [Nat.add].
  destruct (search r prev rest lastIndex) as [[i st]|]; [discriminate | discriminate].
Qed.

Lemma test_global_fresh r s : fst (test_global r 0 s) = test_fresh r s.
Proof. reflexivity. Qed.

(** A failed test leaves the pattern at the start. *)
Lemma test_global_reset r lastIndex s :
  fst (test_global r lastIndex s) = false -> snd (test_global r lastIndex s) = 0.
Proof.
  unfold test_global, exec_global.
  destruct (seek lastIndex None s) as [[prev rest]|]; [|reflexivity].
  destruct (search r prev rest lastIndex) as [[i st]|]; [discriminate | reflexivity].
Qed.

Lemma test_patterns_sound patterns code : forall lastIndexes source,
  In source (fst (test_patterns patterns lastIndexes code)) ->
  In source (fst (test_patterns patterns [] code)).
Proof.
  induction patterns as [|[source' pattern] patterns IH]; intros lastIndexes source;
    cbn [test_patterns]; [auto|].
  pose proof (test_global_sound pattern (hd 0 lastIndexes) code) as Hsound.
  pose proof (test_global_fresh pattern code) as Hfresh.
  cbn [hd tl].
  destruct (test_global pattern (hd 0 lastIndexes) code) as [found li].
  destruct (test_global pattern 0 code) as [found0 li0].
  specialize (IH (tl lastIndexes) source).
  destruct (test_patterns patterns (tl lastIndexes) code) as [hits lis].
  destruct (test_patterns patterns [] code) as [hits0 lis0].
  cbn [fst snd] in *.
  destruct found.
  - rewrite Hfresh, (Hsound eq_refl). intros [H|H]; [now left | right; auto].
  - intros H. destruct found0; [right|]; auto.
Qed.

Lemma test_patterns_zeros patterns code : forall n,
  test_patterns patterns (repeat 0 n) code = test_patterns patterns [] code.
Proof.
  induction patterns as [|[source pattern] patterns IH]; intros n; cbn [test_patterns];
    [reflexivity|].
  destruct n as [|n]; [reflexivity|]. cbn [repeat hd tl]. now rewrite IH.
Qed.

Lemma test_patterns_reset patterns code : forall lastIndexes,
  fst (test_patterns patterns lastIndexes code) = [] ->
  snd (test_patterns patterns lastIndexes code) = repeat 0 (List.length patterns).
Proof.
  induction patterns as [|[source pattern] patterns IH]; intros lastIndexes;
    cbn [test_patterns]; [reflexivity|].
  pose proof (test_global_reset pattern (hd 0 lastIndexes) code) as Hreset.
  destruct (test_global pattern (hd 0 lastIndexes) code) as [found li].
  specialize (IH (tl lastIndexes)).
  destruct (test_patterns patterns (tl lastIndexes) code) as [hits lis].
  cbn [fst snd] in *. destruct found; [discriminate|].
  intros H. cbn [List.length repeat]. now rewrite (Hreset eq_refl), (IH H).
Qed.

End SharedPatterns.

Section ScreenerVerdicts.
Import Constants JsString JsRegExp Effects SecurityService.

Lemma Val_inj {A} (a b : A) : Val a = Val b -> a = b.
Proof. intros H. now injection H. Qed.

(** The checks of one language, as the reasons they add. *)
Lemma language_checks_add code language :
  exists extra, forall errors,
    (if String.eqb language "python" then validatePythonCode code errors
     else if String.eqb language "javascript" then validateJavaScriptCode code errors
     else if String.eqb language "cpp" then validateCppCode code errors
     else if String.eqb language "java" then validateJavaCode code errors
     else errors) = (errors ++ extra)%list.
Proof.
  unfold validatePythonCode, validateJavaScriptCode, validateCppCode, validateJavaCode.
  repeat match goal with |- context [if ?b then _ else _] => destruct b end;
    try (eexists; intros errors; reflexivity).
  exists []. intros errors. now rewrite app_nil_r.
Qed.

Lemma is_empty_nil {A} (l : list A) : is_empty l = true <-> l = [].
Proof. destruct l; split; intros H; first [reflexivity | discriminate]. Qed.

Lemma validateCode_verdict code language :
  (String.length (trim code) =? 0) = false ->
  exists extra, forall st,
    validateCode code language st
    = (Val {| isValid :=
                is_empty (reasons code
                            (fst (test_patterns FORBIDDEN_PATTERNS (lastIndex st) code))
                            extra);
              errors :=
                reasons code
                  (fst (test_patterns FORBIDDEN_PATTERNS (lastIndex st) code)) extra |},
       Build_State
         (trace st
            ++ repeat (Log LogWarn "Forbidden pattern detected")
                 (List.length
                    (fst (test_patterns FORBIDDEN_PATTERNS (lastIndex st) code))))
         (snd (test_patterns FORBIDDEN_PATTERNS (lastIndex st) code))
         (ticks st) (activeContainers st)).
Proof.
  intros Hblank.
  destruct (language_checks_add code language) as (extra & Hextra).
  exists extra. intros st. unfold validateCode. rewrite Hblank.
  unfold bind, get_lastIndex, set_lastIndex. cbn [fst snd].
  destruct (test_patterns FORBIDDEN_PATTERNS (lastIndex st) code) as [hits indexes].
  cbn [fst snd]. rewrite log_each_run. unfold ret, append_trace.
  cbn [fst snd trace lastIndex ticks activeContainers].
  rewrite Hextra, <- app_assoc. reflexivity.
Qed.

(** X4.  Whatever earlier calls left in the shared patterns, a call of
    [validateCode] gives no reason that a call on a fresh process would
    not give for the same code and language; so a code the fresh
    Screener accepts is accepted in every state. *)
Theorem every_reason_is_a_reason_of_the_fresh_screener code language st verdict :
  fst (validateCode code language st) = Val verdict ->
  exists fresh,
    fst (validateCode code language initial) = Val fresh /\
    incl (errors verdict) (errors fresh) /\
    (isValid fresh = true -> isValid verdict = true).
Proof.
  intros Hrun.
  destruct (String.length (trim code) =? 0) eqn:Hblank.
  - unfold validateCode in *. rewrite Hblank in *. cbn [ret fst] in *.
    injection Hrun as <-. eexists. split; [reflexivity|].
    split; [apply incl_refl | auto].
  - destruct (validateCode_verdict code language Hblank) as (extra & Hany).
    rewrite (Hany st) in Hrun. rewrite (Hany initial). cbn [fst] in *.
    apply Val_inj in Hrun. subst verdict.
    eexists. split; [reflexivity|]. cbn [errors isValid initial lastIndex].
    set (hits := fst (test_patterns FORBIDDEN_PATTERNS (lastIndex st) code)).
    set (hits0 := fst (test_patterns FORBIDDEN_PATTERNS [] code)).
    assert (Hincl : incl (reasons code hits extra) (reasons code hits0 extra)).
    { unfold reasons.
      apply incl_app; [apply incl_appl, incl_refl|].
      apply incl_appr, incl_app; [|apply incl_appr, incl_refl].
      apply incl_appl. intros e He. apply in_map_iff in He as (source & <- & Hin).
      apply in_map, (test_patterns_sound _ _ _ _ Hin). }
    split; [exact Hincl|].
    rewrite !is_empty_nil. intros Hfresh. rewrite Hfresh in Hincl.
    now apply incl_l_nil.
Qed.

(** X5.  A call of [validateCode] that accepts its code leaves every
    shared pattern at index 0: the next call answers as the first call
    of a fresh process would. *)
Theorem an_accepting_call_leaves_the_screener_fresh
        code language st verdict st' code2 language2 :
  validateCode code language st = (Val verdict, st') ->
  isValid verdict = true ->
  fst (validateCode code2 language2 st') = fst (validateCode code2 language2 initial).
Proof.
  intros Hrun Hvalid.
  destruct (String.length (trim code) =? 0) eqn:Hblank.
  { unfold validateCode in Hrun. rewrite Hblank in Hrun.
    injection Hrun as <- _. discriminate. }
  destruct (validateCode_verdict code language Hblank) as (extra & Hany).
  rewrite (Hany st) in Hrun.
  remember (test_patterns FORBIDDEN_PATTERNS (lastIndex st) code) as tested eqn:Htested.
  injection Hrun as <- <-.
  cbn [isValid] in Hvalid. apply is_empty_nil in Hvalid. unfold reasons in Hvalid.
  apply app_eq_nil in Hvalid as [_ Hvalid]. apply app_eq_nil in Hvalid as [Hhits _].
  apply map_eq_nil in Hhits.
  assert (Hreset : snd tested = repeat 0 (List.length FORBIDDEN_PATTERNS)).
  { subst tested. apply test_patterns_reset. exact Hhits. }
  destruct (String.length (trim code2) =? 0) eqn:Hblank2.
  { unfold validateCode. rewrite Hblank2. reflexivity. }
  destruct (validateCode_verdict code2 language2 Hblank2) as (extra2 & Hany2).
  rewrite !Hany2. cbn [fst lastIndex initial].
  rewrite Hreset, test_patterns_zeros. reflexivity.
Qed.

End ScreenerVerdicts.

Section Edges.
Import Constants JsString JsRegExp Effects SecurityService.

(** X6.  A code made of white space only (the empty code included) is
    rejected with the single reason "Code cannot be empty", for every
    language and in every state, and the call changes nothing: no
    pattern is tried and nothing is logged. *)
Theorem blank_code_is_rejected_as_empty code language st :
  forallb is_space (list_ascii_of_string code) = true ->
  validateCode code language st
  = (Val {| isValid := false; errors := ["Code cannot be empty"] |}, st).
Proof.
  intros Hblank. unfold validateCode.
  rewrite (trim_blank code Hblank). reflexivity.
Qed.

(** X7.  A code that [validateCode] accepts, in whatever state, holds at
    most [MAX_CODE_LENGTH] units and at least one unit that is no white
    space. *)
Theorem an_accepted_code_is_neither_blank_nor_too_long code language st verdict :
  fst (validateCode code language st) = Val verdict ->
  isValid verdict = true ->
  (length code <= MAX_CODE_LENGTH)%Z /\
  trim code <> "" /\
  existsb (fun c => negb (is_space c)) (list_ascii_of_string code) = true.
Proof.
  intros Hrun Hvalid.
  destruct (String.length (trim code) =? 0) eqn:Hblank.
  { unfold validateCode in Hrun. rewrite Hblank in Hrun. injection Hrun as <-.
    discriminate. }
  destruct (validateCode_verdict code language Hblank) as (extra & Hany).
  rewrite (Hany st) in Hrun. cbn [fst] in Hrun. apply Val_inj in Hrun. subst verdict.
  cbn [isValid] in Hvalid.
  apply is_empty_nil in Hvalid. unfold reasons, length_error in Hvalid.
  split; [|split].
  - destruct (length code >? MAX_CODE_LENGTH)%Z eqn:E; [discriminate|].
    rewrite Z.gtb_ltb in E. now apply Z.ltb_ge in E.
  - intros Hempty. now rewrite Hempty in Hblank.
  - destruct (existsb (fun c => negb (is_space c)) (list_ascii_of_string code)) eqn:E;
      [reflexivity|].
    rewrite trim_blank in Hblank; [discriminate|].
    apply forallb_forall. intros c Hc.
    destruct (is_space c) eqn:Ec; [reflexivity|].
    assert (Hex : existsb (fun c => negb (is_space c)) (list_ascii_of_string code) = true).
    { apply existsb_exists. exists c. split; [exact Hc|]. rewrite Ec. reflexivity. }
    now rewrite Hex in E.
Qed.

End Edges.

(* ===================================================================== *)
(** * The input validator                                                 *)
(* ===================================================================== *)

Section InputVerdict.
Import Constants JsString JsRegExp Effects SecurityService.

Lemma maliciousPatterns_exact input :
  existsb (fun pattern => test_fresh pattern input) maliciousPatterns
  = includes (str1 NUL) input || includes "../" input
    || (includes "<" input || includes ">" input)
    || includes "javascript:" (toLowerCase input)
    || includes "data:" (toLowerCase input).
Proof.
  unfold maliciousPatterns. cbn [existsb].
  rewrite !test_fresh_lit_includes, !test_fresh_lit_ci_includes by reflexivity.
  rewrite test_fresh_chr_exists.
  change "<" with (str1 "<"%char). change ">" with (str1 ">"%char).
  rewrite !includes_unit, orb_false_r, <- !orb_assoc.
  f_equal. f_equal. rewrite !orb_assoc. f_equal. f_equal.
  induction (list_ascii_of_string input) as [|c l IH]; cbn [existsb]; [reflexivity|].
  rewrite IH. rewrite (Ascii.eqb_sym c "<"), (Ascii.eqb_sym c ">").
  destruct ("<" =? c)%char, (">" =? c)%char, (existsb (Ascii.eqb "<") l),
    (existsb (Ascii.eqb ">") l); reflexivity.
Qed.

(** X8.  [validateInput] accepts an input exactly when it holds at most
    [MAX_INPUT_LENGTH] units, no NUL, no "../", no [<], no [>] and, in
    whatever case of the letters, neither "javascript:" nor "data:". *)
Theorem validateInput_accepts_exactly_the_plain_inputs input :
  isValid (validateInput input) = true <->
  (length input <= MAX_INPUT_LENGTH)%Z /\
  includes (str1 NUL) input = false /\
  includes "../" input = false /\
  includes "<" input = false /\
  includes ">" input = false /\
  includes "javascript:" (toLowerCase input) = false /\
  includes "data:" (toLowerCase input) = false.
Proof.
  unfold validateInput. rewrite maliciousPatterns_exact.
  destruct (length input >? MAX_INPUT_LENGTH)%Z eqn:Hlength.
  - apply Z.gtb_lt in Hlength. split.
    + intros H. exfalso. revert H.
      match goal with |- context [if ?b then _ else _] => destruct b end; discriminate.
    + intros [H _]. lia.
  - rewrite Z.gtb_ltb in Hlength. apply Z.ltb_ge in Hlength.
    destruct (includes (str1 NUL) input), (includes "../" input), (includes "<" input),
      (includes ">" input), (includes "javascript:" (toLowerCase input)),
      (includes "data:" (toLowerCase input)); cbn [orb isValid is_empty app];
      intuition (try discriminate; try congruence).
Qed.

End InputVerdict.

(* ===================================================================== *)
(** * The sanitizers                                                      *)
(* ===================================================================== *)

Section Replacing.
Import JsString JsRegExp.

(** A replacement writes units of the text and units of the
    replacement, nothing else. *)
Lemma replace_from_units r by_ : forall s skip prev pos x,
  In x (list_ascii_of_string (replace_from r by_ skip prev s pos)) ->
  In x (list_ascii_of_string by_) \/ In x (list_ascii_of_string s).
Proof.
  induction s as [|c s IH]; intros skip prev pos x; cbn [replace_from].
  - intros [].
  - destruct skip as [|skip].
    + destruct (match_here r prev (String c s) pos) as [st|].
      * rewrite list_ascii_append. intros H. apply in_app_or in H as [H|H]; [now left|].
        apply IH in H as [H|H]; [now left | right; now right].
      * cbn [list_ascii_of_string]. intros [<-|H]; [right; now left|].
        apply IH in H as [H|H]; [now left | right; now right].
    + intros H. apply IH in H as [H|H]; [now left | right; now right].
Qed.

Lemma replace_all_units r by_ s x :
  In x (list_ascii_of_string (replace_all r by_ s)) ->
  In x (list_ascii_of_string by_) \/ In x (list_ascii_of_string s).
Proof. apply replace_from_units. Qed.

(** Replacing every match of a one-unit literal leaves none of that
    unit, unless the replacement brings it. *)
Lemma replace_from_removes c by_ : forall s skip prev pos,
  In c (list_ascii_of_string (replace_from (lit (str1 c)) by_ skip prev s pos)) ->
  In c (list_ascii_of_string by_).
Proof.
  induction s as [|x s IH]; intros skip prev pos; cbn [replace_from].
  - intros [].
  - destruct skip as [|skip]; [|apply IH].
    unfold match_here. cbn [str1 lit run ms_rest]. unfold only.
    destruct (Ascii.eqb_spec x c) as [->|Hne].
    + rewrite list_ascii_append. intros H. apply in_app_or in H as [H|H]; [exact H|].
      apply (IH _ _ _ H).
    + cbn [list_ascii_of_string]. intros [E|H]; [now destruct Hne|].
      apply (IH _ _ _ H).
Qed.

Lemma replace_all_removes c by_ s :
  In c (list_ascii_of_string (replace_all (lit (str1 c)) by_ s)) ->
  In c (list_ascii_of_string by_).
Proof. apply replace_from_removes. Qed.

(** The pieces of a split and the units of a join. *)
Lemma split_acc_units sep : forall s cur piece x,
  In piece (split_acc sep s cur) -> In x (list_ascii_of_string piece) ->
  In x (list_ascii_of_string cur) \/ In x (list_ascii_of_string s).
Proof.
  induction s as [|c s IH]; intros cur piece x; cbn [split_acc].
  - intros [<-|[]] Hx. rewrite rev_chars in Hx. apply in_rev in Hx. now left.
  - destruct (Ascii.eqb c sep).
    + intros [<-|Hin] Hx.
      * rewrite rev_chars in Hx. apply in_rev in Hx. now left.
      * destruct (IH _ _ _ Hin Hx) as [[]|H]. right; now right.
    + intros Hin Hx. destruct (IH _ _ _ Hin Hx) as [[<-|H]|H].
      * right; now left.
      * now left.
      * right; now right.
Qed.

Lemma split_units sep s piece x :
  In piece (split sep s) -> In x (list_ascii_of_string piece) ->
  In x (list_ascii_of_string s).
Proof.
  intros Hin Hx. destruct (split_acc_units sep s "" piece x Hin Hx) as [[]|H]. exact H.
Qed.

Lemma join_units sep : forall pieces x,
  In x (list_ascii_of_string (join sep pieces)) ->
  In x (list_ascii_of_string sep) \/
  exists piece, In piece pieces /\ In x (list_ascii_of_string piece).
Proof.
  induction pieces as [|piece pieces IH]; intros x; cbn [join].
  - intros [].
  - destruct pieces as [|next pieces].
    + intros H. right. exists piece. split; [now left | exact H].
    + rewrite !list_ascii_append. intros H.
      apply in_app_or in H as [H|H]; [right; exists piece; split; [now left | exact H]|].
      apply in_app_or in H as [H|H]; [now left|].
      destruct (IH x H) as [Hs|(p & Hp & Hx)]; [now left|].
      right. exists p. split; [now right | exact Hx].
Qed.

End Replacing.

Section Sanitizers.
Import Constants JsString JsRegExp SecurityService.

Lemma not_includes_unit c s :
  ~ In c (list_ascii_of_string s) -> includes (str1 c) s = false.
Proof.
  intros H. rewrite includes_unit.
  destruct (existsb (Ascii.eqb c) (list_ascii_of_string s)) eqn:E; [|reflexivity].
  apply existsb_exists in E as (x & Hx & Heq). apply Ascii.eqb_eq in Heq. now subst.
Qed.

(** The units of a sanitized input: line feeds and units of the input
    other than NUL and CR. *)
Lemma sanitizeInput_units input x :
  In x (list_ascii_of_string (sanitizeInput input)) ->
  x <> NUL /\ x <> CR /\ (x = LF \/ In x (list_ascii_of_string input)).
Proof.
  unfold sanitizeInput. destruct input as [|c0 input0]; [intros []|].
  set (input := String c0 input0).
  set (s1 := replace_all re_nul "" input).
  set (s2 := replace_all re_crlf (str1 LF) s1).
  set (s3 := replace_all re_cr (str1 LF) s2).
  set (s4 := replace_all re_blank_lines (String LF (str1 LF)) s3).
  intros H. apply trim_incl in H.
  assert (U4 : forall y, In y (list_ascii_of_string s4) ->
                         y = LF \/ In y (list_ascii_of_string s3)).
  { intros y Hy. apply replace_all_units in Hy as [[<-|[<-|[]]]|Hy]; auto. }
  assert (U3 : forall y, In y (list_ascii_of_string s3) ->
                         y = LF \/ In y (list_ascii_of_string s2)).
  { intros y Hy. apply replace_all_units in Hy as [[<-|[]]|Hy]; auto. }
  assert (U2 : forall y, In y (list_ascii_of_string s2) ->
                         y = LF \/ In y (list_ascii_of_string s1)).
  { intros y Hy. apply replace_all_units in Hy as [[<-|[]]|Hy]; auto. }
  assert (U1 : forall y, In y (list_ascii_of_string s1) ->
                         In y (list_ascii_of_string input)).
  { intros y Hy. apply replace_all_units in Hy as [[]|Hy]; auto. }
  assert (N1 : ~ In NUL (list_ascii_of_string s1)).
  { intros Hn. apply (replace_all_removes NUL "" input) in Hn. destruct Hn. }
  assert (N3 : ~ In CR (list_ascii_of_string s3)).
  { intros Hn. apply (replace_all_removes CR (str1 LF) s2) in Hn.
    destruct Hn as [Hn|[]]. discriminate Hn. }
  assert (HLF_NUL : LF <> NUL) by discriminate.
  assert (HLF_CR : LF <> CR) by discriminate.
  split; [|split].
  - intros ->. apply U4 in H as [E|H]; [now symmetry in E|].
    apply U3 in H as [E|H]; [now symmetry in E|].
    apply U2 in H as [E|H]; [now symmetry in E|]. now apply N1.
  - intros ->. apply U4 in H as [E|H]; [now symmetry in E|]. now apply N3.
  - apply U4 in H as [E|H]; [now left|].
    apply U3 in H as [E|H]; [now left|].
    apply U2 in H as [E|H]; [now left|]. right. now apply U1.
Qed.

Lemma sanitizeCode_units code x :
  In x (list_ascii_of_string (sanitizeCode code)) ->
  x <> NUL /\ x <> CR /\ (x = LF \/ In x (list_ascii_of_string code)).
Proof.
  unfold sanitizeCode. destruct code as [|c0 code0]; [intros []|].
  set (code := String c0 code0).
  set (s1 := replace_all re_nul "" code).
  set (s2 := replace_all re_crlf (str1 LF) s1).
  set (s3 := replace_all re_cr (str1 LF) s2).
  set (s4 := replace_all re_blank_lines (String LF (str1 LF)) s3).
  intros H. apply trim_incl in H.
  assert (U5 : x = LF \/ In x (list_ascii_of_string s4)).
  { apply join_units in H as [[<-|[]]|(piece & Hpiece & Hx)]; [now left|].
    apply in_map_iff in Hpiece as (line & <- & Hline).
    apply trimEnd_incl in Hx. right. apply (split_units LF s4 line x Hline Hx). }
  clear H.
  assert (U4 : forall y, In y (list_ascii_of_string s4) ->
                         y = LF \/ In y (list_ascii_of_string s3)).
  { intros y Hy. apply replace_all_units in Hy as [[<-|[<-|[]]]|Hy]; auto. }
  assert (U3 : forall y, In y (list_ascii_of_string s3) ->
                         y = LF \/ In y (list_ascii_of_string s2)).
  { intros y Hy. apply replace_all_units in Hy as [[<-|[]]|Hy]; auto. }
  assert (U2 : forall y, In y (list_ascii_of_string s2) ->
                         y = LF \/ In y (list_ascii_of_string s1)).
  { intros y Hy. apply replace_all_units in Hy as [[<-|[]]|Hy]; auto. }
  assert (U1 : forall y, In y (list_ascii_of_string s1) ->
                         In y (list_ascii_of_string code)).
  { intros y Hy. apply replace_all_units in Hy as [[]|Hy]; auto. }
  assert (N1 : ~ In NUL (list_ascii_of_string s1)).
  { intros Hn. apply (replace_all_removes NUL "" code) in Hn. destruct Hn. }
  assert (N3 : ~ In CR (list_ascii_of_string s3)).
  { intros Hn. apply (replace_all_removes CR (str1 LF) s2) in Hn.
    destruct Hn as [Hn|[]]. discriminate Hn. }
  assert (HLF_NUL : LF <> NUL) by discriminate.
  assert (HLF_CR : LF <> CR) by discriminate.
  split; [|split].
  - intros ->. destruct U5 as [E|H]; [now symmetry in E|].
    apply U4 in H as [E|H]; [now symmetry in E|].
    apply U3 in H as [E|H]; [now symmetry in E|].
    apply U2 in H as [E|H]; [now symmetry in E|]. now apply N1.
  - intros ->. destruct U5 as [E|H]; [now symmetry in E|].
    apply U4 in H as [E|H]; [now symmetry in E|]. now apply N3.
  - destruct U5 as [E|H]; [now left|].
    apply U4 in H as [E|H]; [now left|].
    apply U3 in H as [E|H]; [now left|].
    apply U2 in H as [E|H]; [now left|]. right. now apply U1.
Qed.

(** X9.  The result of [sanitizeCode] holds no NUL and no carriage
    return, has no white space at either end, and every unit of it is a
    unit of the code or a line feed. *)
Theorem sanitized_code_has_no_NUL_no_CR_and_is_trimmed code :
  includes (str1 NUL) (sanitizeCode code) = false /\
  includes (str1 CR) (sanitizeCode code) = false /\
  trim (sanitizeCode code) = sanitizeCode code /\
  (forall x, In x (list_ascii_of_string (sanitizeCode code)) ->
             x = LF \/ In x (list_ascii_of_string code)).
Proof.
  split; [|split; [|split]].
  - apply not_includes_unit. intros H. now apply sanitizeCode_units in H as [H _].
  - apply not_includes_unit. intros H. now apply sanitizeCode_units in H as (_ & H & _).
  - unfold sanitizeCode. destruct code; [reflexivity | apply trim_idempotent].
  - intros x H. now apply sanitizeCode_units in H as (_ & _ & H).
Qed.

(** X10.  The result of [sanitizeInput] holds no NUL and no carriage
    return, has no white space at either end, and every unit of it is a
    unit of the input or a line feed. *)
Theorem sanitized_input_has_no_NUL_no_CR_and_is_trimmed input :
  includes (str1 NUL) (sanitizeInput input) = false /\
  includes (str1 CR) (sanitizeInput input) = false /\
  trim (sanitizeInput input) = sanitizeInput input /\
  (forall x, In x (list_ascii_of_string (sanitizeInput input)) ->
             x = LF \/ In x (list_ascii_of_string input)).
Proof.
  split; [|split; [|split]].
  - apply not_includes_unit. intros H. now apply sanitizeInput_units in H as [H _].
  - apply not_includes_unit. intros H. now apply sanitizeInput_units in H as (_ & H & _).
  - unfold sanitizeInput. destruct input; [reflexivity | apply trim_idempotent].
  - intros x H. now apply sanitizeInput_units in H as (_ & _ & H).
Qed.

End Sanitizers.

(* ===================================================================== *)
(** * Outputs the sanitizer leaves alone                                  *)
(* ===================================================================== *)

Section Output.
Import Constants JsString JsRegExp.

(** Where the pattern matches nowhere, nothing is replaced. *)
Lemma replace_from_none r by_ (P : string -> bool) :
  (forall prev rest pos, match_here r prev rest pos <> None -> P rest = true) ->
  forall s prev pos, somewhere P s = false -> replace_from r by_ 0 prev s pos = s.
Proof.
  intros Hr. induction s as [|c s IH]; intros prev pos Hs; cbn [replace_from];
    [reflexivity|].
  cbn [somewhere] in Hs. apply orb_false_elim in Hs as [Hhere Hlater].
  specialize (Hr prev (String c s) pos).
  destruct (match_here r prev (String c s) pos).
  - rewrite Hr in Hhere; [discriminate | discriminate].
  - now rewrite IH.
Qed.

Lemma replace_all_without_marker marker tail by_ s :
  includes marker s = false ->
  replace_all (Seq (lit marker) tail) by_ s = s.
Proof.
  intros H. rewrite includes_somewhere in H.
  apply (replace_from_none _ _ (prefix marker)); [|exact H].
  intros prev rest pos Hmatch. unfold match_here in Hmatch. cbn [run] in Hmatch.
  apply (run_lit_inv marker _ _ Hmatch).
Qed.

(** X11.  An output of at most 10,000 units that holds none of "/tmp/",
    "/home/" and "/var/" comes out of [sanitizeOutput] as it went in. *)
Theorem short_output_without_paths_is_unchanged output :
  (length output <= 10000)%Z ->
  includes "/tmp/" output = false ->
  includes "/home/" output = false ->
  includes "/var/" output = false ->
  Helpers.sanitizeOutput output = output.
Proof.
  intros Hlength Htmp Hhome Hvar. unfold Helpers.sanitizeOutput.
  destruct output as [|c output]; [reflexivity|].
  unfold Helpers.re_tmp, Helpers.re_home, Helpers.re_var.
  rewrite (replace_all_without_marker "/tmp/" _ _ _ Htmp).
  rewrite (replace_all_without_marker "/home/" _ _ _ Hhome).
  rewrite (replace_all_without_marker "/var/" _ _ _ Hvar).
  destruct (length (String c output) >? Helpers.sanitizeOutput_MAX_OUTPUT_LENGTH)%Z eqn:E;
    [|reflexivity].
  apply Z.gtb_lt in E. unfold Helpers.sanitizeOutput_MAX_OUTPUT_LENGTH in E. lia.
Qed.

End Output.

Section Cap.
Import Constants JsString JsRegExp.





End Cap.

(* ===================================================================== *)
(** * Memory limits                                                       *)
(* ===================================================================== *)

Section Greedy.
Import JsString JsRegExp.

Lemma after_pos d rest st : ms_pos (after d rest st) = ms_pos st + String.length d.
Proof.
  revert st. induction d as [|c d IH]; intros st; cbn [after String.length]; [lia|].
  rewrite IH. cbn [advance ms_pos]. lia.
Qed.

Lemma after_caps d rest st : ms_caps (after d rest st) = ms_caps st.
Proof.
  revert st. induction d as [|c d IH]; intros st; cbn [after]; [reflexivity|].
  now rewrite IH.
Qed.

Lemma after_rest d rest st :
  ms_rest st = d ++ rest -> ms_rest (after d rest st) = rest.
Proof.
  revert st. induction d as [|c d IH]; intros st H; cbn [after]; [exact H|].
  now apply IH.
Qed.

(** The greedy star takes the whole run when the continuation accepts
    after it. *)
Lemma star_takes_all p : forall d rest st k r,
  forallb p (list_ascii_of_string d) = true ->
  stops p rest = true ->
  k (after d rest st) = Some r ->
  star p (d ++ rest) st k = Some r.
Proof.
  induction d as [|c d IH]; intros rest st k r Hd Hrest Hk; cbn [after] in Hk.
  - cbn [append]. destruct rest as [|x rest]; cbn [star]; [exact Hk|].
    cbn [stops] in Hrest. apply negb_true_iff in Hrest. now rewrite Hrest.
  - cbn [list_ascii_of_string forallb] in Hd. apply andb_prop in Hd as [Hc Hd].
    cbn [append star]. rewrite Hc. now rewrite (IH rest _ k r Hd Hrest Hk).
Qed.

(** It fails when the continuation refuses every place it can stop at. *)
Lemma star_fails p (bad : string -> bool) : forall d rest st k,
  forallb p (list_ascii_of_string d) = true ->
  stops p rest = true ->
  ms_rest st = d ++ rest ->
  (forall st', bad (ms_rest st') = true -> k st' = None) ->
  (forall d', d' <> "" -> forallb p (list_ascii_of_string d') = true ->
              bad (d' ++ rest) = true) ->
  bad rest = true ->
  star p (d ++ rest) st k = None.
Proof.
  induction d as [|c d IH]; intros rest st k Hd Hrest Hst Hk Hbad Hbad0.
  - cbn [append] in *. destruct rest as [|x rest]; cbn [star].
    + apply Hk. now rewrite Hst.
    + cbn [stops] in Hrest. apply negb_true_iff in Hrest. rewrite Hrest.
      apply Hk. now rewrite Hst.
  - pose proof Hd as Hall.
    cbn [list_ascii_of_string forallb] in Hd. apply andb_prop in Hd as [Hc Hd].
    cbn [append star]. rewrite Hc.
    rewrite (IH rest (advance c (d ++ rest) st) k Hd Hrest eq_refl Hk); [| |exact Hbad0].
    + apply Hk. rewrite Hst. apply Hbad; [discriminate | exact Hall].
    + intros d' Hne Hd'. now apply Hbad.
Qed.

End Greedy.

Section MemoryLimit.
Import JsString JsRegExp.

Lemma take_append d rest : take (String.length d) (d ++ rest) = d.
Proof. induction d as [|c d IH]; cbn; [now destruct rest | now rewrite IH]. Qed.

Lemma search_not_at_start r : forall s prev pos,
  search (Seq Bos r) prev s (S pos) = None.
Proof.
  induction s as [|c s IH]; intros prev pos; cbn [search]; unfold match_here;
    cbn [run ms_pos Nat.eqb]; [reflexivity | apply IH].
Qed.

Lemma run_plus_takes_all p d rest st k r :
  d <> "" ->
  forallb p (list_ascii_of_string d) = true ->
  stops p rest = true ->
  ms_rest st = d ++ rest ->
  k (after d rest st) = Some r ->
  run (Plus p) st k = Some r.
Proof.
  intros Hne Hd Hrest Hst Hk. destruct d as [|c d]; [contradiction|].
  cbn [list_ascii_of_string forallb] in Hd. apply andb_prop in Hd as [Hc Hd].
  unfold Plus. cbn [run]. rewrite Hst. cbn [append]. rewrite Hc.
  cbn [advance ms_rest]. cbn [after] in Hk.
  now apply star_takes_all.
Qed.

(** The limit with its digits [d], its unit and the optional [b]. *)
Lemma match_memoryLimit d unit_ b :
  d <> "" ->
  forallb is_digit (list_ascii_of_string d) = true ->
  In unit_ [""; "k"; "K"; "m"; "M"; "g"; "G"] ->
  In b [""; "b"; "B"] ->
  exists m,
    match_first Helpers.re_memoryLimit (d ++ unit_ ++ b) = Some m /\
    capture 1 m = Some d /\ capture 2 m = Some unit_.
Proof.
  intros Hne Hd Hunit Hb.
  assert (Hstop : stops is_digit (unit_ ++ b) = true).
  { cbn [In] in Hunit, Hb.
    repeat (destruct Hunit as [<-|Hunit];
            [repeat (destruct Hb as [<-|Hb]; [reflexivity|]); destruct Hb|]).
    destruct Hunit. }
  assert (Hrun : exists m,
             match_here Helpers.re_memoryLimit None (d ++ unit_ ++ b) 0 = Some m /\
             capture 1 m = Some d /\ capture 2 m = Some unit_).
  { unfold match_here, Helpers.re_memoryLimit. cbn [seqs run ms_pos Nat.eqb].
    set (st0 := MState None (d ++ unit_ ++ b) 0 []).
    match goal with |- context [run (Plus is_digit) st0 ?k] => set (K := k) end.
    assert (Hk : exists m, K (after d (unit_ ++ b) st0) = Some m /\
                           capture 1 m = Some d /\ capture 2 m = Some unit_).
    { subst K. cbv beta.
      rewrite after_pos, after_caps, (after_rest d (unit_ ++ b) st0 eq_refl).
      subst st0. cbn [ms_pos ms_caps ms_rest].
      rewrite Nat.add_0_l, Nat.sub_0_r, take_append.
      set (pos := String.length d). set (prev := ms_prev _). clearbody pos prev.
      cbn [In] in Hunit, Hb.
      repeat (destruct Hunit as [<-|Hunit];
              [repeat (destruct Hb as [<-|Hb];
                       [cbv -[Nat.sub]; rewrite ?Nat.sub_diag;
                        try replace (S pos - pos) with 1 by lia;
                        eexists; split; [reflexivity|]; split; reflexivity|]);
               destruct Hb|]).
      destruct Hunit. }
    destruct Hk as (m & Hk & H1 & H2). exists m.
    split; [|auto].
    apply (run_plus_takes_all is_digit d (unit_ ++ b) st0 K m Hne Hd Hstop eq_refl Hk). }
  destruct Hrun as (m & Hrun & H1 & H2). exists m. split; [|auto].
  unfold match_first.
  destruct (d ++ unit_ ++ b); cbn [search]; rewrite Hrun; reflexivity.
Qed.

(** X12.  For a limit written as decimal digits (a number below 2^53),
    an optional unit letter and an optional [b], in either case,
    [parseMemoryLimit] is the number times 1024 for [k], 1024^2 for [m],
    1024^3 for [g], and the number itself without a unit letter. *)
Theorem parseMemoryLimit_applies_the_unit d b :
  d <> "" ->
  forallb is_digit (list_ascii_of_string d) = true ->
  (Helpers.parseInt d < 2 ^ 53)%Z ->
  In b [""; "b"; "B"] ->
  let value := Helpers.parseInt d in
  Helpers.parseMemoryLimit (d ++ b) = value /\
  Helpers.parseMemoryLimit (d ++ "k" ++ b) = (value * 1024)%Z /\
  Helpers.parseMemoryLimit (d ++ "K" ++ b) = (value * 1024)%Z /\
  Helpers.parseMemoryLimit (d ++ "m" ++ b) = (value * 1024 * 1024)%Z /\
  Helpers.parseMemoryLimit (d ++ "M" ++ b) = (value * 1024 * 1024)%Z /\
  Helpers.parseMemoryLimit (d ++ "g" ++ b) = (value * 1024 * 1024 * 1024)%Z /\
  Helpers.parseMemoryLimit (d ++ "G" ++ b) = (value * 1024 * 1024 * 1024)%Z.
Proof.
  intros Hne Hd _ Hb value.
  assert (H : forall unit_, In unit_ [""; "k"; "K"; "m"; "M"; "g"; "G"] ->
              Helpers.parseMemoryLimit (d ++ unit_ ++ b)
              = let unit_ := toLowerCase unit_ in
                if String.eqb unit_ "k" then (value * 1024)%Z
                else if String.eqb unit_ "m" then (value * 1024 * 1024)%Z
                else if String.eqb unit_ "g" then (value * 1024 * 1024 * 1024)%Z
                else value).
  { intros unit_ Hunit.
    destruct (match_memoryLimit d unit_ b Hne Hd Hunit Hb) as (m & Hm & H1 & H2).
    unfold Helpers.parseMemoryLimit. now rewrite Hm, H1, H2. }
  repeat split.
  - apply (H ""). now left.
  - apply (H "k"). right; now left.
  - apply (H "K"). do 2 right; now left.
  - apply (H "m"). do 3 right; now left.
  - apply (H "M"). do 4 right; now left.
  - apply (H "g"). do 5 right; now left.
  - apply (H "G"). do 6 right; now left.
Qed.

End MemoryLimit.

Section Fallback.
Import JsString JsRegExp.

Lemma foreign_spec x :
  Helpers.foreign x = true ->
  is_digit x = false /\
  (is_ci "k" x || is_ci "m" x || is_ci "g" x) = false /\
  is_ci "b" x = false.
Proof.
  destruct x as [[] [] [] [] [] [] [] []]; vm_compute; intros H;
    first [discriminate H | repeat split].
Qed.

Lemma digit_spec x :
  is_digit x = true ->
  (is_ci "k" x || is_ci "m" x || is_ci "g" x) = false /\ is_ci "b" x = false.
Proof.
  destruct x as [[] [] [] [] [] [] [] []]; vm_compute; intros H;
    first [discriminate H | repeat split].
Qed.

(** What follows the digits of a limit refuses a text that goes on with
    a digit or a foreign unit. *)
Lemma unit_and_end_refuse st caps :
  (match ms_rest st with
   | String y _ => is_digit y || Helpers.foreign y
   | EmptyString => false
   end) = true ->
  run (seqs [Grp 2 (Opt (Chr (fun c => is_ci "k" c || is_ci "m" c || is_ci "g" c)));
             Opt (Chr (is_ci "b")); Eos])
      (MState (ms_prev st) (ms_rest st) (ms_pos st) caps) Some = None.
Proof.
  destruct (ms_rest st) as [|y rest]; [discriminate|]. intros Hy.
  assert (H : (is_ci "k" y || is_ci "m" y || is_ci "g" y) = false /\ is_ci "b" y = false).
  { apply orb_prop in Hy as [Hy|Hy]; [now apply digit_spec | now apply foreign_spec in Hy]. }
  destruct H as [Hunit Hb].
  cbn [seqs run Opt ms_rest ms_prev ms_pos ms_caps]. rewrite Hunit.
  cbn [ms_rest]. rewrite Hb. reflexivity.
Qed.

Lemma no_match_memoryLimit d x rest :
  forallb is_digit (list_ascii_of_string d) = true ->
  Helpers.foreign x = true ->
  match_here Helpers.re_memoryLimit None (d ++ String x rest) 0 = None.
Proof.
  intros Hd Hx. pose proof (foreign_spec x Hx) as (Hxd & _).
  unfold match_here, Helpers.re_memoryLimit.
  change (seqs [Bos; Grp 1 (Plus is_digit);
                Grp 2 (Opt (Chr (fun c => is_ci "k" c || is_ci "m" c || is_ci "g" c)));
                Opt (Chr (is_ci "b")); Eos])
    with (Seq Bos (Seq (Grp 1 (Plus is_digit))
            (seqs [Grp 2 (Opt (Chr (fun c => is_ci "k" c || is_ci "m" c || is_ci "g" c)));
                   Opt (Chr (is_ci "b")); Eos]))).
  cbn [run ms_pos Nat.eqb]. unfold Plus. cbn [run ms_rest].
  destruct d as [|c d]; cbn [append].
  - now rewrite Hxd.
  - cbn [list_ascii_of_string forallb] in Hd. apply andb_prop in Hd as [Hc Hd].
    rewrite Hc. cbn [advance ms_rest].
    apply (star_fails is_digit
             (fun s => match s with
                       | String y _ => is_digit y || Helpers.foreign y
                       | EmptyString => false
                       end)); auto.
    + cbn [stops]. now rewrite Hxd.
    + intros st' Hbad. apply unit_and_end_refuse. exact Hbad.
    + intros d' Hne Hd'. destruct d' as [|y d']; [contradiction|].
      cbn [list_ascii_of_string forallb] in Hd'. apply andb_prop in Hd' as [Hy _].
      cbn [append]. now rewrite Hy.
    + now rewrite Hx, orb_true_r.
Qed.

(** X13.  A limit in which the leading digits are followed by a unit
    that is neither a digit, nor one of [k], [m], [g], [b] in either
    case (a decimal point, a blank, a sign), and the empty limit, are
    not refused: [parseMemoryLimit] answers 128 MiB. *)
Theorem parseMemoryLimit_falls_back_to_128_MiB d x rest :
  forallb is_digit (list_ascii_of_string d) = true ->
  Helpers.foreign x = true ->
  Helpers.parseMemoryLimit (d ++ String x rest) = (128 * 1024 * 1024)%Z /\
  Helpers.parseMemoryLimit "" = (128 * 1024 * 1024)%Z.
Proof.
  intros Hd Hx. split; [|reflexivity].
  unfold Helpers.parseMemoryLimit, match_first.
  pose proof (no_match_memoryLimit d x rest Hd Hx) as Hnone.
  destruct (d ++ String x rest) as [|c s] eqn:E.
  - destruct d; discriminate.
  - cbn [search]. rewrite Hnone.
    unfold Helpers.re_memoryLimit.
    change (seqs [Bos; Grp 1 (Plus is_digit);
                  Grp 2 (Opt (Chr (fun c => is_ci "k" c || is_ci "m" c || is_ci "g" c)));
                  Opt (Chr (is_ci "b")); Eos])
      with (Seq Bos (seqs [Grp 1 (Plus is_digit);
                     Grp 2 (Opt (Chr (fun c => is_ci "k" c || is_ci "m" c || is_ci "g" c)));
                     Opt (Chr (is_ci "b")); Eos])).
    rewrite search_not_at_start. reflexivity.
Qed.

End Fallback.

(* ===================================================================== *)
(** * The class name of a Java source                                     *)
(* ===================================================================== *)

Section Captures.
Import JsString JsRegExp.

(** What holds of every result of the continuation holds of the result
    of the match. *)
Lemma star_post p (Q : mstate -> Prop) : forall rest st k res,
  (forall st' res', k st' = Some res' -> Q res') ->
  star p rest st k = Some res -> Q res.
Proof.
  induction rest as [|c rest IH]; intros st k res Hk; cbn [star]; [apply Hk|].
  destruct (p c); [|apply Hk].
  destruct (star p rest (advance c rest st) k) eqn:E.
  - intros H. injection H as <-. apply (IH _ _ _ Hk E).
  - apply Hk.
Qed.

Lemma run_post (Q : mstate -> Prop) : forall r st k res,
  (forall st' res', k st' = Some res' -> Q res') ->
  run r st k = Some res -> Q res.
Proof.
  induction r as [| p | a IHa b IHb | a IHa b IHb | p | | | | n a IHa];
    intros st k res Hk; cbn [run].
  - apply Hk.
  - destruct (ms_rest st) as [|c rest]; [discriminate|].
    destruct (p c); [apply Hk | discriminate].
  - apply IHa. intros st' res'. apply IHb, Hk.
  - destruct (run a st k) eqn:E.
    + intros H. injection H as <-. apply (IHa _ _ _ Hk E).
    + apply IHb, Hk.
  - apply star_post, Hk.
  - destruct (xorb (word_before st) (word_after st)); [apply Hk | discriminate].
  - destruct (ms_pos st =? 0); [apply Hk | discriminate].
  - destruct (ms_rest st); [apply Hk | discriminate].
  - apply IHa. intros st' res'. apply Hk.
Qed.

(** The star stops after a run of units of its class. *)
Lemma star_inv p : forall rest st k res,
  star p rest st k = Some res ->
  exists d rest', rest = d ++ rest' /\
                  forallb p (list_ascii_of_string d) = true /\
                  k (after d rest' st) = Some res.
Proof.
  induction rest as [|c rest IH]; intros st k res; cbn [star].
  - intros H. exists "", "". auto.
  - destruct (p c) eqn:Hc.
    + destruct (star p rest (advance c rest st) k) eqn:E.
      * intros H. injection H as <-.
        destruct (IH _ _ _ E) as (d & rest' & -> & Hd & Hk).
        exists (String c d), rest'. cbn [append list_ascii_of_string forallb after].
        rewrite Hc. auto.
      * intros H. exists "", (String c rest). auto.
    + intros H. exists "", (String c rest). auto.
Qed.

(** The text a group around [p+] captures, when the group ends the
    pattern: units of the class, at least one. *)
Lemma run_group_plus n p st res :
  run (Grp n (Plus p)) st Some = Some res ->
  exists text, capture n res = Some text /\ text <> "" /\
               forallb p (list_ascii_of_string text) = true.
Proof.
  unfold Plus. cbn [run].
  destruct st as [prev rest pos caps]. cbn [ms_rest].
  destruct rest as [|c rest]; [discriminate|].
  destruct (p c) eqn:Hc; [|discriminate].
  intros H. cbn [advance ms_rest] in H.
  apply star_inv in H as (d & rest' & -> & Hd & H).
  rewrite after_pos, after_caps in H. cbn [advance ms_pos ms_caps ms_rest] in H.
  replace (S pos + String.length d - pos) with (String.length (String c d)) in H
    by (cbn [String.length]; lia).
  change (String c (d ++ rest')) with (String c d ++ rest') in H.
  rewrite take_append in H.
  injection H as <-. unfold capture. cbn [ms_caps find fst]. rewrite Nat.eqb_refl.
  cbn [option_map snd].
  exists (String c d). split; [reflexivity|]. split; [discriminate|].
  cbn [list_ascii_of_string forallb]. now rewrite Hc.
Qed.

End Captures.

Section ClassName.
Import JsString JsRegExp JavaExecutor.

Lemma match_first_post r (Q : mstate -> Prop) s m :
  (forall prev rest pos res, match_here r prev rest pos = Some res -> Q res) ->
  match_first r s = Some m -> Q m.
Proof.
  intros Hr. unfold match_first.
  assert (H : forall s prev pos i res, search r prev s pos = Some (i, res) -> Q res).
  { clear s. induction s as [|c s IH]; intros prev pos i res; cbn [search].
    - destruct (match_here r prev "" pos) eqn:E; [|discriminate].
      intros H. injection H as _ <-. eapply Hr, E.
    - destruct (match_here r prev (String c s) pos) eqn:E.
      + intros H. injection H as _ <-. eapply Hr, E.
      + apply IH. }
  destruct (search r None s 0) as [[i res]|] eqn:E; [|discriminate].
  cbn [option_map snd]. intros Hm. injection Hm as <-. eapply H, E.
Qed.

(** X14.  Whatever the code, [extractClassName] is a nonempty word of
    letters, digits and underscores. *)
Theorem extractClassName_is_a_word code :
  extractClassName code <> "" /\
  forallb is_word (list_ascii_of_string (extractClassName code)) = true.
Proof.
  set (Q := fun res : mstate =>
              exists text, capture 1 res = Some text /\ text <> "" /\
                           forallb is_word (list_ascii_of_string text) = true).
  assert (Hpublic : forall prev rest pos res,
             match_here re_public_class prev rest pos = Some res -> Q res).
  { intros prev rest pos res. unfold match_here, re_public_class. cbn [seqs].
    cbn [run]. apply run_post. intros st1 res1. apply run_post. intros st2 res2.
    apply run_post. intros st3 res3. apply run_post. intros st4 res4.
    apply run_group_plus. }
  assert (Hclass : forall prev rest pos res,
             match_here re_class prev rest pos = Some res -> Q res).
  { intros prev rest pos res. unfold match_here, re_class. cbn [seqs].
    cbn [run]. apply run_post. intros st1 res1. apply run_post. intros st2 res2.
    apply run_group_plus. }
  unfold extractClassName, group.
  destruct (match_first re_public_class code) as [m|] eqn:E1.
  - destruct (match_first_post _ Q code m Hpublic E1) as (text & -> & Hne & Hword). auto.
  - destruct (match_first re_class code) as [m|] eqn:E2.
    + destruct (match_first_post _ Q code m Hclass E2) as (text & -> & Hne & Hword). auto.
    + split; [discriminate | reflexivity].
Qed.

End ClassName.

(* ===================================================================== *)
(** * The sandboxes of the languages                                      *)
(* ===================================================================== *)

Section Languages.
Import Constants JsString Effects Docker DockerService.

Lemma supported_language language :
  Helpers.validateLanguage language = true ->
  language = "python" \/ language = "javascript" \/ language = "cpp" \/ language = "java".
Proof.
  unfold Helpers.validateLanguage, SUPPORTED_LANGUAGES, PYTHON, JAVASCRIPT, CPP, JAVA.
  cbn [existsb]. rewrite orb_false_r.
  intros H. repeat (apply orb_prop in H as [H|H]); apply String.eqb_eq in H; auto.
Qed.

Lemma configured_language w language config :
  containerConfigs w language = Some config ->
  language = "python" \/ language = "javascript" \/ language = "cpp" \/ language = "java".
Proof.
  unfold containerConfigs.
  destruct (String.eqb_spec language "python"); [auto|].
  destruct (String.eqb_spec language "javascript"); [auto|].
  destruct (String.eqb_spec language "cpp"); [auto|].
  destruct (String.eqb_spec language "java"); [auto|]. discriminate.
Qed.

(** X15.  The tables of the languages agree: a language that passes
    [validateLanguage] has a sandbox in [containerConfigs];
    [generateFileName] is its entry of [LANGUAGE_MAIN_FILES], the
    sandbox works in "/app", and the last argument of its command names
    that file. *)
Theorem every_supported_language_has_a_sandbox_that_runs_its_file w language executionId :
  Helpers.validateLanguage language = true ->
  exists config,
    containerConfigs w language = Some config /\
    Helpers.getMainFileName language = Helpers.generateFileName language executionId /\
    workingDir config = "/app" /\
    includes (Helpers.generateFileName language executionId) (last (cmd config) "") = true.
Proof.
  intros H. apply supported_language in H as [-> | [-> | [-> | -> ]]];
    (eexists; split; [reflexivity|]; split; [reflexivity|]; split; [reflexivity|];
     vm_compute; reflexivity).
Qed.

(** X16.  When the environment sets none of MAX_MEMORY, MAX_CPU and
    DOCKER_TIMEOUT, the container of every language gets 128 MiB of
    memory, half a CPU (a quota of 50,000 in a period of 100,000), the
    workspace bound read-write at "/app" as its only bind, and a
    deadline of 30 s for python and javascript, 45 s for cpp and java. *)
Theorem unconfigured_sandboxes_get_128_MiB_and_half_a_CPU w language config tempDir input :
  env_MAX_MEMORY w = None ->
  env_MAX_CPU w = None ->
  env_DOCKER_TIMEOUT w = None ->
  containerConfigs w language = Some config ->
  let options := buildContainerOptions config tempDir input in
  Memory (HostConfig_ options) = (128 * 1024 * 1024)%Z /\
  CpuQuota (HostConfig_ options) = 50000%Z /\
  CpuPeriod (HostConfig_ options) = 100000%Z /\
  Binds (HostConfig_ options) = [tempDir ++ ":/app:rw"] /\
  timeout config
  = (if String.eqb language "python" || String.eqb language "javascript"
     then 30000 else 45000)%Z.
Proof.
  intros Hmemory Hcpu Htimeout Hconfig options.
  pose proof (configured_language w language config Hconfig) as [-> | [-> | [-> | -> ]]];
    cbn in Hconfig; injection Hconfig as <-; subst options;
    unfold buildContainerOptions, env_memoryLimit, env_cpuLimit, env_timeout;
    rewrite Hmemory, Hcpu, Htimeout; cbn [HostConfig_ Memory CpuQuota CpuPeriod Binds
      memoryLimit cpuLimit timeout];
    repeat split; vm_compute; reflexivity.
Qed.

End Languages.

(* ===================================================================== *)
(** * Statuses and texts of failures                                      *)
(* ===================================================================== *)

Section ErrorTexts.
Import Constants JsString DockerService.

Lemma prefix_toLowerCase t : forall s,
  prefix t s = true -> prefix (toLowerCase t) (toLowerCase s) = true.
Proof.
  induction t as [|c t IH]; intros s; cbn [toLowerCase].
  { now destruct (toLowerCase s). }
  destruct s as [|x s]; cbn [toLowerCase prefix]; [discriminate|].
  destruct (ascii_dec c x) as [->|]; [|discriminate].
  destruct (ascii_dec (lower x) (lower x)); [apply IH | contradiction].
Qed.

Lemma includes_toLowerCase t s :
  includes t s = true -> includes (toLowerCase t) (toLowerCase s) = true.
Proof.
  induction s as [|x s IH]; cbn [includes toLowerCase].
  - destruct (prefix t "") eqn:E; [|discriminate].
    apply prefix_toLowerCase in E. cbn [toLowerCase] in E. now rewrite E.
  - destruct (prefix t (String x s)) eqn:E.
    + intros _. apply prefix_toLowerCase in E. cbn [toLowerCase] in E. now rewrite E.
    + intros H. rewrite (IH H).
      now destruct (prefix (toLowerCase t) (String (lower x) (toLowerCase s))).
Qed.

(** X17.  [formatError] and [getErrorStatus] on one message: the
    timeout text is given only with the status [TIMEOUT], the memory
    text only with [MEMORY_LIMIT_EXCEEDED] or [TIMEOUT], and a failure
    whose status is [ERROR] or [COMPILATION_ERROR] keeps its message,
    after "Execution error: ". *)
Theorem the_error_text_agrees_with_the_status message :
  (formatError message
   = "Code execution timed out. Please optimize your code or reduce complexity." ->
   getErrorStatus message = TIMEOUT) /\
  (formatError message
   = "Memory limit exceeded. Please optimize your code to use less memory." ->
   getErrorStatus message = MEMORY_LIMIT_EXCEEDED \/ getErrorStatus message = TIMEOUT) /\
  (getErrorStatus message = ERROR \/ getErrorStatus message = COMPILATION_ERROR ->
   formatError message = "Execution error: " ++ message).
Proof.
  pose proof (includes_toLowerCase "timeout" message) as Htimeout.
  pose proof (includes_toLowerCase "memory" message) as Hmemory.
  change (toLowerCase "timeout") with "timeout" in Htimeout.
  change (toLowerCase "memory") with "memory" in Hmemory.
  unfold formatError, getErrorStatus.
  destruct (includes "timeout" message) eqn:Et.
  { rewrite (Htimeout eq_refl). split; [reflexivity|].
    split; [discriminate|]. intros [H|H]; discriminate H. }
  destruct (includes "memory" message) eqn:Em.
  { rewrite (Hmemory eq_refl). split; [discriminate|].
    destruct (includes "timeout" (toLowerCase message)).
    - split; [now right|]. intros [H|H]; discriminate H.
    - split; [now left|]. intros [H|H]; discriminate H. }
  split; [|split].
  - intros H. cbn in H. discriminate H.
  - intros H. cbn in H. discriminate H.
  - reflexivity.
Qed.

End ErrorTexts.

(* ===================================================================== *)
(** * The registry of running containers                                  *)
(* ===================================================================== *)

Section Registry.
Import Constants Effects Hoare DockerService.

Lemma keeps_uniform {A} (c : M A) : uniform c -> keeps c.
Proof. intros H st. rewrite (H st). reflexivity. Qed.

Lemma keeps_Date_now w : keeps (Date_now w).
Proof. intros st. reflexivity. Qed.

(** A step that leaves the table alone carries over what holds of it. *)
Lemma wp_keeps {A} (c : M A) (I : list (string * string) -> Prop)
      (Q : A -> State -> Prop) (E : string -> State -> Prop) st :
  keeps c ->
  I (activeContainers st) ->
  (forall a st', I (activeContainers st') -> Q a st') ->
  (forall m st', I (activeContainers st') -> E m st') ->
  wp c Q E st.
Proof.
  intros Hc HI HQ HE. unfold wp. specialize (Hc st).
  destruct (c st) as [[a | m |] st']; cbn [snd] in Hc; auto;
    [apply HQ | apply HE]; now rewrite Hc.
Qed.

Lemma without_idempotent executionId table :
  without executionId (without executionId table) = without executionId table.
Proof.
  unfold without. induction table as [|e table IH]; simpl; [reflexivity|].
  destruct (negb (fst e =? executionId)%string) eqn:E; simpl; rewrite ?E, IH; reflexivity.
Qed.

Lemma without_absent executionId table :
  find (fun e => String.eqb (fst e) executionId) table = None ->
  without executionId table = table.
Proof.
  unfold without. induction table as [|e table IH]; simpl; [reflexivity|].
  destruct (fst e =? executionId)%string; [discriminate|].
  intros H. simpl. now rewrite IH.
Qed.

(** [cleanupContainer] forgets the container first, whatever the daemon
    answers afterwards. *)
Lemma cleanupContainer_forgets w container executionId st :
  activeContainers (snd (cleanupContainer w container executionId st))
  = without executionId (activeContainers st).
Proof.
  unfold cleanupContainer, catch, bind, request_for, request, activeContainers_delete,
    emit, log, ret.
  simpl.
  destruct (inspect w container) as [message | [|]]; simpl; try reflexivity;
    destruct (stop w container); simpl; try reflexivity;
    destruct (remove w container); reflexivity.
Qed.

Lemma wp_cleanupContainer w container executionId
      (Q : unit -> State -> Prop) (E : string -> State -> Prop) st :
  (forall a st',
      activeContainers st' = without executionId (activeContainers st) -> Q a st') ->
  wp (cleanupContainer w container executionId) Q E st.
Proof.
  intros HQ. unfold wp.
  pose proof (cleanupContainer_forgets w container executionId st) as H.
  pose proof (cleanupContainer_returns w container executionId st) as Hr.
  destruct (cleanupContainer w container executionId st) as [[a | m |] st'];
    cbn [fst snd] in *; try discriminate.
  now apply HQ.
Qed.

Lemma createTempDirectory_uniform w executionId :
  uniform (Helpers.createTempDirectory w executionId).
Proof. unfold Helpers.createTempDirectory. repeat uniform_step. Qed.

Lemma keeps_log level message : keeps (log level message).
Proof. intros st. reflexivity. Qed.

Lemma keeps_request e answer : keeps (request e answer).
Proof. apply keeps_uniform, uniform_request. Qed.

(** The [catch] block of [executeCode] once a container exists: the
    table ends without the execution. *)
Lemma onError_forgets w executionId startTime container tempDir message
      (table : list (string * string)) (E : string -> State -> Prop) st :
  without executionId (activeContainers st) = table ->
  wp (onError w executionId startTime (Some container) tempDir message)
     (fun _ st' => activeContainers st' = table) E st.
Proof.
  intros Htable. apply (wp_safe _ _ (fun _ _ => True)); [apply onError_safe|].
  unfold onError.
  apply wp_bind, (wp_keeps _ (fun t => without executionId t = table));
    [apply keeps_log | exact Htable | | intros; exact I].
  intros _ st1 H1.
  apply wp_bind, wp_cleanupContainer. intros _ st2 H2.
  rewrite H1 in H2.
  apply wp_bind, (wp_keeps _ (fun t => t = table)); [ | exact H2 | | ].
  - destruct tempDir;
      [apply keeps_uniform, cleanupTempDirectory_uniform | intros s; reflexivity].
  - intros _ st3 H3.
    apply wp_bind, (wp_keeps _ (fun t => t = table));
      [apply keeps_Date_now | exact H3 | | intros; exact I].
    intros endTime st4 H4. exact H4.
  - intros m st3 H3. exact I.
Qed.

Lemma keeps_ret {A} (a : A) : keeps (ret a).
Proof. intros st. reflexivity. Qed.

Lemma keeps_bind {A B} (c : M A) (f : A -> M B) :
  keeps c -> (forall a, keeps (f a)) -> keeps (bind c f).
Proof.
  intros Hc Hf st. unfold bind. specialize (Hc st).
  destruct (c st) as [[a | m |] st1]; cbn [snd] in *; try exact Hc.
  now rewrite Hf.
Qed.

Lemma onError_keeps w executionId startTime tempDir message :
  keeps (onError w executionId startTime None tempDir message).
Proof.
  unfold onError.
  apply keeps_bind; [apply keeps_log | intros _].
  apply keeps_bind; [apply keeps_ret | intros _].
  apply keeps_bind; [ | intros _].
  - destruct tempDir;
      [apply keeps_uniform, cleanupTempDirectory_uniform | apply keeps_ret].
  - apply keeps_bind; [apply keeps_Date_now | intros endTime; apply keeps_ret].
Qed.

(** A run of [executeCode] that returns leaves the table of active
    containers as it found it. *)
Lemma executeCode_table w language code input executionId st :
  activeContainers_get executionId st = None ->
  wp (executeCode w language code input executionId)
     (fun _ st' => activeContainers st' = activeContainers st)
     (fun _ _ => True) st.
Proof.
  intros Habsent.
  assert (Hw : without executionId (activeContainers st) = activeContainers st).
  { apply without_absent. unfold activeContainers_get in Habsent.
    destruct (find _ (activeContainers st)); [discriminate | reflexivity]. }
  set (T := activeContainers st) in *.
  unfold executeCode.
  apply wp_bind, (wp_keeps _ (fun t => t = T));
    [apply keeps_Date_now | reflexivity | | intros; exact I].
  intros startTime st1 H1.
  destruct (containerConfigs w language) as [config|].
  2:{ apply (wp_keeps _ (fun t => t = T));
        [apply onError_keeps | exact H1 | auto | intros; exact I]. }
  apply wp_catch, (wp_keeps _ (fun t => t = T));
    [apply keeps_uniform, createTempDirectory_uniform | exact H1 | | ].
  2:{ intros m st2 H2.
      apply (wp_keeps _ (fun t => t = T));
        [apply onError_keeps | exact H2 | auto | intros; exact I]. }
  intros tempDir st2 H2.
  apply wp_catch, (wp_keeps _ (fun t => t = T)); [ | exact H2 | | ].
  { apply keeps_uniform.
    unfold Helpers.writeCodeToFile, Helpers.writeInputToFile. repeat uniform_step. }
  2:{ intros m st3 H3.
      apply (wp_keeps _ (fun t => t = T));
        [apply onError_keeps | exact H3 | auto | intros; exact I]. }
  intros container st3 H3.
  assert (Hh : forall m st', without executionId (activeContainers st') = T ->
               wp (onError w executionId startTime (Some container) (Some tempDir) m)
                  (fun _ st'' => activeContainers st'' = T) (fun _ _ => True) st').
  { intros m st' H'. now apply onError_forgets. }
  apply wp_catch, wp_bind.
  (* the container is registered *)
  unfold wp at 1. unfold activeContainers_set at 1.
  set (st4 := Build_State _ _ _ _).
  assert (H4 : without executionId (activeContainers st4) = T).
  { subst st4. cbn [activeContainers]. unfold without at 1. cbn [filter fst].
    rewrite String.eqb_refl. cbn [negb].
    fold (without executionId (activeContainers st3)).
    rewrite H3, Hw. exact Hw. }
  clearbody st4.
  apply wp_bind, (wp_keeps _ (fun t => without executionId t = T));
    [apply keeps_request | exact H4 | | intros; now apply Hh].
  intros _ st5 H5.
  apply wp_bind, (wp_keeps _ (fun t => without executionId t = T));
    [apply keeps_uniform, waitForContainerCompletion_uniform
    | exact H5 | | intros; now apply Hh].
  intros result st6 H6.
  apply wp_bind, (wp_keeps _ (fun t => without executionId t = T));
    [apply keeps_Date_now | exact H6 | | intros; now apply Hh].
  intros endTime st7 H7.
  apply wp_bind, (wp_keeps _ (fun t => without executionId t = T));
    [apply keeps_uniform, getContainerStats_uniform | exact H7 | | intros; now apply Hh].
  intros stats st8 H8.
  apply wp_bind, wp_cleanupContainer. intros _ st9 H9. rewrite H8 in H9.
  apply wp_bind, (wp_keeps _ (fun t => t = T));
    [apply keeps_uniform, cleanupTempDirectory_uniform | exact H9 | | ].
  - intros _ st10 H10. exact H10.
  - intros m st10 H10. apply Hh. now rewrite H10.
Qed.
End Registry.

(* ===================================================================== *)
(** * The workspace                                                       *)
(* ===================================================================== *)

Section Workspace.
Import Constants Effects Hoare DockerService.

Lemma anything_routine (e : Event) : routine e = true -> anything e.
Proof. intros _. exact I. Qed.

(** Once an event has happened it has happened. *)
Lemma wp_since {A} (c : M A) e st0 st :
  emits anything c ->
  since st0 e st ->
  wp c (fun _ st' => since st0 e st') (fun _ st' => since st0 e st') st.
Proof.
  intros Hc Hsince.
  apply wp_extends; [exact Hc | |]; intros; eapply since_extends; eauto.
Qed.

Lemma cleanupTempDirectory_removes w tempDir st :
  since st (Rmdir tempDir) (snd (Helpers.cleanupTempDirectory w tempDir st)).
Proof.
  unfold Helpers.cleanupTempDirectory, catch, request, log, emit, ret. cbn [fst snd].
  destruct (rmdir w tempDir) as [m|]; cbn [snd append_trace trace].
  - exists [Rmdir tempDir; Log LogWarn ("Failed to cleanup temp directory: " ++ tempDir ++ " " ++ m)].
    split; [now rewrite append_trace_app | now left].
  - exists [Rmdir tempDir]. split; [reflexivity | now left].
Qed.

(** The [catch] block of [executeCode] asks for the removal of the
    workspace whenever there is one. *)
Lemma onError_removes w executionId startTime container tempDir message st0 st :
  extends st0 st ->
  wp (onError w executionId startTime container (Some tempDir) message)
     (fun _ st' => since st0 (Rmdir tempDir) st') (fun _ _ => True) st.
Proof.
  intros Hst. unfold onError.
  apply wp_bind, wp_extends; [footprint; exact I | | intros; exact I].
  intros _ st1 H1.
  apply wp_bind, wp_extends; [ | | intros; exact I].
  { destruct container; [apply cleanupContainer_footprint, anything_routine | footprint]. }
  intros _ st2 H2.
  assert (Hx : extends st0 st2) by eauto using extends_trans.
  apply wp_bind. unfold wp at 1.
  pose proof (cleanupTempDirectory_removes w tempDir st2) as Hr.
  destruct (Helpers.cleanupTempDirectory w tempDir st2) as [[a | m |] st3];
    cbn [snd] in Hr; try exact I.
  apply wp_bind. unfold Date_now, wp, ret. cbn [fst snd].
  destruct Hx as (e1 & He1). destruct Hr as (e2 & He2 & Hin).
  exists (e1 ++ e2)%list. cbn [tick trace]. rewrite He2, He1, app_assoc.
  split; [reflexivity | apply in_or_app; now right].
Qed.

Lemma executeCode_removes_the_workspace w language code input executionId st config :
  let tempDir := Helpers.path_join (tmpdir w) ("code_exec_" ++ executionId) in
  containerConfigs w language = Some config ->
  mkdir w tempDir = None ->
  wp (executeCode w language code input executionId)
     (fun _ st' => since st (Rmdir tempDir) st') (fun _ _ => True) st.
Proof.
  intros tempDir Hconfig Hmkdir.
  unfold executeCode.
  apply wp_bind, wp_extends; [footprint | | intros; exact I].
  intros startTime st1 H1. rewrite Hconfig.
  apply wp_catch.
  unfold Helpers.createTempDirectory at 1. fold tempDir.
  apply wp_bind. unfold wp at 1, request at 1. rewrite Hmkdir. cbn [emit fst snd].
  apply wp_ret.
  set (st2 := append_trace st1 [Mkdir tempDir]).
  assert (H2 : extends st st2).
  { eapply extends_trans; [exact H1|]. exists [Mkdir tempDir]. reflexivity. }
  clearbody st2.
  apply wp_catch, wp_extends; [ | | ].
  { unfold Helpers.writeCodeToFile, Helpers.writeInputToFile. footprint; exact I. }
  2:{ intros m st3 H3. apply onError_removes. eauto using extends_trans. }
  intros container st3 H3.
  assert (Hx3 : extends st st3) by eauto using extends_trans.
  assert (Hh : forall m st', extends st st' ->
               wp (onError w executionId startTime (Some container) (Some tempDir) m)
                  (fun _ st'' => since st (Rmdir tempDir) st'') (fun _ _ => True) st').
  { intros m st' H'. now apply onError_removes. }
  apply wp_catch.
  apply wp_bind, wp_extends; [footprint | | intros; apply Hh; eauto using extends_trans].
  intros _ st4 H4. assert (Hx4 : extends st st4) by eauto using extends_trans.
  apply wp_bind, wp_extends;
    [footprint; exact I | | intros; apply Hh; eauto using extends_trans].
  intros _ st5 H5. assert (Hx5 : extends st st5) by eauto using extends_trans.
  apply wp_bind, wp_extends;
    [apply waitForContainerCompletion_footprint, anything_routine
    | | intros; apply Hh; eauto using extends_trans].
  intros result st6 H6. assert (Hx6 : extends st st6) by eauto using extends_trans.
  apply wp_bind, wp_extends; [footprint | | intros; apply Hh; eauto using extends_trans].
  intros endTime st7 H7. assert (Hx7 : extends st st7) by eauto using extends_trans.
  apply wp_bind, wp_extends;
    [apply getContainerStats_footprint, anything_routine
    | | intros; apply Hh; eauto using extends_trans].
  intros stats st8 H8. assert (Hx8 : extends st st8) by eauto using extends_trans.
  apply wp_bind, wp_extends;
    [apply cleanupContainer_footprint, anything_routine
    | | intros; apply Hh; eauto using extends_trans].
  intros _ st9 H9. assert (Hx9 : extends st st9) by eauto using extends_trans.
  apply wp_bind. unfold wp at 1.
  pose proof (cleanupTempDirectory_removes w tempDir st9) as Hr.
  pose proof (cleanupTempDirectory_returns w tempDir st9) as Hv.
  destruct (Helpers.cleanupTempDirectory w tempDir st9) as [[a | m |] st10];
    cbn [fst snd] in Hr, Hv; try discriminate.
  apply wp_ret. eapply extends_since; eauto.
Qed.

End Workspace.

(* ===================================================================== *)
(** * Waiting and killing                                                 *)
(* ===================================================================== *)

Section InTime.
Import Constants JsString Effects DockerService.




End InTime.

Section Killing.
Import Constants JsString Effects Hoare DockerService.

Lemma killContainer_succeeds w kill executionId container st :
  activeContainers_get executionId st = Some container ->
  kill container = None ->
  exists st' events,
    killContainer w kill executionId st = (Val true, st') /\
    trace st' = (trace st ++ ContainerKill container :: events)%list /\
    activeContainers_get executionId st' = None.
Proof.
  intros Hget Hkill.
  set (st1 := append_trace st [ContainerKill container]).
  pose proof (cleanupContainer_returns w container executionId st1) as Hr.
  pose proof (cleanupContainer_footprint (fun _ => True) (fun _ _ => I)
                w container executionId st1) as (events & Htrace & _).
  assert (Hforget : activeContainers (snd (cleanupContainer w container executionId st1))
                    = filter (fun e => negb (String.eqb (fst e) executionId))
                        (activeContainers st1)).
  { unfold cleanupContainer, catch, bind, request_for, request, activeContainers_delete,
      emit, log, ret.
    simpl.
    destruct (inspect w container) as [message | [|]]; simpl; try reflexivity;
      destruct (stop w container); simpl; try reflexivity;
      destruct (remove w container); reflexivity. }
  exists (snd (cleanupContainer w container executionId st1)), events.
  split; [|split].
  - unfold killContainer. rewrite Hget. unfold catch, bind, request. rewrite Hkill.
    cbn [emit fst snd]. fold st1.
    destruct (cleanupContainer w container executionId st1) as [[[] | m |] st2];
      cbn [fst snd] in *; try discriminate. reflexivity.
  - rewrite Htrace. subst st1. cbn [append_trace trace]. now rewrite <- app_assoc.
  - unfold activeContainers_get. rewrite Hforget.
    clear. induction (activeContainers st1) as [|e table IH]; cbn [filter find];
      [reflexivity|].
    destruct (String.eqb (fst e) executionId) eqn:E; cbn [negb]; [exact IH|].
    cbn [find]. now rewrite E.
Qed.

(** X19.  [killContainer] answers [false] and does nothing for an
    execution that is not registered.  For a registered one the kill
    request is the first thing it does: when the request succeeds it
    answers [true] and the execution is no longer registered, and when
    it fails it answers [false] after logging, and cleans nothing up. *)
Theorem killContainer_kills_what_is_registered w kill executionId st :
  match activeContainers_get executionId st with
  | None => killContainer w kill executionId st = (Val false, st)
  | Some container =>
      match kill container with
      | None =>
          fst (killContainer w kill executionId st) = Val true /\
          hd_error (events_of (killContainer w kill executionId) st)
          = Some (ContainerKill container) /\
          activeContainers_get executionId (snd (killContainer w kill executionId st))
          = None
      | Some _ =>
          killContainer w kill executionId st
          = (Val false,
             append_trace st [ContainerKill container;
                              Log LogError "Failed to kill container"])
      end
  end.
Proof.
  destruct (activeContainers_get executionId st) as [container|] eqn:Hget.
  2:{ unfold killContainer. now rewrite Hget. }
  destruct (kill container) as [m|] eqn:Hkill.
  - unfold killContainer. rewrite Hget.
    unfold catch, bind, request. rewrite Hkill. cbn [emit log ret fst snd].
    now rewrite append_trace_app.
  - destruct (killContainer_succeeds w kill executionId container st Hget Hkill)
      as (st' & events & Hrun & Htrace & Hgone).
    unfold events_of. rewrite Hrun. cbn [fst snd].
    split; [reflexivity|]. split; [|exact Hgone].
    rewrite Htrace, skipn_app, skipn_all, Nat.sub_diag. reflexivity.
Qed.

End Killing.

(* ===================================================================== *)
(** * After a run                                                         *)
(* ===================================================================== *)

Section AfterTheRun.
Import Constants JsString Effects Hoare DockerService.

(** X20.  When [executeCode] of the Docker service has returned for an
    execution that was not registered before, the registry of running
    containers is what it was before the call, and a [killContainer]
    for that execution answers [false] and does nothing. *)
Theorem a_finished_run_is_no_longer_registered
        w kill language code input executionId st result :
  activeContainers_get executionId st = None ->
  fst (executeCode w language code input executionId st) = Val result ->
  let st' := snd (executeCode w language code input executionId st) in
  activeContainers st' = activeContainers st /\
  killContainer w kill executionId st' = (Val false, st').
Proof.
  intros Habsent Hrun st'.
  pose proof (executeCode_table w language code input executionId st Habsent) as H.
  unfold wp in H. subst st'.
  destruct (executeCode w language code input executionId st) as [[a | m |] st'];
    cbn [fst snd] in *; try discriminate.
  split; [exact H|].
  unfold killContainer, activeContainers_get in *. rewrite H.
  destruct (find _ (activeContainers st)); [discriminate | reflexivity].
Qed.

(** X21.  For a language that has a sandbox, once the workspace has been
    created, [executeCode] of the Docker service does not return before
    it has asked for the removal of that workspace, whatever failed in
    between. *)
Theorem the_workspace_of_a_finished_run_is_removed
        w language code input executionId st config result :
  let tempDir := Helpers.path_join (tmpdir w) ("code_exec_" ++ executionId) in
  containerConfigs w language = Some config ->
  mkdir w tempDir = None ->
  fst (executeCode w language code input executionId st) = Val result ->
  In (Rmdir tempDir) (events_of (executeCode w language code input executionId) st).
Proof.
  intros tempDir Hconfig Hmkdir Hrun.
  pose proof (executeCode_removes_the_workspace w language code input executionId st config
                Hconfig Hmkdir) as H.
  unfold wp in H. apply since_events_of.
  destruct (executeCode w language code input executionId st) as [[a | m |] st'];
    cbn [fst snd] in *; try discriminate.
  exact H.
Qed.

(** X22.  Neither [executeCode] of the orchestrator nor [executeCode] of
    the Docker service ever rejects: whatever the world answers, every
    failure is turned into a result. *)
Theorem executeCode_never_rejects
        w requestData sessionInfo userInfo language code input executionId st message :
  fst (CodeExecutionService.executeCode w requestData sessionInfo userInfo st)
  <> Throw message /\
  fst (DockerService.executeCode w language code input executionId st) <> Throw message.
Proof.
  split.
  - apply service_executeCode_safe.
  - apply docker_executeCode_safe.
Qed.

End AfterTheRun.

Section KillExecution.
Import Constants JsString Effects Hoare DockerService CodeExecutionService.

(** X23.  [killExecution] looks the execution up only when a user is
    given: for a user for whom no such execution is found, it logs and
    rejects with "Execution not found or unauthorized" without touching
    a container; without a user, it kills a registered container at
    once, whoever owns the execution. *)
Theorem killExecution_checks_the_owner_only_for_a_user
        w kill findOne executionId user container st :
  (truthy user = true ->
   findOne = inr false ->
   killExecution w kill findOne executionId (Some user) st
   = (Throw "Execution not found or unauthorized",
      append_trace st [Persist "CodeExecution.findOne";
                       Log LogError "Failed to kill execution"])) /\
  (activeContainers_get executionId st = Some container ->
   kill container = None ->
   exists st',
     killExecution w kill findOne executionId None st
     = (Val {| k_success := true; k_message := "Execution terminated" |}, st') /\
     hd_error (events_of (killExecution w kill findOne executionId None) st)
     = Some (ContainerKill container)).
Proof.
  split.
  - intros Huser ->. unfold killExecution, catch, bind, request_for. rewrite Huser.
    cbn [emit throw log fst snd]. now rewrite append_trace_app.
  - intros Hget Hkill.
    destruct (killContainer_succeeds w kill executionId container st Hget Hkill)
      as (st1 & events & Hrun & Htrace & _).
    unfold events_of, killExecution, catch, bind. cbn [ret fst snd].
    rewrite Hrun. cbn [log emit fst snd]. eexists. split; [reflexivity|].
    unfold ret. cbn [fst snd append_trace trace].
    rewrite Htrace, <- app_assoc, skipn_app, skipn_all, Nat.sub_diag.
    reflexivity.
Qed.

End KillExecution.

(* ===================================================================== *)
(** * The orchestrator: limits, saving, the controller                    *)
(* ===================================================================== *)

Section Limits.
Import Constants JsString Effects Hoare SecurityService CodeExecutionService.

(** X24.  A user who has reached the daily limit is answered with an
    error response whatever is submitted, and nothing but logging is
    done for the request: no file, no container, and no update of the
    counters of the user. *)
Theorem over_limit_user_is_always_refused w requestData sessionInfo user st :
  hasExceededDailyLimit user = true ->
  exists response,
    fst (executeCode w requestData sessionInfo (Some user) st) = Val response /\
    success response = false /\
    status response = ERROR /\
    forallb is_log (events_of (executeCode w requestData sessionInfo (Some user)) st) = true.
Proof.
  intros Hover.
  destruct (Helpers.validateLanguage (language requestData)) eqn:Hlanguage.
  2:{ pose proof (unsupported_language_run w requestData sessionInfo (Some user) st Hlanguage)
        as Hlogs.
      revert Hlogs. unfold events_of.
      unfold executeCode, Helpers.generateExecutionId, bind, catch, Date_now, ret.
      rewrite Hlanguage. cbn [negb throw].
      unfold createErrorResponse, log, emit, bind, Date_now, ret.
      cbn [fst snd]. intros Hlogs. eexists. split; [reflexivity|].
      cbn [success status]. auto. }
  destruct (validateCode_frame (code requestData) (language requestData) st (tick (tick st)))
    as (verdict & indexes & logs & Hst & Hst2 & Hlogs & Hquiet); [reflexivity|].
  destruct (isValid verdict) eqn:Hvalid.
  2:{ destruct (rejected_run w requestData sessionInfo (Some user) st verdict _
                  Hlanguage Hst Hvalid) as (st' & logs' & Hrun & Htrace & Hlogs').
      eexists. rewrite Hrun. split; [reflexivity|]. cbn [success status].
      repeat split. rewrite (events_of_exact _ st logs'); [exact Hlogs'|].
      rewrite Hrun. exact Htrace. }
  rewrite (Hquiet eq_refl) in Hst2.
  unfold events_of.
  unfold executeCode, Helpers.generateExecutionId, bind, catch, Date_now, ret.
  rewrite Hlanguage. cbn [negb]. rewrite Hst2, Hvalid. cbn [negb].
  destruct (isValid (validateInput (input requestData))); cbn [negb exceeded];
    rewrite ?Hover;
    unfold createErrorResponse, bind, Date_now, ret;
    cbn [fst snd trace tick ticks lastIndex activeContainers];
    (eexists; split; [reflexivity|]); cbn [success status]; repeat split;
    rewrite app_nil_r, skipn_all; reflexivity.
Qed.

End Limits.

Section Saving.
Import Constants JsString Effects Hoare SecurityService CodeExecutionService.

Lemma wp_any {A} (c : M A) (Q : A -> State -> Prop) (E : string -> State -> Prop) st :
  (forall a st', Q a st') -> (forall m st', E m st') -> wp c Q E st.
Proof.
  intros HQ HE. unfold wp. destruct (c st) as [[a | m |] st']; auto.
Qed.

Lemma createErrorResponse_wp w executionId message startTime E st :
  wp (createErrorResponse w executionId ERROR message startTime)
     (fun response _ => is_error_response response /\ error response = message) E st.
Proof. unfold wp, createErrorResponse, bind, Date_now, ret. cbn. repeat split. Qed.

Lemma createErrorResponse_is_error w executionId message startTime E st :
  wp (createErrorResponse w executionId ERROR message startTime)
     (fun response _ => is_error_response response) E st.
Proof.
  eapply wp_mono; [apply (createErrorResponse_wp _ _ _ _ E) | | ].
  - intros a st' [H _]. exact H.
  - intros m' st' H. exact H.
Qed.

Lemma createExecutionRecord_fails w m st :
  persist w "CodeExecution.save" = Some m ->
  wp (createExecutionRecord w) (fun _ _ => False) (fun m' _ => m' = m) st.
Proof.
  intros Hsave. unfold wp, createExecutionRecord, catch, request, bind, log, emit, throw.
  rewrite Hsave. reflexivity.
Qed.

(** When the record of an execution cannot be saved, the caller gets an
    error response, whatever the program did. *)
Lemma executeCode_unsaved w requestData sessionInfo userInfo st m :
  persist w "CodeExecution.save" = Some m ->
  wp (executeCode w requestData sessionInfo userInfo)
     (fun response _ => is_error_response response) (fun _ _ => False) st.
Proof.
  intros Hsave. unfold executeCode.
  apply wp_bind, safe_wp;
    [unfold Helpers.generateExecutionId; repeat safe_step | intros executionId st1].
  apply wp_bind, safe_wp; [apply safe_Date_now | intros startTime st2].
  apply wp_catch.
  assert (Hh : forall message st',
             wp (log LogError "Code execution service error" ;;
                 createErrorResponse w executionId ERROR message startTime)%js
                (fun response _ => is_error_response response) (fun _ _ => False) st').
  { intros message st'. apply wp_bind, safe_wp; [apply safe_log | intros _ st''].
    apply createErrorResponse_is_error. }
  destruct (negb (Helpers.validateLanguage (language requestData))).
  { apply wp_throw, Hh. }
  apply wp_bind, wp_any; [|intros; apply Hh].
  intros codeValidation st3.
  destruct (negb (isValid codeValidation)).
  { apply wp_bind, wp_any; [|intros; apply Hh]. intros _ st4.
    apply wp_bind, wp_any; [|intros; apply Hh]. intros _ st5.
    apply createErrorResponse_is_error. }
  destruct (negb (isValid (validateInput (input requestData)))).
  { apply createErrorResponse_is_error. }
  destruct (exceeded userInfo).
  { apply createErrorResponse_is_error. }
  apply wp_bind, wp_any; [|intros; apply Hh]. intros session st3'.
  apply wp_bind, wp_any; [|intros; apply Hh]. intros _ st4.
  apply wp_bind, wp_any; [|intros; apply Hh]. intros executionResult st5.
  apply wp_bind, wp_any; [|intros; apply Hh]. intros endTime st6.
  apply wp_bind.
  eapply wp_mono; [apply (createExecutionRecord_fails w m st6 Hsave) | | ].
  - contradiction.
  - intros m' st7 _. apply Hh.
Qed.

(** X25.  When the execution record cannot be saved, [executeCode]
    answers with an error response ([success] false, status [ERROR],
    empty output, exit code -1), whatever the container did: the result
    of a run that took place is lost. *)
Theorem unsaved_execution_is_reported_as_an_error
        w requestData sessionInfo userInfo st m response :
  persist w "CodeExecution.save" = Some m ->
  fst (executeCode w requestData sessionInfo userInfo st) = Val response ->
  success response = false /\ status response = ERROR /\
  output response = "" /\ exitCode response = (-1)%Z.
Proof.
  intros Hsave Hrun.
  pose proof (executeCode_unsaved w requestData sessionInfo userInfo st m Hsave) as H.
  unfold wp in H.
  destruct (executeCode w requestData sessionInfo userInfo st) as [[a | m' |] st'];
    cbn [fst] in Hrun; try discriminate.
  injection Hrun as <-. exact H.
Qed.

End Saving.

Section Controller.
Import Constants Effects Hoare CodeController.

(** X26.  Whenever the controller answers a request (one whose body
    holds a code string and that has a session), the answer carries the
    result of the service, with status code 200 when [success] is true
    and 400 otherwise; the answer 500 is never sent. *)
Theorem controller_answers_200_or_400 w body sessionInfo userInfo st answer :
  fst (executeCode w body sessionInfo userInfo st) = Val answer ->
  exists response,
    result answer = Some response /\
    statusCode answer = (if CodeExecutionService.success response then 200 else 400)%Z.
Proof.
  intros Hrun.
  assert (H : wp (executeCode w body sessionInfo userInfo)
                 (fun answer _ =>
                    exists response,
                      result answer = Some response /\
                      statusCode answer
                      = (if CodeExecutionService.success response then 200 else 400)%Z)
                 (fun _ _ => False) st).
  { unfold executeCode.
    apply wp_bind, safe_wp; [apply safe_Date_now | intros startTime st1].
    apply wp_catch.
    apply (wp_safe _ _ (fun _ _ => True)).
    { repeat safe_step. apply service_executeCode_safe. }
    apply wp_bind, safe_wp; [apply safe_log | intros _ st2].
    apply wp_bind, safe_wp; [apply service_executeCode_safe | intros response st3].
    apply wp_bind, safe_wp; [apply safe_Date_now | intros endTime st4].
    apply wp_bind, safe_wp; [apply safe_log | intros _ st5].
    exists response. split; reflexivity. }
  unfold wp in H.
  destruct (executeCode w body sessionInfo userInfo st) as [[a | m |] st'];
    cbn [fst] in Hrun; try discriminate.
  injection Hrun as <-. exact H.
Qed.

End Controller.

(* ===================================================================== *)
(** * Users and sessions                                                  *)
(* ===================================================================== *)

Section UserCounters.
Import CodeExecutionService User.

Variable toDateString : Z -> string.

(** The document after the executions at the given times, in order. *)
Lemma updates_on_one_day times : forall user,
  Forall (fun today => toDateString today = toDateString (lastExecutionDate user)) times ->
  let user' := fold_left (fun u today => updateExecutionCount toDateString today u)
                         times user in
  dailyExecutionCount (info user')
  = (dailyExecutionCount (info user) + Z.of_nat (List.length times))%Z /\
  executionCount user' = (executionCount user + Z.of_nat (List.length times))%Z /\
  role (info user') = role (info user).
Proof.
  induction times as [|today times IH]; intros user Hday; cbn [fold_left List.length].
  - cbn. repeat split; lia.
  - inversion Hday as [|? ? Htoday Hrest]; subst.
    specialize (IH (updateExecutionCount toDateString today user)).
    cbn zeta in IH. destruct IH as (Hd & He & Hr).
    { cbn [updateExecutionCount lastExecutionDate].
      eapply Forall_impl; [|exact Hrest]. cbn beta. intros t Ht. now rewrite Ht, Htoday. }
    rewrite Hd, He, Hr. unfold updateExecutionCount at 1 2 3.
    cbn [info dailyExecutionCount executionCount role]. rewrite Htoday, String.eqb_refl.
    cbn [negb]. repeat split; lia.
Qed.

(** X27.  After any number of [updateExecutionCount] on the calendar day
    of the last execution, [hasExceededDailyLimit] holds exactly when
    the daily count before plus that number reaches the limit (1000
    for an admin, 100 otherwise); and an update on another day sets the
    daily count to 1. *)
Theorem the_daily_limit_is_reached_by_the_count_of_the_day user times :
  Forall (fun today => toDateString today = toDateString (lastExecutionDate user)) times ->
  let user' := fold_left (fun u today => updateExecutionCount toDateString today u)
                         times user in
  hasExceededDailyLimit (info user')
  = (dailyExecutionCount (info user) + Z.of_nat (List.length times)
     >=? (if String.eqb (role (info user)) "admin" then 1000 else 100))%Z /\
  (forall tomorrow,
      toDateString tomorrow <> toDateString (lastExecutionDate user') ->
      dailyExecutionCount (info (updateExecutionCount toDateString tomorrow user')) = 1%Z).
Proof.
  intros Hday user'.
  destruct (updates_on_one_day times user Hday) as (Hd & _ & Hr). fold user' in Hd, Hr.
  split.
  - unfold hasExceededDailyLimit. now rewrite Hd, Hr.
  - intros tomorrow Hnew. unfold updateExecutionCount.
    cbn [info dailyExecutionCount].
    apply String.eqb_neq in Hnew. now rewrite Hnew.
Qed.

End UserCounters.

Section SessionLists.
Import Session.

Lemma firstn_firstn_cons {A} n (x : A) l :
  firstn (S n) (x :: firstn (S n) l) = firstn (S n) (x :: l).
Proof.
  rewrite !firstn_cons, firstn_firstn. f_equal. f_equal. lia.
Qed.

(** [addRecentExecution] keeps the first ten of the new list. *)
Lemma addRecentExecution_firstn now executionId language recentExecutions :
  addRecentExecution now executionId language recentExecutions
  = firstn 10 ({| executionId := executionId; language := language; timestamp := now |}
                 :: recentExecutions).
Proof.
  unfold addRecentExecution.
  destruct (10 <? List.length (_ :: recentExecutions)) eqn:E; [reflexivity|].
  apply Nat.ltb_ge in E. now rewrite firstn_all2.
Qed.

(** X28.  After any sequence of [addRecentExecution] on an empty list,
    [recentExecutions] holds the last ten executions of the sequence
    (all of them when there are fewer), the newest first. *)
Theorem recentExecutions_holds_the_last_ten_newest_first executions :
  let recentExecutions :=
    fold_left (fun list execution =>
                 addRecentExecution (timestamp execution) (executionId execution)
                                    (language execution) list)
              executions [] in
  recentExecutions = firstn 10 (rev executions) /\
  List.length recentExecutions = Nat.min 10 (List.length executions).
Proof.
  cbn zeta.
  assert (H : forall list,
             fold_left (fun list execution =>
                          addRecentExecution (timestamp execution) (executionId execution)
                                             (language execution) list)
                       executions (firstn 10 list)
             = firstn 10 (rev executions ++ list)).
  { induction executions as [|execution executions IH]; intros list; cbn [fold_left rev].
    - reflexivity.
    - rewrite addRecentExecution_firstn.
      replace {| executionId := executionId execution; language := language execution;
                 timestamp := timestamp execution |} with execution
        by now destruct execution.
      rewrite (firstn_firstn_cons 9), IH, <- app_assoc. reflexivity. }
  specialize (H []). rewrite firstn_nil, app_nil_r in H.
  rewrite H. split; [reflexivity|].
  rewrite length_firstn, length_rev. reflexivity.
Qed.

(** X29.  [saveCode] replaces the code saved for the language and puts
    the new code last when fewer than five codes of other languages
    are saved; when five or more are, it keeps the first five of those
    and the code it was asked to save is not in the list. *)
Theorem saveCode_keeps_the_new_code_only_below_five now language code savedCode :
  let others :=
    filter (fun item => negb (String.eqb (s_language item) language)) savedCode in
  let saved := {| s_language := language; s_code := code; savedAt := now |} in
  (List.length others < 5 -> saveCode now language code savedCode = (others ++ [saved])%list) /\
  (5 <= List.length others ->
   saveCode now language code savedCode = firstn 5 others /\
   ~ In saved (saveCode now language code savedCode)).
Proof.
  cbn zeta. unfold saveCode.
  set (others := filter _ savedCode).
  set (saved := {| s_language := language; s_code := code; savedAt := now |}).
  rewrite length_app. cbn [List.length].
  split.
  - intros Hfew. destruct (5 <? List.length others + 1) eqn:E; [|reflexivity].
    apply Nat.ltb_lt in E. lia.
  - intros Hmany. destruct (5 <? List.length others + 1) eqn:E.
    2:{ apply Nat.ltb_ge in E. lia. }
    rewrite firstn_app. replace (5 - List.length others) with 0 by lia.
    cbn [firstn]. rewrite app_nil_r. split; [reflexivity|].
    intros Hin.
    assert (Hin' : In saved others).
    { rewrite <- (firstn_skipn 5 others). apply in_or_app. now left. }
    clear Hin. rename Hin' into Hin. subst others.
    apply filter_In in Hin as [_ Hin]. subst saved. cbn [s_language] in Hin.
    now rewrite String.eqb_refl in Hin.
Qed.

End SessionLists.

(* ===================================================================== *)
(** * The templates                                                       *)
(* ===================================================================== *)

Section Templates.
Import Constants JsString Effects SecurityService.

(** X30.  Of the templates [getCodeTemplates] offers, the Screener of a
    fresh process accepts all but one: the [input_output] template of
    javascript is rejected for its use of [process].  Every Java
    template declares the class [Main], the one the sandbox compiles. *)
Theorem the_screener_accepts_every_template_but_one language :
  Forall (fun template =>
            option_map errors
              (value (fst (validateCode (snd template) language initial)))
            = Some (if String.eqb language "javascript"
                       && String.eqb (fst template) "input_output"
                    then ["Dangerous global object detected: process"]
                    else []) /\
            (language = "java" -> JavaExecutor.extractClassName (snd template) = "Main"))
         (CodeController.templates language).
Proof.
  unfold CodeController.templates.
  destruct (String.eqb_spec language "python") as [->|_];
    [|destruct (String.eqb_spec language "javascript") as [->|_];
      [|destruct (String.eqb_spec language "cpp") as [->|_];
        [|destruct (String.eqb_spec language "java") as [->|_]; [|apply Forall_nil]]]];
    repeat (apply Forall_cons;
            [split; [vm_compute; reflexivity|];
             intros _; vm_compute; reflexivity | ]);
    try apply Forall_nil.
Qed.
End Templates.

(* ===================================================================== *)
(** * Further instances                                                   *)
(* ===================================================================== *)

Section FurtherInstances.
Import Constants JsString Effects SecurityService.

(** X24, at a user with 100 executions today. *)
Lemma over_limit_witness :
  exists response,
    fst (CodeExecutionService.executeCode (Scenarios.world [] 0)
           (Scenarios.request "python" "print(1)" "") Scenarios.session
           (Some Scenarios.regular) initial) = Val response /\
    CodeExecutionService.success response = false /\
    CodeExecutionService.status response = ERROR /\
    forallb is_log
      (events_of (CodeExecutionService.executeCode (Scenarios.world [] 0)
                    (Scenarios.request "python" "print(1)" "") Scenarios.session
                    (Some Scenarios.regular)) initial) = true.
Proof. apply over_limit_user_is_always_refused. reflexivity. Defined.

(** X25, at a Python run that succeeds in its container while the store
    refuses the record. *)
Lemma unsaved_witness :
  let w := Scenarios.failing_store (Scenarios.world (Scenarios.exits "" 0) 1000) in
  exists response,
    fst (CodeExecutionService.executeCode w (Scenarios.request "python" "print(1)" "")
           Scenarios.session None initial) = Val response /\
    In (ContainerStart "c1")
       (events_of (CodeExecutionService.executeCode w
                     (Scenarios.request "python" "print(1)" "")
                     Scenarios.session None) initial) /\
    CodeExecutionService.success response = false /\
    CodeExecutionService.status response = ERROR /\
    CodeExecutionService.output response = "" /\
    CodeExecutionService.exitCode response = (-1)%Z.
Proof.
  cbv zeta. eexists. split; [vm_compute; reflexivity|].
  split; [vm_compute; auto 20|].
  apply (unsaved_execution_is_reported_as_an_error
           (Scenarios.failing_store (Scenarios.world (Scenarios.exits "" 0) 1000))
           (Scenarios.request "python" "print(1)" "") Scenarios.session None initial
           "MongoNetworkError").
  - reflexivity.
  - vm_compute. reflexivity.
Defined.

(** X26, at a Python run that succeeds. *)
Lemma controller_witness :
  exists answer response,
    fst (CodeController.executeCode (Scenarios.world (Scenarios.exits "" 0) 1000)
           (Scenarios.request "python" "print(1)" "") Scenarios.session None initial)
    = Val answer /\
    CodeController.result answer = Some response /\
    CodeController.statusCode answer = 200%Z /\
    CodeController.statusCode answer
    = (if CodeExecutionService.success response then 200 else 400)%Z.
Proof.
  eexists. 
  destruct (controller_answers_200_or_400
              (Scenarios.world (Scenarios.exits "" 0) 1000)
              (Scenarios.request "python" "print(1)" "") Scenarios.session None initial
              _ ltac:(vm_compute; reflexivity)) as (response & Hresult & Hstatus).
  exists response. split; [vm_compute; reflexivity|].
  split; [exact Hresult|]. split; [reflexivity | exact Hstatus].
Defined.

(** X4, at a call that follows a rejection: the pattern for [eval] is
    missed, the reason for [exec] is one the fresh Screener gives. *)
Lemma truthful_witness :
  exists verdict fresh,
    fst (validateCode "eval(1) exec(2)" "java" Scenarios.after_a_rejection) = Val verdict /\
    errors verdict = ["Code contains forbidden pattern: exec\s*\("] /\
    fst (validateCode "eval(1) exec(2)" "java" initial) = Val fresh /\
    incl (errors verdict) (errors fresh) /\
    (isValid fresh = true -> isValid verdict = true).
Proof.
  eexists.
  destruct (every_reason_is_a_reason_of_the_fresh_screener
              "eval(1) exec(2)" "java" Scenarios.after_a_rejection _ ltac:(vm_compute; reflexivity))
    as (fresh & Hfresh & Hincl & Hvalid).
  exists fresh. split; [vm_compute; reflexivity|]. split; [reflexivity|]. auto.
Defined.

(** X5, at an accepted Python source that follows a rejection. *)
Lemma fresh_again_witness :
  fst (validateCode "eval(1)" "java"
         (snd (validateCode "print(1)" "python" Scenarios.after_a_rejection)))
  = fst (validateCode "eval(1)" "java" initial).
Proof.
  apply (an_accepting_call_leaves_the_screener_fresh
           "print(1)" "python" Scenarios.after_a_rejection
           {| isValid := true; errors := [] |}
           (snd (validateCode "print(1)" "python" Scenarios.after_a_rejection))
           "eval(1)" "java").
  - vm_compute. reflexivity.
  - reflexivity.
Defined.

(** X6, at a line feed and two blanks, after a rejection. *)
Lemma blank_witness :
  validateCode (String LF "  ") "python" Scenarios.after_a_rejection
  = (Val {| isValid := false; errors := ["Code cannot be empty"] |}, Scenarios.after_a_rejection).
Proof. apply blank_code_is_rejected_as_empty. vm_compute. reflexivity. Defined.

(** X7, at a Python source the fresh Screener accepts. *)
Lemma accepted_witness :
  (length "print(1)" <= MAX_CODE_LENGTH)%Z /\
  trim "print(1)" <> "" /\
  existsb (fun c => negb (is_space c)) (list_ascii_of_string "print(1)") = true.
Proof.
  apply (an_accepted_code_is_neither_blank_nor_too_long
           "print(1)" "python" initial {| isValid := true; errors := [] |}).
  - vm_compute. reflexivity.
  - reflexivity.
Defined.

(** X11, at one line of output. *)
Lemma short_output_witness :
  Helpers.sanitizeOutput ("Hello, World!" ++ str1 LF) = "Hello, World!" ++ str1 LF.
Proof.
  apply short_output_without_paths_is_unchanged; vm_compute; first [reflexivity | discriminate].
Defined.

(** X12, at 256 and its units. *)
Lemma units_witness :
  Helpers.parseMemoryLimit "256" = 256%Z /\
  Helpers.parseMemoryLimit "256k" = (256 * 1024)%Z /\
  Helpers.parseMemoryLimit "256K" = (256 * 1024)%Z /\
  Helpers.parseMemoryLimit "256m" = (256 * 1024 * 1024)%Z /\
  Helpers.parseMemoryLimit "256M" = (256 * 1024 * 1024)%Z /\
  Helpers.parseMemoryLimit "256g" = (256 * 1024 * 1024 * 1024)%Z /\
  Helpers.parseMemoryLimit "256G" = (256 * 1024 * 1024 * 1024)%Z.
Proof.
  apply (parseMemoryLimit_applies_the_unit "256" "").
  - discriminate.
  - reflexivity.
  - vm_compute. reflexivity.
  - now left.
Defined.

(** X13, at a limit with a decimal point. *)
Lemma fallback_witness :
  Helpers.parseMemoryLimit "1.5g" = (128 * 1024 * 1024)%Z /\
  Helpers.parseMemoryLimit "" = (128 * 1024 * 1024)%Z.
Proof. apply (parseMemoryLimit_falls_back_to_128_MiB "1" "." "5g"); reflexivity. Defined.

(** X15, at java. *)
Lemma supported_language_witness :
  exists config,
    DockerService.containerConfigs (Scenarios.world [] 0) "java" = Some config /\
    Helpers.getMainFileName "java" = Helpers.generateFileName "java" "exec_1" /\
    DockerService.workingDir config = "/app" /\
    includes (Helpers.generateFileName "java" "exec_1") (last (DockerService.cmd config) "")
    = true.
Proof.
  apply (every_supported_language_has_a_sandbox_that_runs_its_file
           (Scenarios.world [] 0) "java" "exec_1").
  reflexivity.
Defined.

(** X16, at the sandbox of python. *)
Lemma unconfigured_witness :
  let options :=
    DockerService.buildContainerOptions Scenarios.python_config "/tmp/code_exec_exec_1" "" in
  Docker.Memory (Docker.HostConfig_ options) = (128 * 1024 * 1024)%Z /\
  Docker.CpuQuota (Docker.HostConfig_ options) = 50000%Z /\
  Docker.CpuPeriod (Docker.HostConfig_ options) = 100000%Z /\
  Docker.Binds (Docker.HostConfig_ options) = ["/tmp/code_exec_exec_1" ++ ":/app:rw"] /\
  DockerService.timeout Scenarios.python_config
  = (if String.eqb "python" "python" || String.eqb "python" "javascript"
     then 30000 else 45000)%Z.
Proof.
  apply (unconfigured_sandboxes_get_128_MiB_and_half_a_CPU (Scenarios.world [] 0) "python");
    reflexivity.
Defined.


(** X20, at a run that ends by the deadline. *)
Lemma registry_witness :
  let w := Scenarios.world Scenarios.deadline_kill_first 0 in
  let st' := snd (DockerService.executeCode w "python" "while True: pass" "" "exec_1"
                    initial) in
  activeContainers st' = activeContainers initial /\
  DockerService.killContainer w (fun _ => None) "exec_1" st' = (Val false, st').
Proof.
  cbv zeta.
  eapply (a_finished_run_is_no_longer_registered
            (Scenarios.world Scenarios.deadline_kill_first 0) (fun _ => None)
            "python" "while True: pass" "" "exec_1" initial).
  - reflexivity.
  - vm_compute. reflexivity.
Defined.

(** X21, at a run that ends by the deadline. *)
Lemma workspace_removed_witness :
  let w := Scenarios.world Scenarios.deadline_kill_first 0 in
  In (Rmdir "/tmp/code_exec_exec_1")
     (events_of (DockerService.executeCode w "python" "while True: pass" "" "exec_1")
                initial).
Proof.
  cbv zeta.
  eapply (the_workspace_of_a_finished_run_is_removed
            (Scenarios.world Scenarios.deadline_kill_first 0)
            "python" "while True: pass" "" "exec_1" initial).
  - reflexivity.
  - reflexivity.
  - vm_compute. reflexivity.
Defined.

(** X27, at a user with 98 executions today who runs two more; the day
    is the day in UTC. *)
Lemma daily_limit_witness :
  let toDateString := fun t : Z => JsString.of_Z (t / 86400000) in
  let user := {| User.info := {| CodeExecutionService._id := "u1";
                                 CodeExecutionService.role := "user";
                                 CodeExecutionService.dailyExecutionCount := 98 |};
                 User.executionCount := 500;
                 User.lastExecutionDate := 1700000000000 |} in
  let times := [1700000001000; 1700000002000]%Z in
  let user' := fold_left (fun u today => User.updateExecutionCount toDateString today u)
                         times user in
  CodeExecutionService.hasExceededDailyLimit (User.info user')
  = (98 + 2 >=? 100)%Z /\
  (forall tomorrow,
      toDateString tomorrow <> toDateString (User.lastExecutionDate user') ->
      CodeExecutionService.dailyExecutionCount
        (User.info (User.updateExecutionCount toDateString tomorrow user')) = 1%Z).
Proof.
  cbv zeta.
  apply (the_daily_limit_is_reached_by_the_count_of_the_day
           (fun t : Z => JsString.of_Z (t / 86400000))
           {| User.info := {| CodeExecutionService._id := "u1";
                              CodeExecutionService.role := "user";
                              CodeExecutionService.dailyExecutionCount := 98 |};
              User.executionCount := 500;
              User.lastExecutionDate := 1700000000000 |}
           [1700000001000; 1700000002000]%Z).
  repeat constructor.
Defined.

(** X2, at a Python loop that never ends. *)
Lemma deadline_witness :
  option_map DockerService.status
    (value (fst (DockerService.executeCode
                   (Scenarios.world Scenarios.deadline_kill_first 1000000)
                   "python" "while True: pass" "" "exec_1" initial)))
  = Some TIMEOUT.
Proof.
  apply (deadline_kill_first_is_TIMEOUT
           (Scenarios.world Scenarios.deadline_kill_first 1000000)
           "python" "while True: pass" "" "exec_1" initial Scenarios.python_config "c1"
           [AttachSettles None] [] None [WaitSettles (inr 137%Z)]); reflexivity.
Defined.

(** X3, at a class [Solution] that [javac] rejects. *)
Lemma java_executor_witness :
  let w := Scenarios.javac_rejects (Scenarios.world [] 0) in
  let code := "public class Solution {" in
  "/srv/temp/exec_1/Solution.java"
  = Helpers.path_join (Helpers.path_join (Helpers.path_join (cwd w) "temp") "exec_1")
      (JavaExecutor.extractClassName code ++ ".java") /\
  In (WriteFile
        (Helpers.path_join (Helpers.path_join (Helpers.path_join (cwd w) "temp") "exec_1")
           (JavaExecutor.extractClassName code ++ ".java")) code)
     (events_of (JavaExecutor.execute w code "" "exec_1") initial) /\
  option_map JavaExecutor.status
    (value (fst (JavaExecutor.execute w code "" "exec_1" initial)))
  = Some COMPILATION_ERROR.
Proof.
  cbv zeta. split; [vm_compute; reflexivity|].
  apply (JavaExecutor_compile_failure
           (Scenarios.javac_rejects (Scenarios.world [] 0)) "public class Solution {" "exec_1" initial
           "" "Solution.java:1: error: reached end of file while parsing" (Some 1%Z));
    reflexivity.
Defined.

End FurtherInstances.
